(** * gfft: generalized Fourier transformation between regular and
    irregular N-D fields (gfft.py, version 0.2.1).

    The development embeds the single entry point [gfft] together with the
    two brute-force transforms [dft] and [idft].

    Modelling decisions.
    - Python objects are values of [pyobj]; a numpy array is a reference
      ([PArr l]) into a store of arrays, so that rebinding a local name and
      writing into an array in place are different things.
    - [gfft] runs in a state-and-error monad over [world]: the array store
      and the trace of what the call printed, warned about, and asked of
      numpy and of the gridding module.
    - Python floats are exact rationals ([Q]); rounding, overflow and NaN
      are outside the model.  Python ints are [Z].  [/] is true division,
      as in Python 3.  What is stated of a number that the program
      computes with floats is stated where the operations are exact
      ([binary64], [exact_mul], [exact_sub]) and within range ([finite]).
    - The entries of a grid specification [(dx, nx)] are read as numbers;
      an entry of another type ends the call with [OutOfModel].
    - The dense transforms, the array arithmetic and the gridding module
      are collaborators that are not part of gfft.py: they are the
      parameter [oracle], a function of the values of its arguments.
      [np.fft.fftshift] and [ndarray.copy] are written out.
    - [dft] and [idft] need the cosine and the sine and are embedded over
      the real numbers of the Standard Library. *)

From Stdlib Require Import ZArith QArith Qround Qabs String Ascii DecimalString List Lia.
From Stdlib Require Import Reals Lra Sorted Psatz.
From stdpp Require Import base list.
Import ListNotations.

Set Warnings "-register-all".

#[local] Open Scope string_scope.
#[local] Open Scope list_scope.
#[local] Open Scope nat_scope.

(** ** Python values *)

Definition loc := nat.

(** Python numbers: [int] and [float]. *)
Inductive num : Type :=
| NInt (z : Z)
| NFloat (q : Q).

Inductive pyobj : Type :=
| PNone
| PBool (b : bool)
| PInt (z : Z)
| PFloat (q : Q)
| PStr (s : string)
| PArr (l : loc)
| PList (xs : list pyobj)
| PTuple (xs : list pyobj).

(** What [type(x)] answers. *)
Inductive pytype : Type :=
| TNoneType | TBool | TInt | TFloat | TStr | TNdarray | TList | TTuple.

Definition pytype_eqb (a b : pytype) : bool :=
  match a, b with
  | TNoneType, TNoneType | TBool, TBool | TInt, TInt | TFloat, TFloat
  | TStr, TStr | TNdarray, TNdarray | TList, TList | TTuple, TTuple => true
  | _, _ => false
  end.

Definition type_of (x : pyobj) : pytype :=
  match x with
  | PNone => TNoneType
  | PBool _ => TBool
  | PInt _ => TInt
  | PFloat _ => TFloat
  | PStr _ => TStr
  | PArr _ => TNdarray
  | PList _ => TList
  | PTuple _ => TTuple
  end.

Definition is_type (x : pyobj) (t : pytype) : bool := pytype_eqb (type_of x) t.

(** The items of a list or of a tuple; [len] and indexing go through it. *)
Definition items (x : pyobj) : list pyobj :=
  match x with
  | PList xs | PTuple xs => xs
  | _ => []
  end.

Definition len (x : pyobj) : nat := length (items x).

(** ** Exceptions and results *)

Inductive exn : Type :=
| TypeError (msg : string)
| Exception (msg : string)
| IndexError (msg : string)
| ZeroDivisionError (msg : string)
| AxisError (msg : string)
| NumericError (msg : string)   (* raised by a collaborator *)
| OutOfModel (msg : string).    (* the request leaves the modelled fragment *)

Inductive result (A : Type) : Type :=
| OK (a : A)
| Raise (e : exn).
Arguments OK {A} a.
Arguments Raise {A} e.

(** ** Python arithmetic on numbers *)

Module Num.

Definition to_Q (x : num) : Q :=
  match x with
  | NInt z => inject_Z z
  | NFloat q => q
  end.

Definition float (q : Q) : num := NFloat (Qred q).

(** [x * y]: int times int is an int, anything else is a float. *)
Definition mul (x y : num) : num :=
  match x, y with
  | NInt a, NInt b => NInt (a * b)
  | _, _ => float (to_Q x * to_Q y)
  end.

(** [x + y] and [x - y]. *)
Definition add (x y : num) : num :=
  match x, y with
  | NInt a, NInt b => NInt (a + b)
  | _, _ => float (to_Q x + to_Q y)
  end.

Definition sub (x y : num) : num :=
  match x, y with
  | NInt a, NInt b => NInt (a - b)
  | _, _ => float (to_Q x - to_Q y)
  end.

Definition is_zero (x : num) : bool := (Qnum (to_Q x) =? 0)%Z.

(** [x / y], true division: the quotient is a float, and a zero divisor
    raises; the message names the float division unless both operands are
    ints. *)
Definition div (x y : num) : result num :=
  if is_zero y
  then Raise (ZeroDivisionError
                match x, y with
                | NInt _, NInt _ => "division by zero"
                | _, _ => "float division by zero"
                end)
  else OK (float (to_Q x / to_Q y)).

(** [x ** 2]. *)
Definition square (x : num) : num := mul x x.

(** Truncation of a rational towards zero. *)
Definition Qtrunc (q : Q) : Z := Z.quot (Qnum q) (Z.pos (Qden q)).

(** [int(x)] truncates towards zero. *)
Definition int (x : num) : num :=
  match x with
  | NInt z => NInt z
  | NFloat q => NInt (Qtrunc q)
  end.

Definition half : num := NFloat (1 # 2).
Definition neg_half : num := NFloat (- 1 # 2).
Definition zero_f : num := NFloat 0.
Definition one_f : num := NFloat 1.

End Num.

(** A grid specification entry read as a number.  [True] and [False] are
    ints in Python.  An entry of another type is outside the model (Python
    fails at the first arithmetic use of a [str], [list], [tuple] or
    [None], and broadcasts over an array). *)
Definition to_num (x : pyobj) : result num :=
  match x with
  | PInt z => OK (NInt z)
  | PFloat q => OK (NFloat q)
  | PBool b => OK (NInt (if b then 1 else 0))
  | _ => Raise (OutOfModel "grid specification entry is not a number")
  end.

(** [x[i]] on a list or a tuple. *)
Definition subscript (x : pyobj) (i : nat) : result pyobj :=
  match x with
  | PList xs | PTuple xs =>
      match xs !! i with
      | Some y => OK y
      | None => Raise (IndexError "index out of range")
      end
  | _ => Raise (OutOfModel "subscript of an object that is no list or tuple")
  end.

(** ** Strings *)

Definition lower_ascii (c : ascii) : ascii :=
  let n := nat_of_ascii c in
  if ((65 <=? n) && (n <=? 90))%nat then ascii_of_nat (n + 32) else c.

(** [s.lower()]. *)
Fixpoint lower (s : string) : string :=
  match s with
  | EmptyString => EmptyString
  | String c r => String (lower_ascii c) (lower r)
  end.

(** [str(n)] for a non-negative int. *)
Definition str_nat (n : nat) : string := NilZero.string_of_uint (Nat.to_uint n).

(** ** Arrays, the store and the trace *)

Section Gfft.

(** The type of array elements (complex or real samples).  [gfft] never
    looks inside an element: every element-wise operation is done by a
    collaborator. *)
Variable E : Type.

(** An n-dimensional array, axis 0 outermost. *)
Fixpoint tensor (n : nat) : Type :=
  match n with
  | 0 => E
  | S m => list (tensor m)
  end.

Record ndarray : Type := mk_ndarray { ndim : nat; body : tensor ndim }.

(** What a collaborator receives, by value. *)
Inductive arg : Type :=
| AArr (a : ndarray)
| ANum (x : num)
| ABool (b : bool)
| AAxes (axes : option (list nat))
| AObj (x : pyobj).

(** The collaborators: [np.fft.fftn], [np.fft.ifftn], [np.array],
    [np.zeros], array division and slicing, and the functions of the
    gridding module, named by their Python names.  The result depends on
    the values of the arguments only. *)
Variable oracle : string -> list arg -> result ndarray.

Inductive event : Type :=
| EPrint (s : string)
| EWarn (s : string)
| ECall (fn : string) (args : list arg).

Record world : Type := mk_world { heap : list ndarray; trace : list event }.

Definition log (e : event) (w : world) : world :=
  {| heap := heap w; trace := trace w ++ [e] |}.

(** ** The monad of a call *)

Definition M (A : Type) : Type := world -> result A * world.

Definition ret {A} (a : A) : M A := fun w => (OK a, w).

Definition raise {A} (e : exn) : M A := fun w => (Raise e, w).

Definition bind {A B} (m : M A) (f : A -> M B) : M B :=
  fun w =>
    match m w with
    | (OK a, w') => f a w'
    | (Raise e, w') => (Raise e, w')
    end.

Definition lift {A} (r : result A) : M A := fun w => (r, w).

Notation "x <- m ;; k" := (bind m (fun x => k))
  (at level 100, m at next level, right associativity).
Notation "m ;;; k" := (bind m (fun _ => k))
  (at level 100, right associativity).

(** [if c: m] *)
Definition when (c : bool) (m : M unit) : M unit := if c then m else ret tt.

(** [print(s)] *)
Definition print (s : string) : M unit := fun w => (OK tt, log (EPrint s) w).

(** [warnings.warn(s)] *)
Definition warn (s : string) : M unit := fun w => (OK tt, log (EWarn s) w).

(** Reading the array behind a reference. *)
Definition deref (l : loc) : M ndarray :=
  fun w =>
    match heap w !! l with
    | Some a => (OK a, w)
    | None => (Raise (OutOfModel "dangling array reference"), w)
    end.

(** An operation that returns a new array: the call is recorded and its
    result is stored at a new reference. *)
Definition fresh (fn : string) (args : list arg) (r : result ndarray) : M loc :=
  fun w =>
    let w1 := log (ECall fn args) w in
    match r with
    | OK a => (OK (length (heap w1)),
               {| heap := heap w1 ++ [a]; trace := trace w1 |})
    | Raise e => (Raise e, w1)
    end.

(** An operation that writes into the array at [l] in place. *)
Definition overwrite (fn : string) (args : list arg) (l : loc)
    (r : result ndarray) : M unit :=
  fun w =>
    let w1 := log (ECall fn args) w in
    match r with
    | OK a => (OK tt, {| heap := <[l := a]> (heap w1); trace := trace w1 |})
    | Raise e => (Raise e, w1)
    end.

(** How a Python object is handed to a collaborator. *)
Definition pass (x : pyobj) : M arg :=
  match x with
  | PArr l => a <- deref l ;; ret (AArr a)
  | PInt z => ret (ANum (NInt z))
  | PFloat q => ret (ANum (NFloat q))
  | PBool b => ret (ABool b)
  | _ => ret (AObj x)
  end.

Fixpoint pass_all (xs : list pyobj) : M (list arg) :=
  match xs with
  | [] => ret []
  | x :: r => a <- pass x ;; l <- pass_all r ;; ret (a :: l)
  end.

(** A call of a collaborator: [pre] are Python objects, [post] are
    values computed by [gfft]. *)
Definition call (fn : string) (pre : list pyobj) (post : list arg) : M loc :=
  a <- pass_all pre ;;
  fresh fn (a ++ post) (oracle fn (a ++ post)).

(** ** np.fft.fftshift and ndarray.copy *)

(** [np.roll(l, s)] on one axis: the item at [i] moves to [(i + s) mod n]. *)
Definition roll {A} (s : nat) (l : list A) : list A :=
  drop (length l - s) l ++ take (length l - s) l.

(** The half-length rotation of axis [k]. *)
Fixpoint roll_axis (n : nat) : nat -> tensor n -> tensor n :=
  match n with
  | 0 => fun _ t => t
  | S m => fun k t =>
      match k with
      | 0 => roll (length t / 2) t
      | S k' => map (roll_axis m k') t
      end
  end.

Definition shift_axes (n : nat) (axes : list nat) (t : tensor n) : tensor n :=
  fold_left (fun y k => roll_axis n k y) axes t.

(** [np.fft.fftshift(a, axes)]: [None] shifts every axis; an axis that
    the array does not have raises. *)
Definition fftshift (a : ndarray) (axes : option (list nat)) : result ndarray :=
  match axes with
  | None => OK (mk_ndarray (ndim a) (shift_axes (ndim a) (seq 0 (ndim a)) (body a)))
  | Some l =>
      if forallb (fun k => k <? ndim a) l
      then OK (mk_ndarray (ndim a) (shift_axes (ndim a) l (body a)))
      else Raise (IndexError "tuple index out of range")
  end.

Definition np_fftshift (x : loc) (axes : option (list nat)) : M loc :=
  a <- deref x ;;
  fresh "np.fft.fftshift" [AArr a; AAxes axes] (fftshift a axes).

Definition np_copy (x : loc) : M loc :=
  a <- deref x ;;
  fresh "ndarray.copy" [AArr a] (OK a).

Definition np_fftn (x : loc) (axes : option (list nat)) : M loc :=
  call "np.fft.fftn" [PArr x] [AAxes axes].

Definition np_ifftn (x : loc) (axes : option (list nat)) : M loc :=
  call "np.fft.ifftn" [PArr x] [AAxes axes].

(** [np.array(x, dtype=complex)] *)
Definition np_array_complex (x : loc) : M loc :=
  call "np.array" [PArr x] [].

(** [np.zeros(shape, dtype=complex)] *)
Definition np_zeros (shape : list num) : M loc :=
  call "np.zeros" [] (map ANum shape).

(** [x / y] on arrays *)
Definition np_divide (x y : loc) : M loc :=
  call "ndarray.__truediv__" [PArr x; PArr y] [].

Definition slice_args (sl : list (num * num)) : list arg :=
  flat_map (fun p => [ANum (fst p); ANum (snd p)]) sl.

(** [x[lo:hi, ...]]; the view is taken as an array of its own, which is
    exact as long as nobody writes through it, and [gfft] only divides
    it. *)
Definition np_getslice (x : loc) (sl : list (num * num)) : M loc :=
  call "ndarray.__getitem__" [PArr x] (slice_args sl).

(** [x[lo:hi, ...] = y]: writes into [x] in place. *)
Definition np_setslice (x : loc) (sl : list (num * num)) (y : loc) : M unit :=
  a <- pass_all [PArr x; PArr y] ;;
  overwrite "ndarray.__setitem__" (a ++ slice_args sl) x
    (oracle "ndarray.__setitem__" (a ++ slice_args sl)).

(** ** The request *)

(** The arguments of [gfft], as the caller passes them. *)
Record request : Type := mk_request {
  inp : pyobj;
  in_ax : pyobj;
  out_ax : pyobj;
  ftmachine : pyobj;
  in_zero_center : pyobj;
  out_zero_center : pyobj;
  enforce_hermitian_symmetry : pyobj;
  W : pyobj;
  alpha : pyobj;
  verbose : bool
}.

Definition VERSION : string := "0.2.1".

(** The modes of operation. *)
Inductive mode : Type :=
| MODE_RR   (* regular grid to regular grid *)
| MODE_IR   (* irregular grid to regular grid *)
| MODE_RI   (* regular grid to irregular grid *)
| MODE_II.  (* irregular grid to irregular grid *)

Definition mode_eqb (a b : mode) : bool :=
  match a, b with
  | MODE_RR, MODE_RR | MODE_IR, MODE_IR | MODE_RI, MODE_RI | MODE_II, MODE_II => true
  | _, _ => false
  end.

Definition mode_types (m : mode) : string :=
  match m with
  | MODE_RR => "regular to regular (no gridding)"
  | MODE_IR => "irregular to regular (gridding)"
  | MODE_RI => "regular to irregular (de-gridding)"
  | MODE_II => "irregular to irregular (gridding and degridding)"
  end.

Definition FTM_FFT : string := "fft".
Definition FTM_IFFT : string := "ifft".
Definition FTM_NONE : string := "none".

(** ** Validation of the inputs (gfft.py, lines 147 to 207) *)

(** [validate_iterrable_types(l, t)]: all items of [l] are of type [t]. *)
Definition validate_iterrable_types (l : pyobj) (t : pytype) : bool :=
  forallb (fun x => is_type x t) (items l).

(** [x[i]] where the index is known to be in range. *)
Definition item (x : pyobj) (i : nat) : pyobj := nth i (items x) PNone.

(** [type(x) == tuple and not validate_iterrable_types(x[i], t)]; the
    check before it has made sure that a tuple has two items. *)
Definition bad_tuple_part (x : pyobj) (i : nat) (t : pytype) : bool :=
  is_type x TTuple && negb (validate_iterrable_types (item x i) t).

(** A value that is neither a [t] nor a list of [t]. *)
Definition bad_scalar_or_list (x : pyobj) (t : pytype) : bool :=
  (negb (is_type x t) && negb (is_type x TList))
  || (is_type x TList && negb (validate_iterrable_types x t)).

(** A sequence of [if c: raise e]: the first test that holds raises. *)
Fixpoint first_failure (checks : list (bool * exn)) : result unit :=
  match checks with
  | [] => OK tt
  | (c, e) :: rest => if c then Raise e else first_failure rest
  end.

Definition validate (r : request) : result unit :=
  first_failure
    [ (negb (is_type (inp r) TNdarray),
       TypeError "inp must be a numpy array.");
      (negb (is_type (in_ax r) TList) && negb (is_type (in_ax r) TTuple),
       TypeError "in_ax must be either a list or a tuple.");
      (negb (is_type (out_ax r) TList) && negb (is_type (out_ax r) TTuple),
       TypeError "out_ax must be either a list or a tuple.");
      (is_type (out_ax r) TTuple && is_type (in_ax r) TTuple,
       TypeError "out_ax and in_ax cannot both be tuples");
      (is_type (in_ax r) TTuple
       && (negb (validate_iterrable_types (in_ax r) TList)
           || negb (len (in_ax r) =? 2)),
       TypeError "If in_ax is a tuple, it must contain two lists.");
      (is_type (out_ax r) TTuple
       && (negb (validate_iterrable_types (out_ax r) TList)
           || negb (len (out_ax r) =? 2)),
       TypeError "If out_ax is a tuple, it must contain two lists.");
      (bad_tuple_part (in_ax r) 0 TNdarray,
       TypeError "If in_ax is a tuple, it must contain two lists, the first of which is a list of arrays.");
      (bad_tuple_part (in_ax r) 1 TTuple,
       TypeError "If in_ax is a tuple, it must contain two lists, the second of which is a list of tuples.");
      (bad_tuple_part (out_ax r) 0 TNdarray,
       TypeError "If out_ax is a tuple, it must contain two lists, the first of which is a list of arrays.");
      (bad_tuple_part (out_ax r) 1 TTuple,
       TypeError "If out_ax is a tuple, it must contain two lists, the second of which is a list of tuples.");
      (negb (is_type (W r) TInt),
       TypeError "W must be an integer.");
      (negb (is_type (alpha r) TFloat) && negb (is_type (alpha r) TInt),
       TypeError "alpha must be a float or int.");
      (bad_scalar_or_list (ftmachine r) TStr,
       TypeError "ftmachine must be a string or a list of strings.");
      (bad_scalar_or_list (in_zero_center r) TBool,
       TypeError "in_zero_center must be a Bool or list of Bools.");
      (bad_scalar_or_list (out_zero_center r) TBool,
       TypeError "out_zero_center must be a Bool or list of Bools.");
      (bad_scalar_or_list (enforce_hermitian_symmetry r) TBool,
       TypeError "enforce_hermitian_symmetry must be a Bool or list of Bools.") ].

(** ** Mode and number of dimensions (lines 214 to 260) *)

(** The reference behind an object that [validate] has found to be an
    array. *)
Definition array_ref (x : pyobj) : M loc :=
  match x with
  | PArr l => ret l
  | _ => raise (OutOfModel "not an array")
  end.

Definition warn_out_ax_ignored : string :=
  "in_ax is empty, indicating regular to regular transformation is requested, but out_ax is not empty. Ignoring out_ax and proceeding with regular to regular mode.".

(** The [if]/[elif]/[else] that sets [mode] and [N].  Every branch sets
    [mode], so the source's initial value -1 never survives it. *)
Definition classify (r : request) : M (mode * nat) :=
  if len (in_ax r) =? 0 then
    l <- array_ref (inp r) ;;
    a <- deref l ;;
    when (negb (len (out_ax r) =? 0)) (warn warn_out_ax_ignored) ;;;
    ret (MODE_RR, ndim a)
  else if is_type (in_ax r) TTuple || is_type (out_ax r) TTuple then
    if is_type (out_ax r) TTuple then
      when (negb (len (out_ax r) =? 2))
        (raise (TypeError "Invalid out_ax for irregular to irregular mode.")) ;;;
      ret (MODE_II, len (in_ax r))
    else
      when (negb (len (in_ax r) =? 2))
        (raise (TypeError "Invalid in_ax for irregular to irregular mode.")) ;;;
      ret (MODE_II, len (out_ax r))
  else
    x0 <- lift (subscript (in_ax r) 0) ;;
    when (negb (len (out_ax r) =? len (in_ax r)))
      (raise (TypeError
        "For regular to irregular mode, len(in_ax) must equal len(out_ax).")) ;;;
    ret (if is_type x0 TTuple then MODE_RI else MODE_IR, len (in_ax r)).

Definition select_mode (r : request) : M (mode * nat) :=
  mN <- classify r ;;
  when (snd mN =? 0)
    (raise (Exception "Something went wrong in setting the mode and dimensionality.")) ;;;
  when ((3 <? snd mN) && negb (mode_eqb (fst mN) MODE_RR))
    (raise (Exception
      "Gridding has been requested for an unsupported number of dimensions!")) ;;;
  when (verbose r)
    (print ("Requested mode = " ++ mode_types (fst mN))%string ;;;
     print ("Number of dimensions = " ++ str_nat (snd mN))%string) ;;;
  ret mN.

(** ** Which axes are transformed (lines 266 to 298) *)

(** An axis list of the source: [None] stands for every axis. *)
Definition axes_t : Type := option (list nat).

(** [axes += [i]] *)
Definition add_axis (axes : axes_t) (i : nat) : axes_t :=
  option_map (fun l => l ++ [i]) axes.

(** [axes == []] *)
Definition is_empty_list (axes : axes_t) : bool :=
  match axes with
  | Some [] => true
  | _ => false
  end.

(** [axes.count(i) > 0], asked of a list only. *)
Definition counts (axes : axes_t) (i : nat) : bool :=
  match axes with
  | Some l => 0 <? count_occ Nat.eq_dec l i
  | None => false
  end.

(** The string behind an object that [validate] has found to be a [str]. *)
Definition as_str (x : pyobj) : string :=
  match x with
  | PStr s => s
  | _ => ""
  end.

(** Truth value of an object ([if x:]). *)
Definition truthy (x : pyobj) : bool :=
  match x with
  | PNone => false
  | PBool b => b
  | PInt z => negb (z =? 0)%Z
  | PFloat q => negb (Qnum q =? 0)%Z
  | PStr s => negb (String.eqb s "")
  | PArr _ => true
  | PList xs | PTuple xs => negb (length xs =? 0)
  end.

(** [for i in range(len(l))]: the items of [l] with their indices. *)
Definition enumerate (l : pyobj) : list (nat * pyobj) :=
  combine (seq 0 (len l)) (items l).

Record directions : Type := mk_directions {
  d_do_fft : bool;
  d_do_ifft : bool;
  d_fftaxes : axes_t;
  d_ifftaxes : axes_t
}.

Definition ftmachine_step (d : directions) (ix : nat * pyobj) : directions :=
  if String.eqb (lower (as_str (snd ix))) FTM_FFT then
    mk_directions true (d_do_ifft d) (add_axis (d_fftaxes d) (fst ix)) (d_ifftaxes d)
  else if String.eqb (lower (as_str (snd ix))) FTM_IFFT then
    mk_directions (d_do_fft d) true (d_fftaxes d) (add_axis (d_ifftaxes d) (fst ix))
  else d.

Definition resolve_ftmachine (ftm : pyobj) (N : nat) : result directions :=
  let d0 := mk_directions false false (Some []) (Some []) in
  if is_type ftm TStr then
    if String.eqb (lower (as_str ftm)) FTM_FFT then
      OK (mk_directions true false None (Some []))
    else if String.eqb (lower (as_str ftm)) FTM_IFFT then
      OK (mk_directions false true (Some []) None)
    else OK d0
  else if is_type ftm TList then
    if negb (len ftm =? N)
    then Raise (Exception "ftmachine is a list with invalid length")
    else OK (fold_left ftmachine_step (enumerate ftm) d0)
  else OK d0.

(** No transformation is requested on any axis (line 293). *)
Definition nothing_requested (d : directions) : bool :=
  (negb (d_do_fft d) && negb (d_do_ifft d))
  || (is_empty_list (d_fftaxes d) && is_empty_list (d_ifftaxes d)).

(** ** Which axes are shifted (lines 303 to 333) *)

Definition shift_step (st : bool * axes_t) (ix : nat * pyobj) : bool * axes_t :=
  if truthy (snd ix) then (true, add_axis (snd st) (fst ix)) else st.

Definition resolve_shift (zc : pyobj) (N : nat) (msg : string)
    : result (bool * axes_t) :=
  if is_type zc TBool then
    if truthy zc then OK (true, None) else OK (false, Some [])
  else if is_type zc TList then
    if negb (len zc =? N) then Raise (Exception msg)
    else OK (fold_left shift_step (enumerate zc) (false, Some []))
  else OK (false, Some []).

(** ** Which axes are hermitianized (lines 338 to 361) *)

Definition hermitian_list (h : pyobj) (N : nat) : result (list bool) :=
  if is_type h TBool then
    OK (if truthy h then repeat true N else repeat false N)
  else if is_type h TList then
    if negb (len h =? N)
    then Raise (Exception "enforce_hermitian_symmetry is a list with invalid length")
    else OK (map truthy (items h))
  else OK [].

Definition resolve_hermitian (h : pyobj) (N : nat) : result (list bool) :=
  match hermitian_list h N with
  | Raise e => Raise e
  | OK axes =>
      if negb (length axes =? N)
      then Raise (Exception
             "Something went wrong when setting up the hermitianized_axes list!")
      else OK axes
  end.

(** ** The resolved configuration *)

Record config : Type := mk_config {
  c_mode : mode;
  c_N : nat;
  do_fft : bool;
  do_ifft : bool;
  fftaxes : axes_t;
  ifftaxes : axes_t;
  do_preshift : bool;
  preshift_axes : axes_t;
  do_postshift : bool;
  postshift_axes : axes_t;
  hermitianized_axes : list bool
}.

(** ** The operation summary (lines 366 to 398) *)

Definition flag (axes : axes_t) (i : nat) : string :=
  if match axes with None => true | Some _ => counts axes i end
  then "True, " else "False, ".

(** [pstr] as the loop leaves it: the line of the last axis. *)
Definition summary_line (c : config) : string :=
  let i := c_N c - 1 in
  (str_nat (c_N c) ++ ", "
    ++ flag (fftaxes c) i ++ flag (ifftaxes c) i
    ++ flag (preshift_axes c) i ++ flag (postshift_axes c) i
    ++ (if nth i (hermitianized_axes c) false then "True" else "False"))%string.

Definition print_summary (c : config) : M unit :=
  print "" ;;;
  print "Axis#, FFT, IFFT, ZCIN, ZCOUT, HERM" ;;;
  print (summary_line c).

(** ** Everything before the transform (lines 122 to 398) *)

Definition warn_shift_only : string :=
  "No Fourier transformation requested, only shifting will be performed!".

Definition setup (r : request) : M config :=
  when (verbose r) (print ("gfft v. " ++ VERSION)%string) ;;;
  lift (validate r) ;;;
  mN <- select_mode r ;;
  d <- lift (resolve_ftmachine (ftmachine r) (snd mN)) ;;
  when (nothing_requested d) (warn warn_shift_only) ;;;
  pre <- lift (resolve_shift (in_zero_center r) (snd mN)
                 "in_zero_center is a list with invalid length") ;;
  post <- lift (resolve_shift (out_zero_center r) (snd mN)
                  "out_zero_center is a list with invalid length") ;;
  herm <- lift (resolve_hermitian (enforce_hermitian_symmetry r) (snd mN)) ;;
  let c := mk_config (if nothing_requested d then MODE_RR else fst mN) (snd mN)
             (d_do_fft d) (d_do_ifft d) (d_fftaxes d) (d_ifftaxes d)
             (fst pre) (snd pre) (fst post) (snd post) herm in
  when (verbose r) (print_summary c) ;;;
  ret c.

(** ** Shift, transform, shift

    The same four statements in every mode (lines 404 to 416, 540 to 553,
    784 to 798 and 1101 to 1115). *)

Definition transform (c : config) (x : loc) : M loc :=
  x1 <- (if do_preshift c then np_fftshift x (preshift_axes c) else ret x) ;;
  out <- (if do_fft c then np_fftn x1 (fftaxes c) else np_copy x1) ;;
  out <- (if do_ifft c then np_ifftn out (ifftaxes c) else ret out) ;;
  (if do_postshift c then np_fftshift out (postshift_axes c) else ret out).

(** One optional shift, on the array itself:
    [if flag: x = np.fft.fftshift(x, axes)]. *)
Definition shifted (flag : bool) (axes : axes_t) (a : ndarray) : result ndarray :=
  if flag then fftshift a axes else OK a.

Definition done (r : request) : M unit :=
  when (verbose r) (print "Done!" ;;; print "").

(** ** MODE_RR (lines 403 to 422) *)

Definition mode_rr (r : request) (c : config) (x : loc) : M loc :=
  out <- transform c x ;;
  done r ;;;
  ret out.

(** ** The working grid of one axis

    The source names the quantities of the three axes [dx Nx xmin du Nu
    umin], [dy Ny ymin dv Nv vmin] and [dz Nz zmin dw Nw wmin]; one
    record serves every axis. *)

Record axis_plan : Type := mk_axis {
  dx : num;     (* pixel size of the regular grid *)
  Nx : num;     (* pixel count of the regular grid *)
  xmin : num;   (* origin of the regular grid *)
  du : num;     (* pixel size of the working grid *)
  Nu : num;     (* pixel count of the working grid *)
  umin : num    (* origin of the working grid *)
}.

Fixpoint mapM {A B} (f : A -> M B) (l : list A) : M (list B) :=
  match l with
  | [] => ret []
  | a :: r => b <- f a ;; bs <- mapM f r ;; ret (b :: bs)
  end.

(** [dx = spec[k][0]; Nx = spec[k][1]] *)
Definition read_spec (spec : pyobj) (k : nat) : M (num * num) :=
  e <- lift (subscript spec k) ;;
  d <- lift (subscript e 0) ;;
  d <- lift (to_num d) ;;
  n <- lift (subscript e 1) ;;
  n <- lift (to_num n) ;;
  ret (d, n).

(** [1./dx/Nx/alpha] *)
Definition pixel_size (d n a : num) : M num :=
  q <- lift (Num.div Num.one_f d) ;;
  q <- lift (Num.div q n) ;;
  lift (Num.div q a).

(** [-0.5*Nx*dx] *)
Definition origin (n d : num) : num := Num.mul (Num.mul Num.neg_half n) d.

(** The three ways the source sizes a working grid. *)
Inductive sizing : Type :=
| IntAlphaN    (* int(alpha*Nx) *)
| IntNAlpha    (* int(Nx*alpha) *)
| AlphaN.      (* alpha*Nx *)

Definition working_size (s : sizing) (a n : num) : num :=
  match s with
  | IntAlphaN => Num.int (Num.mul a n)
  | IntNAlpha => Num.int (Num.mul n a)
  | AlphaN => Num.mul a n
  end.

(** Whether axis [k] is shifted.  With one axis the source tests the
    flag alone; with two or three it tests the flag, then [axes == None]
    and [axes.count(k) > 0]. *)
Definition on_axis (N : nat) (flag : bool) (axes : axes_t) (k : nat) : bool :=
  if N =? 1 then flag
  else flag && match axes with None => true | Some _ => counts axes k end.

(** The grid basics of axis [k]: [x_on] tells whether the regular grid
    is zero-centred, [u_on] whether the working grid is. *)
Definition plan_axis (spec : pyobj) (a : num) (s : sizing)
    (x_on u_on : nat -> bool) (k : nat) : M axis_plan :=
  dn <- read_spec spec k ;;
  u <- pixel_size (fst dn) (snd dn) a ;;
  let n := working_size s a (snd dn) in
  ret (mk_axis (fst dn) (snd dn)
         (if x_on k then origin (snd dn) (fst dn) else Num.zero_f)
         u n
         (if u_on k then origin n u else Num.zero_f)).

(** [int(0.5*Nx*(alpha-1))] *)
Definition tndx (a : num) (p : axis_plan) : num :=
  Num.int (Num.mul (Num.mul Num.half (Nx p)) (Num.sub a (NInt 1))).

(** [du, Nu, umin, dv, Nv, vmin, ...] *)
Definition working_grid_args (ps : list axis_plan) : list arg :=
  flat_map (fun p => [ANum (du p); ANum (Nu p); ANum (umin p)]) ps.

(** [dx, Nx, xmin, dy, Ny, ymin, ...] *)
Definition regular_grid_args (ps : list axis_plan) : list arg :=
  flat_map (fun p => [ANum (dx p); ANum (Nx p); ANum (xmin p)]) ps.

(** [hermitianized_axes[0], hermitianized_axes[1], ...] *)
Definition hermitian_args (c : config) : list arg :=
  map (fun k => ABool (nth k (hermitianized_axes c) false)) (seq 0 (c_N c)).

(** [ax[0], ax[1], ...] *)
Definition axis_objects (ax : pyobj) (N : nat) : M (list pyobj) :=
  mapM (fun k => lift (subscript ax k)) (seq 0 N).

(** The name of a function of the gridding module for [N] axes. *)
Definition gridding_fn (base : string) (N : nat) : string :=
  ("gridding." ++ base ++ "_" ++ str_nat N ++ "d")%string.

(** Unreachable in a gridding mode, where [N] is 1, 2 or 3. *)
Definition no_branch {A} : M A :=
  raise (OutOfModel "no branch for this number of dimensions").

Definition supported (N : nat) : bool := (1 <=? N) && (N <=? 3).

(** [gridding.get_grid_corr_Nd(dx, Nx, xmin, ..., du, ..., W, alpha)] *)
Definition get_grid_corr (N : nat) (ps : list axis_plan) (w a : num) : M loc :=
  call (gridding_fn "get_grid_corr" N) []
    (regular_grid_args ps ++ map (fun p => ANum (du p)) ps ++ [ANum w; ANum a]).

(** ** MODE_IR (lines 427 to 613) *)

(** The lower end of the crop of axis [k]. *)
Definition crop_from (c : config) (a : num) (k : nat) (p : axis_plan) : num :=
  if on_axis (c_N c) (do_postshift c) (postshift_axes c) k then tndx a p else NInt 0.

(** The slice of axis [k]: [tndxx:tndxx+Nx] or [0:Nx] with one axis,
    [int(xl):int(xl+Nx)] with two, [xl:xl+Nx] with three. *)
Definition crop_slice (c : config) (a : num) (k : nat) (p : axis_plan) : num * num :=
  let xl := crop_from c a k p in
  match c_N c with
  | 1 => if do_postshift c then (tndx a p, Num.add (tndx a p) (Nx p))
         else (NInt 0, Nx p)
  | 2 => (Num.int xl, Num.int (Num.add xl (Nx p)))
  | _ => (xl, Num.add xl (Nx p))
  end.

Definition mode_ir (r : request) (c : config) (x : loc) : M loc :=
  let N := c_N c in
  x <- np_array_complex x ;;
  a <- lift (to_num (alpha r)) ;;
  w <- lift (to_num (W r)) ;;
  (if supported N then ret tt else no_branch) ;;;
  ps <- mapM (plan_axis (out_ax r) a IntAlphaN
                (on_axis N (do_postshift c) (postshift_axes c))
                (on_axis N (do_preshift c) (preshift_axes c)))
          (seq 0 N) ;;
  coords <- axis_objects (in_ax r) N ;;
  inp_grid <- call (gridding_fn "grid" N) (coords ++ [PArr x])
                (working_grid_args ps ++ [ANum a; ANum w] ++ hermitian_args c) ;;
  out <- transform c inp_grid ;;
  out <- np_getslice out (map (fun kp => crop_slice c a (fst kp) (snd kp))
                            (combine (seq 0 N) ps)) ;;
  gc <- get_grid_corr N ps w a ;;
  done r ;;;
  np_divide out gc.

(** ** MODE_RI (lines 618 to 817) *)

(** The slice of axis [k] that receives the input: [xl:xl+Nx]. *)
Definition pad_slice (c : config) (a : num) (k : nat) (p : axis_plan) : num * num :=
  let xl := if on_axis (c_N c) (do_preshift c) (preshift_axes c) k
            then tndx a p else NInt 0 in
  (xl, Num.add xl (Nx p)).

Definition mode_ri (r : request) (c : config) (x : loc) : M loc :=
  let N := c_N c in
  x <- np_array_complex x ;;
  a <- lift (to_num (alpha r)) ;;
  w <- lift (to_num (W r)) ;;
  (if supported N then ret tt else no_branch) ;;;
  ps <- mapM (plan_axis (in_ax r) a IntAlphaN
                (on_axis N (do_preshift c) (preshift_axes c))
                (on_axis N (do_postshift c) (postshift_axes c)))
          (seq 0 N) ;;
  gc <- get_grid_corr N ps w a ;;
  x <- np_divide x gc ;;
  inp_oversam <- np_zeros (map Nu ps) ;;
  np_setslice inp_oversam
    (map (fun kp => pad_slice c a (fst kp) (snd kp)) (combine (seq 0 N) ps)) x ;;;
  out <- transform c inp_oversam ;;
  coords <- axis_objects (out_ax r) N ;;
  out_degrid <- call (gridding_fn "degrid" N) (coords ++ [PArr out])
                  (working_grid_args ps ++ [ANum a; ANum w]) ;;
  done r ;;;
  ret out_degrid.

(** ** MODE_II (lines 822 to 1154) *)

(** How the working grid of axis [k] is sized when the grid is defined
    on [out_ax]: [int(Nx*alpha)] with one axis; with two or three axes
    [int(alpha*Nx)] on the first and [alpha*Ny], [alpha*Nz] on the
    others. *)
Definition ii_sizing (N k : nat) : sizing :=
  if N =? 1 then IntNAlpha
  else if k =? 0 then IntAlphaN else AlphaN.

Definition ii_plan_axis (r : request) (c : config) (a : num) (k : nat) : M axis_plan :=
  let N := c_N c in
  spec <- lift (subscript (out_ax r) 1) ;;
  plan_axis spec a (ii_sizing N k)
    (on_axis N (do_postshift c) (postshift_axes c))
    (on_axis N (do_preshift c) (preshift_axes c)) k.

(** The two gridding parameters as [grid_Nd] receives them: [alpha, W]
    with one axis, [W, alpha] with two or three (lines 1021, 1025 and
    1029). *)
Definition ii_grid_parameters (N : nat) (a w : num) : list arg :=
  if N =? 1 then [ANum a; ANum w] else [ANum w; ANum a].

(** [ul:ul+Nu], where [ul] is [0] or [0.5*Nu*(alpha-1.)]. *)
Definition ii_pad_slice (c : config) (a : num) (k : nat) (p : axis_plan) : num * num :=
  let ul := if on_axis (c_N c) (do_preshift c) (preshift_axes c) k
            then Num.mul (Num.mul Num.half (Nu p)) (Num.sub a Num.one_f)
            else NInt 0 in
  (ul, Num.add ul (Nu p)).

(** The grid on which the transform is sampled: [dx/alpha],
    [alpha**2*Nx], [alpha*xmin]. *)
Definition ii_fine_axis (a : num) (p : axis_plan) : M (list arg) :=
  d <- lift (Num.div (dx p) a) ;;
  ret [ANum d; ANum (Num.mul (Num.square a) (Nx p)); ANum (Num.mul a (xmin p))].

Definition mode_ii (r : request) (c : config) (x : loc) : M loc :=
  let N := c_N c in
  (if is_type (in_ax r) TTuple
   then raise (Exception "Defining grid on in_ax in MODE_II not yet supported...")
   else ret tt) ;;;
  a <- lift (to_num (alpha r)) ;;
  w <- lift (to_num (W r)) ;;
  (if supported N then ret tt else no_branch) ;;;
  ps <- mapM (ii_plan_axis r c a) (seq 0 N) ;;
  out_ax' <- lift (subscript (out_ax r) 0) ;;
  x <- np_array_complex x ;;
  (* grid *)
  coords <- axis_objects (in_ax r) N ;;
  inp_grid <- call (gridding_fn "grid" N) (coords ++ [PArr x])
                (working_grid_args ps ++ ii_grid_parameters N a w
                   ++ hermitian_args c) ;;
  (* degrid correct *)
  coarse <- mapM (fun p => lift (Num.div (dx p) a)) ps ;;
  gc <- call (gridding_fn "get_grid_corr" N) []
          (working_grid_args ps ++ map ANum coarse ++ [ANum w; ANum a]) ;;
  inp_grid <- np_divide inp_grid gc ;;
  inp_grid_os <- np_zeros (map (fun p => Num.mul (Nu p) a) ps) ;;
  np_setslice inp_grid_os
    (map (fun kp => ii_pad_slice c a (fst kp) (snd kp)) (combine (seq 0 N) ps))
    inp_grid ;;;
  out <- transform c inp_grid_os ;;
  (* grid correct *)
  fine <- mapM (ii_fine_axis a) ps ;;
  gc <- call (gridding_fn "get_grid_corr" N) []
          (concat fine ++ map (fun p => ANum (du p)) ps ++ [ANum w; ANum a]) ;;
  out <- np_divide out gc ;;
  (* degrid *)
  coords <- axis_objects out_ax' N ;;
  fine <- mapM (ii_fine_axis a) ps ;;
  out_degrid <- call (gridding_fn "degrid" N) (coords ++ [PArr out])
                  (concat fine ++ [ANum a; ANum w]) ;;
  done r ;;;
  ret out_degrid.

(** ** gfft *)

Definition gfft (r : request) : M loc :=
  c <- setup r ;;
  x <- array_ref (inp r) ;;
  match c_mode c with
  | MODE_RR => mode_rr r c x
  | MODE_IR => mode_ir r c x
  | MODE_RI => mode_ri r c x
  | MODE_II => mode_ii r c x
  end.

Definition run {A} (m : M A) (w : world) : result A * world := m w.

(** ** What a call may do to the store and to the trace *)

(** The call keeps the first [n] arrays of the store as they are, and
    what it returns satisfies [Q]. *)
Definition framed {A} (n : nat) (m : M A) (Q : A -> Prop) : Prop :=
  forall w : world, n <= length (heap w) ->
    (n <= length (heap (snd (m w)))
     /\ forall l, l < n -> heap (snd (m w)) !! l = heap w !! l)
    /\ forall a, fst (m w) = OK a -> Q a.

Definition diagnostic (e : event) : bool :=
  match e with
  | EPrint _ | EWarn _ => true
  | ECall _ _ => false
  end.

(** The call leaves the store alone and asks nothing of a collaborator:
    it only prints and warns. *)
Definition quiet {A} (m : M A) : Prop :=
  forall w : world,
    heap (snd (m w)) = heap w
    /\ exists evs, trace (snd (m w)) = trace w ++ evs
                   /\ forallb diagnostic evs = true.

(** The result and the store after the call depend on the store before
    it and on nothing else: not on what earlier calls have printed. *)
Definition stateless {A} (m : M A) : Prop :=
  forall w w' : world, heap w = heap w' ->
    fst (m w) = fst (m w') /\ heap (snd (m w)) = heap (snd (m w')).

(** Every axis of the array has even length. *)
Fixpoint all_even (n : nat) : tensor n -> bool :=
  match n with
  | 0 => fun _ => true
  | S m => fun t => Nat.even (length t) && forallb (all_even m) t
  end.

(** The arguments of the first call of [gridding.grid_Nd] in a trace. *)
Fixpoint grid_call (N : nat) (t : list event) : option (list arg) :=
  match t with
  | [] => None
  | ECall fn args :: r =>
      if String.eqb fn (gridding_fn "grid" N) then Some args else grid_call N r
  | _ :: r => grid_call N r
  end.

End Gfft.

Arguments mk_ndarray {E}.
Arguments ndim {E}.
Arguments body {E}.
Arguments AArr {E}.
Arguments ANum {E}.
Arguments ABool {E}.
Arguments AAxes {E}.
Arguments AObj {E}.
Arguments EPrint {E}.
Arguments EWarn {E}.
Arguments ECall {E}.
Arguments mk_world {E}.
Arguments heap {E}.
Arguments trace {E}.
Arguments log {E}.
Arguments ret {E A}.
Arguments raise {E A}.
Arguments bind {E A B}.
Arguments lift {E A}.
Arguments when {E}.
Arguments print {E}.
Arguments warn {E}.
Arguments deref {E}.
Arguments fresh {E}.
Arguments overwrite {E}.
Arguments pass {E}.
Arguments pass_all {E}.
Arguments call {E}.
Arguments roll_axis {E}.
Arguments shift_axes {E}.
Arguments fftshift {E}.
Arguments shifted {E}.
Arguments np_fftshift {E}.
Arguments np_copy {E}.
Arguments np_fftn {E}.
Arguments np_ifftn {E}.
Arguments np_array_complex {E}.
Arguments np_zeros {E}.
Arguments np_divide {E}.
Arguments slice_args {E}.
Arguments np_getslice {E}.
Arguments np_setslice {E}.
Arguments array_ref {E}.
Arguments classify {E}.
Arguments select_mode {E}.
Arguments print_summary {E}.
Arguments setup {E}.
Arguments transform {E}.
Arguments done {E}.
Arguments mode_rr {E}.
Arguments mapM {E A B}.
Arguments read_spec {E}.
Arguments pixel_size {E}.
Arguments plan_axis {E}.
Arguments working_grid_args {E}.
Arguments regular_grid_args {E}.
Arguments hermitian_args {E}.
Arguments axis_objects {E}.
Arguments no_branch {E A}.
Arguments get_grid_corr {E}.
Arguments mode_ir {E}.
Arguments mode_ri {E}.
Arguments ii_plan_axis {E}.
Arguments ii_grid_parameters {E}.
Arguments ii_fine_axis {E}.
Arguments mode_ii {E}.
Arguments gfft {E}.
Arguments run {E A}.
Arguments framed {E A}.
Arguments diagnostic {E}.
Arguments quiet {E A}.
Arguments stateless {E A}.
Arguments all_even {E}.
Arguments grid_call {E}.

(** ** Vocabulary of the statements *)

(** The configuration that [setup] resolves once the mode and the number
    of dimensions are known, without the printing. *)
Definition resolve_config (r : request) (mN : mode * nat) : result config :=
  match resolve_ftmachine (ftmachine r) (snd mN) with
  | Raise e => Raise e
  | OK d =>
      match resolve_shift (in_zero_center r) (snd mN)
              "in_zero_center is a list with invalid length" with
      | Raise e => Raise e
      | OK pre =>
          match resolve_shift (out_zero_center r) (snd mN)
                  "out_zero_center is a list with invalid length" with
          | Raise e => Raise e
          | OK post =>
              match resolve_hermitian (enforce_hermitian_symmetry r) (snd mN) with
              | Raise e => Raise e
              | OK herm =>
                  OK (mk_config (if nothing_requested d then MODE_RR else fst mN)
                        (snd mN)
                        (d_do_fft d) (d_do_ifft d) (d_fftaxes d) (d_ifftaxes d)
                        (fst pre) (snd pre) (fst post) (snd post) herm)
              end
          end
      end
  end.

(** The two checks of [select_mode] on what [classify] found. *)
Definition check_dimensions (mN : mode * nat) : result (mode * nat) :=
  if snd mN =? 0
  then Raise (Exception "Something went wrong in setting the mode and dimensionality.")
  else if (3 <? snd mN) && negb (mode_eqb (fst mN) MODE_RR)
  then Raise (Exception
         "Gridding has been requested for an unsupported number of dimensions!")
  else OK mN.

(** The entry names a transformation: it reads [fft] or [ifft] in any
    case of letters. *)
Definition names_transform (x : pyobj) : bool :=
  String.eqb (lower (as_str x)) FTM_FFT || String.eqb (lower (as_str x)) FTM_IFFT.

(** No transformation is requested on any axis. *)
Definition no_direction (ftm : pyobj) : bool :=
  match ftm with
  | PList l => forallb (fun x => negb (names_transform x)) l
  | _ => negb (names_transform ftm)
  end.

(** The per-axis list of [N] flags that marks axis [k] and no other. *)
Definition one_axis (N k : nat) : pyobj :=
  PList (map (fun i => PBool (i =? k)) (seq 0 N)).

(** Zero-centring is requested on no axis: [False], or [N] times [False]. *)
Definition no_axis (N : nat) (zc : pyobj) : Prop :=
  zc = PBool false \/ zc = PList (repeat (PBool false) N).

(** Zero-centring is requested on every axis: [True], or [N] times [True]. *)
Definition every_axis (N : nat) (zc : pyobj) : Prop :=
  zc = PBool true \/ zc = PList (repeat (PBool true) N).

(** An explicit list whose length differs from [N]. *)
Definition wrong_length (N : nat) (x : pyobj) : bool :=
  is_type x TList && negb (len x =? N).

(** The messages of the four length checks. *)
Definition length_messages : list string :=
  [ "ftmachine is a list with invalid length";
    "in_zero_center is a list with invalid length";
    "out_zero_center is a list with invalid length";
    "enforce_hermitian_symmetry is a list with invalid length" ].

Definition unsupported_dimensions : string :=
  "Gridding has been requested for an unsupported number of dimensions!".

Definition in_ax_grid_unsupported : string :=
  "Defining grid on in_ax in MODE_II not yet supported...".

(** What a call added to the trace is diagnostic output only. *)
Definition only_diagnostics {E} (w w' : world E) : Prop :=
  exists evs, trace w' = trace w ++ evs /\ forallb diagnostic evs = true.

(** ** Sample requests

    Arrays of integers stand for the sampled fields; the collaborators are
    replaced by one that answers every call with an empty array, which is
    enough to observe what [gfft] asks of them. *)

Module Sample.

Definition collaborator : string -> list (arg Z) -> result (ndarray Z) :=
  fun _ _ => OK (mk_ndarray 1 ([] : tensor Z 1)).

(** Four samples on a line. *)
Definition line : ndarray Z := mk_ndarray 1 ([1; 2; 3; 4]%Z : tensor Z 1).

(** A regular field of 2 by 4 pixels. *)
Definition field : ndarray Z :=
  mk_ndarray 2 ([[1; 2; 3; 4]; [5; 6; 7; 8]]%Z : tensor Z 2).

(** A regular field of 2 by 3 pixels. *)
Definition odd_field : ndarray Z :=
  mk_ndarray 2 ([[1; 2; 3]; [4; 5; 6]]%Z : tensor Z 2).

Definition store : world Z := mk_world [line; field; odd_field] [].

Definition defaults (x i o f : pyobj) : request :=
  mk_request x i o f (PBool true) (PBool true) (PBool false)
    (PInt 6) (PFloat (3 # 2)) false.

(** Grid of 4 by 3 pixels of size 1. *)
Definition grid_4x3 : list pyobj :=
  [PTuple [PFloat 1; PInt 4]; PTuple [PFloat 1; PInt 3]].

Definition coords2 : list pyobj := [PArr 0; PArr 0].

(** Irregular to regular, two axes. *)
Definition ir_2d : request :=
  defaults (PArr 0) (PList coords2) (PList grid_4x3) (PStr "fft").

(** Irregular to irregular, two axes, the grid given with [out_ax]. *)
Definition ii_2d : request :=
  defaults (PArr 0) (PList coords2) (PTuple [PList coords2; PList grid_4x3])
    (PStr "fft").

(** Irregular to irregular, two axes, the grid given with [in_ax]. *)
Definition ii_2d_in : request :=
  defaults (PArr 0) (PTuple [PList coords2; PList grid_4x3]) (PList coords2)
    (PStr "fft").

(** Irregular to regular with four axes. *)
Definition ir_4d : request :=
  defaults (PArr 0) (PList (repeat (PArr 0) 4))
    (PList (repeat (PTuple [PFloat 1; PInt 4]) 4)) (PStr "fft").

(** Irregular to regular on one axis, [in_zero_center] with two entries. *)
Definition ir_1d_two_flags : request :=
  mk_request (PArr 0) (PList [PArr 0]) (PList [PTuple [PFloat 1; PInt 4]])
    (PStr "fft") (PList [PBool true; PBool false]) (PBool true) (PBool false)
    (PInt 6) (PFloat (3 # 2)) false.

(** Regular to regular with an [out_ax] that is not empty. *)
Definition rr_with_out_ax : request :=
  defaults (PArr 1) (PList []) (PList grid_4x3) (PStr "fft").

(** No transformation, zero-centring of the second axis of the input. *)
Definition shift_second_axis : request :=
  mk_request (PArr 2) (PList []) (PList []) (PStr "none")
    (one_axis 2 1) (PBool false) (PBool false)
    (PInt 6) (PFloat (3 # 2)) false.

(** No transformation, zero-centring of every axis on both sides. *)
Definition shift_there_and_back : request :=
  mk_request (PArr 1) (PList []) (PList []) (PStr "none")
    (PBool true) (PBool true) (PBool false)
    (PInt 6) (PFloat (3 # 2)) false.

End Sample.

(** ** The brute-force transforms (gfft.py, lines 1172 to 1242)

    [dft] and [idft] sum over every pair of an input and an output point.
    Samples are complex numbers over the reals, coordinates are reals. *)

Module Oracle.

#[local] Open Scope R_scope.

Definition C : Type := (R * R)%type.

Definition C0 : C := (0, 0).
Definition Cadd (x y : C) : C := (fst x + fst y, snd x + snd y).
Definition Cmul (x y : C) : C :=
  (fst x * fst y - snd x * snd y, fst x * snd y + snd x * fst y).
Definition Cconj (x : C) : C := (fst x, - snd x).

(** [x / n] for an int [n]. *)
Definition Cdiv_nat (x : C) (n : nat) : C := (fst x / INR n, snd x / INR n).

(** [a[k][j]] *)
Definition at2 (a : list (list R)) (k j : nat) : R := nth j (nth k a []) 0.

(** The loop that checks the lengths of the axes. *)
Fixpoint check_axes (nin nout : nat) (axes : list (list R * list R)) : result unit :=
  match axes with
  | [] => OK tt
  | (i_ax, o_ax) :: r =>
      if negb (length i_ax =? nin)%nat
      then Raise (Exception "dft: input axis length invalid")
      else if negb (length o_ax =? nout)%nat
      then Raise (Exception "dft: output axis length invalid")
      else check_axes nin nout r
  end.

(** [psum], the inner loop over the axes. *)
Definition psum (in_ax out_ax : list (list R)) (i j : nat) : R :=
  fold_left (fun p k => p + at2 in_ax k j * at2 out_ax k i)
    (seq 0 (length in_ax)) 0.

Definition dft (in_vals : list C) (in_ax out_ax : list (list R)) : result (list C) :=
  let nax := length in_ax in
  if negb (length out_ax =? length in_ax)%nat
  then Raise (Exception "dft: number of input and output dimensions not equal!")
  else
    let nin := length in_vals in
    match out_ax with
    | [] => Raise (IndexError "list index out of range")
    | out0 :: _ =>
        let nout := length out0 in
        match check_axes nin nout (combine in_ax out_ax) with
        | Raise e => Raise e
        | OK _ =>
            let out_vals :=
              map (fun i =>
                     fold_left
                       (fun val j =>
                          let cphs := -2 * PI * psum in_ax out_ax i j in
                          Cadd val (Cmul (nth j in_vals C0) (cos cphs, sin cphs)))
                       (seq 0 nin) C0)
                  (seq 0 nout) in
            OK (map (fun v => Cdiv_nat v (length in_vals)) out_vals)
        end
    end.

Definition idft (in_vals : list C) (in_ax out_ax : list (list R)) : result (list C) :=
  let nax := length in_ax in
  if negb (length out_ax =? length in_ax)%nat
  then Raise (Exception "dft: number of input and output dimensions not equal!")
  else
    let nin := length in_vals in
    match out_ax with
    | [] => Raise (IndexError "list index out of range")
    | out0 :: _ =>
        let nout := length out0 in
        match check_axes nin nout (combine in_ax out_ax) with
        | Raise e => Raise e
        | OK _ =>
            let out_vals :=
              map (fun i =>
                     fold_left
                       (fun val j =>
                          let cphs := 2 * PI * psum in_ax out_ax i j in
                          Cadd val (Cmul (nth j in_vals C0) (cos cphs, sin cphs)))
                       (seq 0 nin) C0)
                  (seq 0 nout) in
            OK (map (fun v => Cdiv_nat v (length in_vals)) out_vals)
        end
    end.

(** The transform as the specification words it: the sum over the input
    values, each times the exponential of [sign] times the phase, the sum
    divided by the number of input values. *)
Definition direct_sum (sign : R) (in_vals : list C) (in_ax out_ax : list (list R))
    : list C :=
  map (fun i =>
         Cdiv_nat
           (fold_left
              (fun val j =>
                 let phase := sign * (2 * PI * psum in_ax out_ax i j) in
                 Cadd val (Cmul (nth j in_vals C0) (cos phase, sin phase)))
              (seq 0 (length in_vals)) C0)
           (length in_vals))
      (seq 0 (length (nth 0 out_ax []))).

(** The axis lists match the input values: as many output axes as input
    axes, at least one axis, every input axis as long as the values and
    every output axis as long as the first one. *)
Definition matching (in_vals : list C) (in_ax out_ax : list (list R)) : bool :=
  (length out_ax =? length in_ax)%nat
  && negb (length in_ax =? 0)%nat
  && forallb (fun a => (length a =? length in_vals)%nat) in_ax
  && forallb (fun b => (length b =? length (nth 0 out_ax []))%nat) out_ax.

Definition result_map {A B} (f : A -> B) (r : result A) : result B :=
  match r with
  | OK a => OK (f a)
  | Raise e => Raise e
  end.

End Oracle.

(** ** Vocabulary for the axis lists *)

(** The indices below [N] that satisfy [p], in increasing order. *)
Definition indices (p : nat -> bool) (N : nat) : list nat :=
  List.filter p (seq 0 N).

(** Entry [k] of a per-axis list of flags is set. *)
Definition flagged (xs : list pyobj) (k : nat) : bool :=
  truthy (nth k xs PNone).

(** Entry [k] of a per-axis list of strings reads [name] in any case of
    letters. *)
Definition reads (name : string) (xs : list pyobj) (k : nat) : bool :=
  String.eqb (lower (as_str (nth k xs PNone))) name.

(** The object with every string in lower case. *)
Definition lowercase (x : pyobj) : pyobj :=
  match x with
  | PStr s => PStr (lower s)
  | PList xs =>
      PList (map (fun y => match y with PStr s => PStr (lower s) | _ => y end) xs)
  | _ => x
  end.

(** The axes of an axis list all lie below [N]. *)
Definition axes_below (N : nat) (axes : axes_t) : Prop :=
  match axes with
  | None => True
  | Some l => Forall (fun k => k < N) l
  end.

(** Every item of the list has type [t]. *)
Definition all_of (t : pytype) (xs : list pyobj) : Prop :=
  Forall (fun x => is_type x t = true) xs.

(** An axes argument that [validate] accepts: a list, or the pair of a
    list of arrays and a list of tuples. *)
Definition axes_ok (x : pyobj) : Prop :=
  (exists xs, x = PList xs)
  \/ (exists cs gs, x = PTuple [PList cs; PList gs]
                    /\ all_of TNdarray cs /\ all_of TTuple gs).

(** A value of type [t] or a list of such values. *)
Definition scalar_or_list_of (t : pytype) (x : pyobj) : Prop :=
  is_type x t = true \/ (exists xs, x = PList xs /\ all_of t xs).

(** The requests that [validate] accepts. *)
Definition well_typed (r : request) : Prop :=
  is_type (inp r) TNdarray = true
  /\ axes_ok (in_ax r)
  /\ axes_ok (out_ax r)
  /\ ~ (is_type (in_ax r) TTuple = true /\ is_type (out_ax r) TTuple = true)
  /\ is_type (W r) TInt = true
  /\ (is_type (alpha r) TFloat = true \/ is_type (alpha r) TInt = true)
  /\ scalar_or_list_of TStr (ftmachine r)
  /\ scalar_or_list_of TBool (in_zero_center r)
  /\ scalar_or_list_of TBool (out_zero_center r)
  /\ scalar_or_list_of TBool (enforce_hermitian_symmetry r).

Definition no_dimensions : string :=
  "Something went wrong in setting the mode and dimensionality.".

(** Requests at the corners of the input space. *)
Module Corner.

(** An array without axes: a single number. *)
Definition scalar : ndarray Z := mk_ndarray 0 (5%Z : tensor Z 0).

Definition store : world Z := mk_world [scalar; Sample.line] [].

(** Regular to regular on the array without axes. *)
Definition rr_scalar : request :=
  Sample.defaults (PArr 0) (PList []) (PList []) (PStr "fft").

(** Both axes arguments in the paired form. *)
Definition both_paired : request :=
  Sample.defaults (PArr 1)
    (PTuple [PList Sample.coords2; PList Sample.grid_4x3])
    (PTuple [PList Sample.coords2; PList Sample.grid_4x3]) (PStr "fft").

(** Regular to irregular on one axis. *)
Definition ri_1d : request :=
  Sample.defaults (PArr 1) (PList [PTuple [PFloat 1; PInt 4]]) (PList [PArr 1])
    (PStr "ifft").

End Corner.

(** ** The transformation step on the array itself *)

Section Pipeline.

Context {E : Type} (oracle : string -> list (arg E) -> result (ndarray E)).

(** [if do_fft: out = np.fft.fftn(inp, axes=fftaxes) else: out = inp.copy()] *)
Definition forward (c : config) (a : ndarray E) : result (ndarray E) :=
  if do_fft c then oracle "np.fft.fftn" [AArr a; AAxes (fftaxes c)] else OK a.

(** [if do_ifft: out = np.fft.ifftn(out, axes=ifftaxes)] *)
Definition backward (c : config) (a : ndarray E) : result (ndarray E) :=
  if do_ifft c then oracle "np.fft.ifftn" [AArr a; AAxes (ifftaxes c)] else OK a.

End Pipeline.

Module Echo.

(** A collaborator that hands back the array it receives. *)
Definition collaborator : string -> list (arg Z) -> result (ndarray Z) :=
  fun _ args =>
    match args with
    | AArr a :: _ => OK a
    | _ => Raise (NumericError "no array")
    end.

(** Forward transformation of the line, regular to regular. *)
Definition rr_line : request :=
  Sample.defaults (PArr 0) (PList []) (PList []) (PStr "fft").

End Echo.

(** ** What a call asks of its collaborators *)

(** The calls of collaborators in the trace, in order, without what is
    printed and warned. *)
Definition calls {E} (w : world E) : list (event E) :=
  List.filter (fun e => negb (diagnostic e)) (trace w).

(** The same request with another [verbose]. *)
Definition with_verbose (b : bool) (r : request) : request :=
  mk_request (inp r) (in_ax r) (out_ax r) (ftmachine r) (in_zero_center r)
    (out_zero_center r) (enforce_hermitian_symmetry r) (W r) (alpha r) b.

(** Two worlds with the same store and the same calls so far. *)
Definition alike {E} (w w' : world E) : Prop :=
  heap w = heap w' /\ calls w = calls w'.

(** Two computations that, from alike worlds, give the same result and
    leave alike worlds. *)
Definition agree {E A} (m m' : M E A) : Prop :=
  forall w w', alike w w' ->
    fst (m w) = fst (m' w') /\ alike (snd (m w)) (snd (m' w')).

(** A computation that does nothing but print. *)
Definition only_prints {E} (m : M E unit) : Prop :=
  forall w, fst (m w) = OK tt /\ alike w (snd (m w)).

(** ** Vocabulary for the direct transforms *)

Module Direct.

Import Oracle.
#[local] Open Scope R_scope.

(** The output axes with every coordinate negated. *)
Definition mirrored (b : list (list R)) : list (list R) := map (map Ropp) b.

(** The sum of a list of complex values. *)
Definition Csum (v : list C) : C := fold_left Cadd v C0.

End Direct.

(** ** Where the float arithmetic is exact

    The model computes with exact rationals.  A float operation of the
    program gives the same number as the model wherever its operands and
    its exact result are binary64 numbers, since the operation is then
    done without rounding.  The statements about computed grid sizes
    and offsets are made under these conditions. *)

(** A number that a binary64 float holds exactly: [m * 2^e] with
    [|m| < 2^53] and [-1074 <= e <= 971]. *)
Definition binary64 (q : Q) : Prop :=
  exists m e : Z,
    (Z.abs m < 2 ^ 53)%Z /\ (-1074 <= e <= 971)%Z
    /\ (q == inject_Z m * Qpower 2 e)%Q.

(** The largest binary64 number. *)
Definition max_float : Z := (2 ^ 1024 - 2 ^ 971)%Z.

(** A number that takes part in a float operation without an
    OverflowError: a float, or an int that converts to one. *)
Definition finite (x : num) : Prop :=
  match x with
  | NInt z => (Z.abs z <= max_float)%Z
  | NFloat q => binary64 q
  end.

(** [x * y] is computed without rounding: both are ints, or both are
    the same numbers as floats and so is their product. *)
Definition exact_mul (x y : num) : Prop :=
  match x, y with
  | NInt _, NInt _ => True
  | _, _ =>
      binary64 (Num.to_Q x) /\ binary64 (Num.to_Q y)
      /\ binary64 (Num.to_Q x * Num.to_Q y)
  end.

(** [x - y] is computed without rounding. *)
Definition exact_sub (x y : num) : Prop :=
  match x, y with
  | NInt _, NInt _ => True
  | _, _ =>
      binary64 (Num.to_Q x) /\ binary64 (Num.to_Q y)
      /\ binary64 (Num.to_Q x - Num.to_Q y)
  end.

(** The four operations behind the crop and the padding window of an
    axis with [n] pixels are exact: [alpha*Nx], [0.5*Nx], [alpha-1] and
    [0.5*Nx*(alpha-1)]. *)
Definition exact_axis (a : num) (n : Z) : Prop :=
  exact_mul a (NInt n)
  /\ exact_mul Num.half (NInt n)
  /\ exact_sub a (NInt 1)
  /\ exact_mul (Num.mul Num.half (NInt n)) (Num.sub a (NInt 1)).

(** * Properties *)

(** ** Rules for [framed] *)

Section FrameRules.

Context {E : Type}.
Implicit Types (n : nat) (w : world E).

Lemma framed_ret {A} n (a : A) (Q : A -> Prop) : Q a -> framed (E:=E) n (ret a) Q.
Proof. intros H w Hw; cbn. repeat split; auto. intros b [= <-]; exact H. Qed.

Lemma framed_raise {A} n e (Q : A -> Prop) : framed (E:=E) n (raise e) Q.
Proof. intros w Hw; cbn. repeat split; auto. discriminate. Qed.

Lemma framed_lift {A} n (r : result A) : framed (E:=E) n (lift r) (fun _ => True).
Proof. intros w Hw; cbn. repeat split; auto. Qed.

Lemma framed_print n s : framed (E:=E) n (print s) (fun _ => True).
Proof. intros w Hw; cbn. repeat split; auto. Qed.

Lemma framed_warn n s : framed (E:=E) n (warn s) (fun _ => True).
Proof. intros w Hw; cbn. repeat split; auto. Qed.

Lemma framed_deref n l : framed (E:=E) n (deref l) (fun _ => True).
Proof.
  intros w Hw; unfold deref. destruct (heap w !! l); cbn; repeat split; auto.
Qed.

Lemma framed_fresh n fn args r :
  framed (E:=E) n (fresh fn args r) (fun l => n <= l).
Proof.
  intros w Hw; unfold fresh. destruct r; cbn.
  - repeat split.
    + rewrite length_app; lia.
    + intros l Hl. apply lookup_app_l. lia.
    + intros b [= <-]. exact Hw.
  - repeat split; auto. discriminate.
Qed.

Lemma framed_overwrite n fn args l r :
  n <= l -> framed (E:=E) n (overwrite fn args l r) (fun _ => True).
Proof.
  intros Hl w Hw; unfold overwrite. destruct r; cbn.
  - repeat split; auto.
    + rewrite length_insert. exact Hw.
    + intros k Hk. apply list_lookup_insert_ne. lia.
  - repeat split; auto.
Qed.

Lemma framed_bind {A B} n (m : M E A) (f : A -> M E B)
    (Q : A -> Prop) (R : B -> Prop) :
  framed n m Q -> (forall a, Q a -> framed n (f a) R) -> framed n (bind m f) R.
Proof.
  intros Hm Hf w Hw. unfold bind.
  destruct (Hm w Hw) as [[H1 H2] H3].
  destruct (m w) as [[a|e] w1]; cbn in *.
  - destruct (Hf a (H3 a eq_refl) w1 H1) as [[G1 G2] G3].
    repeat split; auto. intros l Hl. rewrite G2 by exact Hl. auto.
  - repeat split; auto. discriminate.
Qed.

Lemma framed_weaken {A} n (m : M E A) (Q Q' : A -> Prop) :
  framed n m Q -> (forall a, Q a -> Q' a) -> framed n m Q'.
Proof.
  intros Hm HQ w Hw. destruct (Hm w Hw) as [H1 H2]. split; auto.
Qed.

Lemma framed_mapM {A B} n (f : A -> M E B) (l : list A) :
  (forall a, framed n (f a) (fun _ => True)) ->
  framed n (mapM f l) (fun _ => True).
Proof.
  intros Hf. induction l as [|a l IH]; cbn.
  - apply framed_ret. exact I.
  - apply framed_bind with (Q := fun _ => True); [apply Hf|]. intros b _.
    apply framed_bind with (Q := fun _ => True); [apply IH|]. intros bs _.
    apply framed_ret. exact I.
Qed.

Lemma framed_pass n x : framed (E:=E) n (pass x) (fun _ => True).
Proof.
  destruct x; cbn; try (apply framed_ret; exact I).
  apply framed_bind with (Q := fun _ => True); [apply framed_deref|].
  intros; apply framed_ret; exact I.
Qed.

Lemma framed_pass_all n xs : framed (E:=E) n (pass_all xs) (fun _ => True).
Proof.
  induction xs as [|x xs IH]; cbn.
  - apply framed_ret; exact I.
  - apply framed_bind with (Q := fun _ => True); [apply framed_pass|]. intros b _.
    apply framed_bind with (Q := fun _ => True); [apply IH|]. intros bs _.
    apply framed_ret. exact I.
Qed.

End FrameRules.

Ltac head_of t := lazymatch t with ?f _ => head_of f | _ => t end.

Ltac framed_leaf :=
  first
    [ apply framed_raise
    | apply framed_ret; solve [ exact I | assumption | lia ]
    | apply framed_fresh
    | apply framed_overwrite; solve [ assumption | lia ]
    | apply framed_lift
    | apply framed_print
    | apply framed_warn
    | apply framed_deref
    | apply framed_pass_all
    | apply framed_pass
    | eapply framed_weaken; [ apply framed_fresh | intros; exact I ] ].

(** Walks through a procedure: at a bind the first computation is tried
    as one that returns a new reference, then as any computation. *)
Ltac framed_go :=
  lazymatch goal with
  | |- framed ?n (bind _ _) _ =>
      first
        [ apply framed_bind with (Q := fun l : loc => n <= l); [ solve [ framed_go ] | ]
        | apply framed_bind with (Q := fun _ => True); [ solve [ framed_go ] | ] ];
      intros; framed_go
  | |- framed _ (if ?c then _ else _) _ => destruct c; framed_go
  | |- framed _ (match ?x with _ => _ end) _ => destruct x; framed_go
  | |- framed _ (mapM _ _) _ => apply framed_mapM; intros; framed_go
  | |- framed _ ?m _ =>
      first
        [ framed_leaf
        | let h := head_of m in progress (unfold h); framed_go ]
  end.

(** ** Rules for [quiet] *)

Section QuietRules.

Context {E : Type}.

Lemma quiet_ret {A} (a : A) : quiet (E:=E) (ret a).
Proof. intros w; cbn. split; [reflexivity|]. exists []. rewrite app_nil_r. auto. Qed.

Lemma quiet_raise {A} e : quiet (E:=E) (A:=A) (raise e).
Proof. intros w; cbn. split; [reflexivity|]. exists []. rewrite app_nil_r. auto. Qed.

Lemma quiet_lift {A} (r : result A) : quiet (E:=E) (lift r).
Proof. intros w; cbn. split; [reflexivity|]. exists []. rewrite app_nil_r. auto. Qed.

Lemma quiet_print s : quiet (E:=E) (print s).
Proof. intros w; cbn. split; [reflexivity|]. exists [EPrint s]. auto. Qed.

Lemma quiet_warn s : quiet (E:=E) (warn s).
Proof. intros w; cbn. split; [reflexivity|]. exists [EWarn s]. auto. Qed.

Lemma quiet_deref l : quiet (E:=E) (deref l).
Proof.
  intros w; unfold deref. destruct (heap w !! l); cbn;
    (split; [reflexivity|]); exists []; rewrite app_nil_r; auto.
Qed.

Lemma quiet_bind {A B} (m : M E A) (f : A -> M E B) :
  quiet m -> (forall a, quiet (f a)) -> quiet (bind m f).
Proof.
  intros Hm Hf w. unfold bind.
  destruct (Hm w) as [H1 (evs & H2 & H3)].
  destruct (m w) as [[a|e] w1]; cbn in *.
  - destruct (Hf a w1) as [G1 (evs' & G2 & G3)]. split; [congruence|].
    exists (evs ++ evs'). rewrite G2, H2, app_assoc. split; [reflexivity|].
    rewrite forallb_app, H3, G3. reflexivity.
  - split; [assumption|]. exists evs. auto.
Qed.

End QuietRules.

Ltac quiet_go :=
  lazymatch goal with
  | |- quiet (bind _ _) => apply quiet_bind; [ quiet_go | intros; quiet_go ]
  | |- quiet (if ?c then _ else _) => destruct c; quiet_go
  | |- quiet (match ?x with _ => _ end) => destruct x; quiet_go
  | |- quiet ?m =>
      first
        [ apply quiet_ret | apply quiet_raise | apply quiet_lift | apply quiet_print
        | apply quiet_warn | apply quiet_deref
        | let h := head_of m in progress (unfold h); quiet_go ]
  end.

(** ** Rules for [stateless] *)

Section StatelessRules.

Context {E : Type}.

Lemma stateless_ret {A} (a : A) : stateless (E:=E) (ret a).
Proof. intros w w' H; cbn. auto. Qed.

Lemma stateless_raise {A} e : stateless (E:=E) (A:=A) (raise e).
Proof. intros w w' H; cbn. auto. Qed.

Lemma stateless_lift {A} (r : result A) : stateless (E:=E) (lift r).
Proof. intros w w' H; cbn. auto. Qed.

Lemma stateless_print s : stateless (E:=E) (print s).
Proof. intros w w' H; cbn. auto. Qed.

Lemma stateless_warn s : stateless (E:=E) (warn s).
Proof. intros w w' H; cbn. auto. Qed.

Lemma stateless_deref l : stateless (E:=E) (deref l).
Proof. intros w w' H; unfold deref. rewrite H. destruct (heap w' !! l); cbn; auto. Qed.

Lemma stateless_fresh fn args r : stateless (E:=E) (fresh fn args r).
Proof. intros w w' H; unfold fresh. destruct r; cbn; rewrite H; auto. Qed.

Lemma stateless_overwrite fn args l r : stateless (E:=E) (overwrite fn args l r).
Proof. intros w w' H; unfold overwrite. destruct r; cbn; rewrite H; auto. Qed.

Lemma stateless_bind {A B} (m : M E A) (f : A -> M E B) :
  stateless m -> (forall a, stateless (f a)) -> stateless (bind m f).
Proof.
  intros Hm Hf w w' H. unfold bind.
  destruct (Hm w w' H) as [H1 H2].
  destruct (m w) as [[a|e] w1], (m w') as [[a'|e'] w1']; cbn in *;
    try discriminate.
  - injection H1 as <-. apply Hf. exact H2.
  - injection H1 as <-. split; [reflexivity | assumption].
Qed.

Lemma stateless_mapM {A B} (f : A -> M E B) (l : list A) :
  (forall a, stateless (f a)) -> stateless (mapM f l).
Proof.
  intros Hf. induction l as [|a l IH]; cbn.
  - apply stateless_ret.
  - apply stateless_bind; [apply Hf|]. intros b.
    apply stateless_bind; [apply IH|]. intros bs. apply stateless_ret.
Qed.

Lemma stateless_pass x : stateless (E:=E) (pass x).
Proof.
  destruct x; cbn; try apply stateless_ret.
  apply stateless_bind; [apply stateless_deref|]. intros; apply stateless_ret.
Qed.

Lemma stateless_pass_all xs : stateless (E:=E) (pass_all xs).
Proof.
  induction xs as [|x xs IH]; cbn.
  - apply stateless_ret.
  - apply stateless_bind; [apply stateless_pass|]. intros b.
    apply stateless_bind; [apply IH|]. intros bs. apply stateless_ret.
Qed.

End StatelessRules.

Ltac stateless_go :=
  lazymatch goal with
  | |- stateless (bind _ _) => apply stateless_bind; [ stateless_go | intros; stateless_go ]
  | |- stateless (if ?c then _ else _) => destruct c; stateless_go
  | |- stateless (match ?x with _ => _ end) => destruct x; stateless_go
  | |- stateless (mapM _ _) => apply stateless_mapM; intros; stateless_go
  | |- stateless ?m =>
      first
        [ apply stateless_ret | apply stateless_raise | apply stateless_lift
        | apply stateless_print | apply stateless_warn | apply stateless_deref
        | apply stateless_fresh | apply stateless_overwrite
        | apply stateless_pass_all | apply stateless_pass
        | let h := head_of m in progress (unfold h); stateless_go ]
  end.

Section Procedures.

Context {E : Type} (oracle : string -> list (arg E) -> result (ndarray E)).

Lemma gfft_framed n r : framed n (gfft oracle r) (fun l => n <= l).
Proof. framed_go. Qed.

Lemma setup_quiet r : quiet (E:=E) (setup r).
Proof. quiet_go. Qed.

Lemma gfft_stateless r : stateless (gfft oracle r).
Proof. stateless_go. Qed.

Lemma select_mode_stateless r : stateless (E:=E) (select_mode r).
Proof. stateless_go. Qed.

Lemma classify_stateless r : stateless (E:=E) (classify r).
Proof. stateless_go. Qed.

End Procedures.

(** ** The half-length rotation *)

Section Shifts.

Context {E : Type}.

Lemma roll_length {A} s (l : list A) : length (roll s l) = length l.
Proof. unfold roll. rewrite length_app, length_drop, length_take. lia. Qed.

Lemma roll_map {A B} (f : A -> B) s (l : list A) :
  roll s (map f l) = map f (roll s l).
Proof.
  unfold roll. rewrite length_map, map_app, skipn_map, firstn_map. reflexivity.
Qed.

Lemma roll_In {A} s (l : list A) x : In x (roll s l) -> In x l.
Proof.
  unfold roll. intros H. rewrite <- (firstn_skipn (length l - s) l).
  apply in_app_or in H. apply in_or_app. tauto.
Qed.

Lemma even_half n : Nat.even n = true -> n - n / 2 = n / 2 /\ n = n / 2 + n / 2.
Proof.
  intros H. apply Nat.even_spec in H. destruct H as [k ->].
  replace (2 * k / 2) with k by (symmetry; rewrite Nat.mul_comm; apply Nat.div_mul; lia).
  lia.
Qed.

Lemma roll_half_twice {A} (l : list A) :
  Nat.even (length l) = true ->
  roll (length l / 2) (roll (length l / 2) l) = l.
Proof.
  intros H. destruct (even_half _ H) as [H1 H2].
  unfold roll at 1. rewrite roll_length, H1. unfold roll. rewrite H1.
  assert (Hd : length l / 2 = length (drop (length l / 2) l)).
  { rewrite length_drop. symmetry. exact H1. }
  rewrite (drop_app_length' _ _ _ Hd), (take_app_length' _ _ _ Hd).
  apply firstn_skipn.
Qed.

Lemma forallb_roll {A} (p : A -> bool) s (l : list A) :
  forallb p l = true -> forallb p (roll s l) = true.
Proof.
  rewrite !forallb_forall. intros H x Hx. apply H. eapply roll_In; eauto.
Qed.

Lemma all_even_S n (t : tensor E (S n)) :
  all_even (S n) t = Nat.even (length t) && forallb (all_even n) t.
Proof. reflexivity. Qed.

Lemma roll_axis_0 n (t : tensor E (S n)) :
  roll_axis (S n) 0 t = roll (length t / 2) t.
Proof. reflexivity. Qed.

Lemma roll_axis_S n k (t : tensor E (S n)) :
  roll_axis (S n) (S k) t = map (roll_axis n k) t.
Proof. reflexivity. Qed.

Lemma roll_axis_even n : forall k (t : tensor E n),
  all_even n t = true -> all_even n (roll_axis n k t) = true.
Proof.
  induction n as [|n IH]; intros k t H; [reflexivity|].
  rewrite all_even_S in H |- *. apply andb_prop in H. destruct H as [H1 H2].
  apply andb_true_intro. destruct k as [|k].
  - rewrite roll_axis_0, roll_length. split; [exact H1|].
    apply forallb_roll. exact H2.
  - rewrite roll_axis_S, length_map. split; [exact H1|].
    rewrite forallb_forall in H2 |- *.
    intros x Hx. apply in_map_iff in Hx. destruct Hx as (y & <- & Hy).
    apply IH. apply H2. exact Hy.
Qed.

Lemma roll_axis_twice n : forall k (t : tensor E n),
  all_even n t = true -> roll_axis n k (roll_axis n k t) = t.
Proof.
  induction n as [|n IH]; intros k t H; [reflexivity|].
  rewrite all_even_S in H. apply andb_prop in H. destruct H as [H1 H2].
  destruct k as [|k].
  - rewrite !roll_axis_0, roll_length. apply roll_half_twice. exact H1.
  - rewrite !roll_axis_S, map_map. rewrite <- (map_id t) at 2. apply map_ext_in.
    intros x Hx. apply IH. rewrite forallb_forall in H2. apply H2. exact Hx.
Qed.

Lemma roll_axis_comm n : forall i j (t : tensor E n),
  roll_axis n i (roll_axis n j t) = roll_axis n j (roll_axis n i t).
Proof.
  induction n as [|n IH]; intros i j t; [reflexivity|].
  destruct i as [|i], j as [|j];
    rewrite ?roll_axis_0, ?roll_axis_S, ?roll_axis_0.
  - reflexivity.
  - rewrite length_map. apply roll_map.
  - rewrite length_map. symmetry. apply roll_map.
  - rewrite !map_map. apply map_ext. intros x. apply IH.
Qed.

Lemma shift_axes_roll n axes : forall k (t : tensor E n),
  shift_axes n axes (roll_axis n k t) = roll_axis n k (shift_axes n axes t).
Proof.
  unfold shift_axes. induction axes as [|a axes IH]; intros k t; cbn; [reflexivity|].
  rewrite <- IH. f_equal. apply roll_axis_comm.
Qed.

(** Shifting the same axes twice gives the array back when every axis
    has even length. *)
Lemma shift_axes_twice n axes : forall t : tensor E n,
  all_even n t = true -> shift_axes n axes (shift_axes n axes t) = t.
Proof.
  induction axes as [|k axes IH]; intros t H; [reflexivity|].
  change (shift_axes n (k :: axes) t) with (shift_axes n axes (roll_axis n k t)).
  change (shift_axes n (k :: axes) ?u) with (shift_axes n axes (roll_axis n k u)).
  rewrite <- shift_axes_roll, roll_axis_twice by exact H.
  apply IH. exact H.
Qed.

End Shifts.

(** ** Results of the steps of [setup] *)

Section Steps.

Context {E : Type} (oracle : string -> list (arg E) -> result (ndarray E)).
Implicit Types (w : world E) (r : request).

Lemma fst_bind {A B} (m : M E A) (f : A -> M E B) w :
  fst (bind m f w)
  = match fst (m w) with
    | OK a => fst (f a (snd (m w)))
    | Raise e => Raise e
    end.
Proof. unfold bind. destruct (m w) as [[a|e] w1]; reflexivity. Qed.

Lemma snd_bind {A B} (m : M E A) (f : A -> M E B) w :
  snd (bind m f w)
  = match fst (m w) with
    | OK a => snd (f a (snd (m w)))
    | Raise e => snd (m w)
    end.
Proof. unfold bind. destruct (m w) as [[a|e] w1]; reflexivity. Qed.

Lemma bind_step {A B} (m : M E A) (f : A -> M E B) w a :
  fst (m w) = OK a -> bind m f w = f a (snd (m w)).
Proof. unfold bind. destruct (m w) as [[a'|e] w1]; cbn; congruence. Qed.

Lemma bind_raise {A B} (m : M E A) (f : A -> M E B) w e :
  fst (m w) = Raise e -> bind m f w = (Raise e, snd (m w)).
Proof. unfold bind. destruct (m w) as [[a'|e'] w1]; cbn; congruence. Qed.

Lemma fst_when c (m : M E unit) w :
  fst (when c m w) = if c then fst (m w) else OK tt.
Proof. destruct c; reflexivity. Qed.

Lemma select_mode_result r w :
  fst (select_mode r w)
  = match fst (classify r w) with
    | OK mN => check_dimensions mN
    | Raise e => Raise e
    end.
Proof.
  unfold select_mode. rewrite fst_bind.
  destruct (fst (classify r w)) as [mN|e]; [|reflexivity].
  unfold check_dimensions. rewrite fst_bind, fst_when.
  destruct (snd mN =? 0); [reflexivity|].
  rewrite fst_bind, fst_when.
  destruct ((3 <? snd mN) && negb (mode_eqb (fst mN) MODE_RR)); [reflexivity|].
  rewrite fst_bind, fst_when.
  destruct (verbose r); reflexivity.
Qed.

Lemma setup_result r w :
  fst (setup r w)
  = match validate r with
    | Raise e => Raise e
    | OK _ =>
        match fst (select_mode r w) with
        | Raise e => Raise e
        | OK mN => resolve_config r mN
        end
    end.
Proof.
  unfold setup. rewrite fst_bind, fst_when.
  set (w0 := snd (when (verbose r) (print ("gfft v. " ++ VERSION)%string) w)).
  assert (Hw0 : heap w = heap w0) by (subst w0; destruct (verbose r); reflexivity).
  assert (H0 : (if verbose r
                then fst (print (E:=E) ("gfft v. " ++ VERSION)%string w)
                else OK tt) = OK tt) by (destruct (verbose r); reflexivity).
  rewrite H0. rewrite fst_bind. cbn [lift fst snd].
  destruct (validate r) as [[]|e]; [|reflexivity].
  rewrite fst_bind.
  rewrite (proj1 (select_mode_stateless r w w0 Hw0)).
  destruct (fst (select_mode r w0)) as [mN|e]; [|reflexivity].
  unfold resolve_config. rewrite fst_bind. cbn [lift fst snd].
  destruct (resolve_ftmachine (ftmachine r) (snd mN)) as [d|e]; [|reflexivity].
  rewrite fst_bind, fst_when.
  assert (H1 : (if nothing_requested d
                then fst (warn (E:=E) warn_shift_only (snd (select_mode r w0)))
                else OK tt) = OK tt) by (destruct (nothing_requested d); reflexivity).
  rewrite H1. rewrite fst_bind. cbn [lift fst snd].
  destruct (resolve_shift (in_zero_center r) (snd mN) _) as [pre|e]; [|reflexivity].
  rewrite fst_bind. cbn [lift fst snd].
  destruct (resolve_shift (out_zero_center r) (snd mN) _) as [post|e]; [|reflexivity].
  rewrite fst_bind. cbn [lift fst snd].
  destruct (resolve_hermitian (enforce_hermitian_symmetry r) (snd mN)) as [herm|e];
    [|reflexivity].
  rewrite fst_bind, fst_when. destruct (verbose r); reflexivity.
Qed.

(** A request that [validate] accepts carries its input as an array. *)
Lemma validate_inp r : validate r = OK tt -> exists l, inp r = PArr l.
Proof.
  unfold validate. cbn [first_failure]. unfold is_type at 1.
  destruct (inp r); cbn; try discriminate. eauto.
Qed.

(** When [setup] raises, so does [gfft], in the same world. *)
Lemma gfft_setup_raises r w e :
  fst (setup r w) = Raise e -> run (gfft oracle r) w = (Raise e, snd (setup r w)).
Proof. intros H. unfold run, gfft. apply bind_raise. exact H. Qed.

(** When [setup] succeeds, [gfft] goes on with the pipeline of the mode. *)
Lemma gfft_setup_ok r w c :
  fst (setup r w) = OK c ->
  exists l, inp r = PArr l /\
    run (gfft oracle r) w
    = run (match c_mode c with
           | MODE_RR => mode_rr oracle r c l
           | MODE_IR => mode_ir oracle r c l
           | MODE_RI => mode_ri oracle r c l
           | MODE_II => mode_ii oracle r c l
           end) (snd (setup r w)).
Proof.
  intros H. assert (Hv : validate r = OK tt).
  { rewrite setup_result in H. destruct (validate r) as [[]|]; congruence. }
  destruct (validate_inp r Hv) as [l Hl]. exists l. split; [exact Hl|].
  unfold run, gfft. rewrite (bind_step _ _ _ _ H). rewrite Hl. reflexivity.
Qed.

Lemma setup_heap r w : heap (snd (setup r w)) = heap w.
Proof. apply (setup_quiet r w). Qed.

Lemma setup_diagnostics r w : only_diagnostics w (snd (setup r w)).
Proof. apply (setup_quiet r w). Qed.

End Steps.

(** ** The shift-only pass *)

Section ShiftOnly.

Context {E : Type} (oracle : string -> list (arg E) -> result (ndarray E)).
Implicit Types (w : world E) (r : request) (a : ndarray E).

Lemma snoc_lookup {A} (l : list A) x : (l ++ [x]) !! length l = Some x.
Proof. apply list_lookup_middle. reflexivity. Qed.

Lemma np_fftshift_run l axes w a a' :
  heap w !! l = Some a -> fftshift a axes = OK a' ->
  exists w', np_fftshift l axes w = (OK (length (heap w)), w')
             /\ heap w' = heap w ++ [a'].
Proof.
  intros Hl Hs. unfold np_fftshift, bind, deref, fresh. rewrite Hl, Hs. cbn.
  eexists; split; reflexivity.
Qed.

Lemma np_copy_run l w a :
  heap w !! l = Some a ->
  exists w', np_copy l w = (OK (length (heap w)), w') /\ heap w' = heap w ++ [a].
Proof.
  intros Hl. unfold np_copy, bind, deref, fresh. rewrite Hl. cbn.
  eexists; split; reflexivity.
Qed.

Lemma done_run r w : exists w', done (E:=E) r w = (OK tt, w') /\ heap w' = heap w.
Proof. unfold done, when. destruct (verbose r); cbn; eexists; split; reflexivity. Qed.

Lemma bind_run {A B} (m : M E A) (f : A -> M E B) w (x : A) w1 :
  m w = (OK x, w1) -> bind m f w = f x w1.
Proof. intros H. unfold bind. rewrite H. reflexivity. Qed.

Lemma optional_shift_run (flag : bool) axes l w a a' :
  heap w !! l = Some a -> shifted flag axes a = OK a' ->
  exists l' w',
    (if flag then np_fftshift l axes else ret l) w = (OK l', w')
    /\ heap w' !! l' = Some a'
    /\ (forall k, k < length (heap w) -> heap w' !! k = heap w !! k)
    /\ length (heap w) <= length (heap w')
    /\ (flag = true -> length (heap w) <= l').
Proof.
  intros Hl Hs. unfold shifted in Hs. destruct flag.
  - destruct (np_fftshift_run l axes w a a' Hl Hs) as (w' & -> & Hh).
    exists (length (heap w)), w'. rewrite Hh.
    split; [reflexivity|]. split; [apply snoc_lookup|].
    split; [intros k Hk; apply lookup_app_l; exact Hk|].
    rewrite length_app. split; [lia | auto].
  - injection Hs as <-. exists l, w. cbn.
    split; [reflexivity|]. split; [exact Hl|]. split; [auto|]. split; [lia|discriminate].
Qed.

(** Without a transformation the regular to regular pipeline shifts,
    copies and shifts. *)
Lemma mode_rr_shift_only r c l w a a1 a2 :
  do_fft c = false -> do_ifft c = false ->
  heap w !! l = Some a ->
  shifted (do_preshift c) (preshift_axes c) a = OK a1 ->
  shifted (do_postshift c) (postshift_axes c) a1 = OK a2 ->
  exists l' w',
    mode_rr oracle r c l w = (OK l', w')
    /\ heap w' !! l' = Some a2
    /\ length (heap w) <= l'.
Proof.
  intros Hf Hi Hl H1 H2. unfold mode_rr.
  destruct (optional_shift_run _ _ l w a a1 Hl H1) as (l1 & w1 & R1 & L1 & _ & G1 & _).
  destruct (np_copy_run l1 w1 a1 L1) as (w2 & R2 & Hh2).
  assert (L2 : heap w2 !! length (heap w1) = Some a1).
  { rewrite Hh2. apply snoc_lookup. }
  destruct (optional_shift_run _ _ (length (heap w1)) w2 a1 a2 L2 H2)
    as (l3 & w3 & R3 & L3 & _ & G3 & F3).
  destruct (done_run r w3) as (w4 & R4 & Hh4).
  exists l3, w4. split.
  - assert (T : transform oracle c l w = (OK l3, w3)).
    { unfold transform. rewrite Hf, Hi.
      rewrite (bind_run _ _ _ _ _ R1), (bind_run _ _ _ _ _ R2).
      erewrite bind_run by reflexivity. exact R3. }
    rewrite (bind_run _ _ _ _ _ T), (bind_run _ _ _ _ _ R4). reflexivity.
  - rewrite Hh4. split; [exact L3|].
    destruct (do_postshift c).
    + specialize (F3 eq_refl). rewrite Hh2, length_app in F3. lia.
    + cbn in R3. injection R3 as <- _. lia.
Qed.

End ShiftOnly.

(** ** What the configuration resolves to *)

Section Resolution.

Context {E : Type}.
Implicit Types (w : world E) (r : request).

Lemma resolve_config_inv r mN c :
  resolve_config r mN = OK c ->
  exists d pre post,
    resolve_ftmachine (ftmachine r) (snd mN) = OK d
    /\ resolve_shift (in_zero_center r) (snd mN)
         "in_zero_center is a list with invalid length" = OK pre
    /\ resolve_shift (out_zero_center r) (snd mN)
         "out_zero_center is a list with invalid length" = OK post
    /\ c_mode c = (if nothing_requested d then MODE_RR else fst mN)
    /\ c_N c = snd mN
    /\ do_fft c = d_do_fft d /\ do_ifft c = d_do_ifft d
    /\ do_preshift c = fst pre /\ preshift_axes c = snd pre
    /\ do_postshift c = fst post /\ postshift_axes c = snd post.
Proof.
  unfold resolve_config.
  destruct (resolve_ftmachine _ _) as [d|]; [|discriminate].
  destruct (resolve_shift (in_zero_center r) _ _) as [pre|]; [|discriminate].
  destruct (resolve_shift (out_zero_center r) _ _) as [post|]; [|discriminate].
  destruct (resolve_hermitian _ _) as [herm|]; [|discriminate].
  intros [= <-]. exists d, pre, post. cbn. repeat split; reflexivity.
Qed.

Lemma setup_ok_inv r w c :
  fst (setup r w) = OK c ->
  exists mN, fst (select_mode r w) = OK mN /\ 0 < snd mN
             /\ resolve_config r mN = OK c.
Proof.
  rewrite setup_result. destruct (validate r) as [[]|]; [|discriminate].
  destruct (fst (select_mode r w)) as [mN|] eqn:Hs; [|discriminate].
  intros Hc. exists mN. split; [reflexivity|]. split; [|exact Hc].
  rewrite select_mode_result in Hs.
  destruct (fst (classify r w)) as [mN'|]; [|discriminate].
  unfold check_dimensions in Hs.
  destruct (Nat.eqb_spec (snd mN') 0); [discriminate|].
  destruct (_ && _); [discriminate|]. injection Hs as <-. lia.
Qed.

Lemma classify_empty_in_ax r w l (a : ndarray E) :
  inp r = PArr l -> heap w !! l = Some a -> len (in_ax r) = 0 ->
  classify r w
  = (OK (MODE_RR, ndim a),
     if len (out_ax r) =? 0 then w else log (EWarn warn_out_ax_ignored) w).
Proof.
  intros Hi Hl H0. unfold classify. rewrite H0, Hi. cbn [Nat.eqb array_ref].
  unfold bind, ret, deref. rewrite Hl.
  destruct (len (out_ax r) =? 0); reflexivity.
Qed.

Lemma setup_empty_in_ax r w l (a : ndarray E) c :
  inp r = PArr l -> heap w !! l = Some a -> len (in_ax r) = 0 ->
  fst (setup r w) = OK c ->
  c_mode c = MODE_RR /\ c_N c = ndim a.
Proof.
  intros Hi Hl H0 Hs.
  destruct (setup_ok_inv r w c Hs) as (mN & Hm & _ & Hc).
  rewrite select_mode_result, (classify_empty_in_ax r w l a Hi Hl H0) in Hm.
  cbn [fst] in Hm. unfold check_dimensions in Hm.
  destruct (snd (MODE_RR, ndim a) =? 0); [discriminate|].
  destruct (_ && _); [discriminate|]. injection Hm as <-.
  destruct (resolve_config_inv _ _ _ Hc) as (d & _ & _ & _ & _ & _ & Hmode & HN & _).
  split; [|exact HN]. rewrite Hmode. destruct (nothing_requested d); reflexivity.
Qed.

(** *** No direction *)

Lemma ftmachine_step_none d ix :
  names_transform (snd ix) = false -> ftmachine_step d ix = d.
Proof.
  unfold names_transform, ftmachine_step. intros H.
  apply orb_false_elim in H. destruct H as [-> ->]. reflexivity.
Qed.

Lemma ftmachine_fold_none l : forall idx d,
  forallb (fun x => negb (names_transform x)) l = true ->
  fold_left ftmachine_step (combine idx l) d = d.
Proof.
  induction l as [|x l IH]; intros idx d H.
  - destruct idx; reflexivity.
  - destruct idx as [|i idx]; [reflexivity|].
    cbn in H. apply andb_prop in H. destruct H as [Hx Hl].
    cbn [combine fold_left]. rewrite ftmachine_step_none.
    + apply IH. exact Hl.
    + cbn. apply negb_true_iff. exact Hx.
Qed.

Lemma resolve_ftmachine_none x N d :
  no_direction x = true -> resolve_ftmachine x N = OK d ->
  d = mk_directions false false (Some []) (Some []).
Proof.
  unfold no_direction, resolve_ftmachine.
  destruct x; cbn [is_type type_of pytype_eqb];
    try (intros _ [= <-]; reflexivity).
  - intros H. apply negb_true_iff in H. unfold names_transform in H.
    apply orb_false_elim in H. destruct H as [-> ->]. intros [= <-]. reflexivity.
  - intros H. destruct (negb _); [discriminate|].
    unfold enumerate. cbn [items]. rewrite ftmachine_fold_none by exact H.
    intros [= <-]. reflexivity.
Qed.

(** *** Zero-centring of one axis, of every axis, of no axis *)

Lemma shift_fold_one k n : forall s b l,
  fold_left shift_step
    (combine (seq s n) (map (fun i => PBool (i =? k)) (seq s n))) (b, Some l)
  = if (s <=? k) && (k <? s + n) then (true, Some (l ++ [k])) else (b, Some l).
Proof.
  induction n as [|n IH]; intros s b l.
  - cbn [seq map combine fold_left]. rewrite Nat.add_0_r.
    destruct (Nat.leb_spec s k), (Nat.ltb_spec k s); cbn [andb];
      try reflexivity; lia.
  - cbn [seq map combine fold_left]. unfold shift_step at 2. cbn [snd fst truthy].
    destruct (Nat.eqb_spec s k) as [->|Hne].
    + cbn [add_axis option_map]. rewrite IH.
      rewrite (proj2 (Nat.leb_gt (S k) k)) by lia.
      rewrite Nat.leb_refl, (proj2 (Nat.ltb_lt k (k + S n))) by lia.
      reflexivity.
    + rewrite IH. replace (S s + n) with (s + S n) by lia.
      destruct (Nat.leb_spec (S s) k), (Nat.leb_spec s k); try lia; reflexivity.
Qed.

Lemma shift_fold_all n : forall s b l,
  fold_left shift_step (combine (seq s n) (repeat (PBool true) n)) (b, Some l)
  = (b || (0 <? n), Some (l ++ seq s n)).
Proof.
  induction n as [|n IH]; intros s b l.
  - cbn. rewrite orb_false_r, app_nil_r. reflexivity.
  - cbn [seq repeat combine fold_left]. unfold shift_step at 2.
    cbn [snd fst truthy add_axis option_map]. rewrite IH.
    rewrite <- app_assoc. cbn. rewrite orb_true_r. reflexivity.
Qed.

Lemma shift_fold_none n : forall idx st,
  fold_left shift_step (combine idx (repeat (PBool false) n)) st = st.
Proof.
  induction n as [|n IH]; intros idx st.
  - destruct idx; reflexivity.
  - destruct idx as [|i idx]; [reflexivity|]. cbn [repeat combine fold_left].
    unfold shift_step at 2. cbn. apply IH.
Qed.

Lemma resolve_shift_one N k msg :
  k < N -> resolve_shift (one_axis N k) N msg = OK (true, Some [k]).
Proof.
  intros Hk. unfold resolve_shift, one_axis, enumerate, len.
  cbn [is_type type_of pytype_eqb items].
  rewrite length_map, length_seq, Nat.eqb_refl. cbn [negb].
  rewrite shift_fold_one.
  destruct (Nat.ltb_spec k (0 + N)); [reflexivity | lia].
Qed.

Lemma resolve_shift_none N zc msg :
  no_axis N zc -> resolve_shift zc N msg = OK (false, Some []).
Proof.
  intros [-> | ->]; [reflexivity|].
  unfold resolve_shift, enumerate, len. cbn [is_type type_of pytype_eqb items].
  rewrite repeat_length, Nat.eqb_refl. cbn [negb].
  rewrite shift_fold_none. reflexivity.
Qed.

Lemma resolve_shift_every N zc msg :
  0 < N -> every_axis N zc ->
  resolve_shift zc N msg = OK (true, None)
  \/ resolve_shift zc N msg = OK (true, Some (seq 0 N)).
Proof.
  intros HN [-> | ->]; [left; reflexivity|]. right.
  unfold resolve_shift, enumerate, len. cbn [is_type type_of pytype_eqb items].
  rewrite repeat_length, Nat.eqb_refl. cbn [negb].
  rewrite shift_fold_all. cbn [orb app].
  rewrite (proj2 (Nat.ltb_lt 0 N)) by exact HN. reflexivity.
Qed.

(** *** The shifts themselves *)

Lemma fftshift_one (a : ndarray E) k :
  k < ndim a ->
  fftshift a (Some [k]) = OK (mk_ndarray (ndim a) (roll_axis (ndim a) k (body a))).
Proof.
  intros Hk. unfold fftshift. cbn [forallb].
  destruct (Nat.ltb_spec k (ndim a)); [reflexivity | lia].
Qed.

Lemma forallb_seq_lt n : forallb (fun k => k <? n) (seq 0 n) = true.
Proof.
  apply forallb_forall. intros k Hk. apply in_seq in Hk. apply Nat.ltb_lt. lia.
Qed.

(** The shift of every axis, asked for by [None] or by the list of all
    axes, is undone by itself on an array whose axes have even length. *)
Lemma fftshift_every_twice (a : ndarray E) axes :
  axes = None \/ axes = Some (seq 0 (ndim a)) ->
  all_even (ndim a) (body a) = true ->
  exists a', fftshift a axes = OK a' /\ fftshift a' axes = OK a.
Proof.
  intros Hax He. destruct a as [n t]. cbn [ndim body] in *.
  exists (mk_ndarray n (shift_axes n (seq 0 n) t)).
  destruct Hax as [-> | ->]; unfold fftshift; cbn [ndim body];
    rewrite ?forallb_seq_lt, shift_axes_twice by exact He; split; reflexivity.
Qed.

End Resolution.

(** ** Failures before any numeric work *)

Section Failures.

Context {E : Type} (oracle : string -> list (arg E) -> result (ndarray E)).
Implicit Types (w : world E) (r : request).

Lemma resolve_ftmachine_cases x N :
  (exists d, resolve_ftmachine x N = OK d /\ wrong_length N x = false)
  \/ resolve_ftmachine x N = Raise (Exception "ftmachine is a list with invalid length").
Proof.
  unfold resolve_ftmachine, wrong_length.
  destruct x; cbn; try (left; eexists; split; reflexivity).
  - destruct (String.eqb (lower s) FTM_FFT); [left; eauto|].
    destruct (String.eqb (lower s) FTM_IFFT); left; eauto.
  - destruct (length xs =? N); cbn; [left; eauto | right; reflexivity].
Qed.

Lemma resolve_shift_cases x N msg :
  (exists p, resolve_shift x N msg = OK p /\ wrong_length N x = false)
  \/ resolve_shift x N msg = Raise (Exception msg).
Proof.
  unfold resolve_shift, wrong_length.
  destruct x; cbn; try (left; eexists; split; reflexivity).
  - destruct b; left; eauto.
  - destruct (length xs =? N); cbn; [left; eauto | right; reflexivity].
Qed.

Lemma resolve_hermitian_wrong_length x N :
  wrong_length N x = true ->
  resolve_hermitian x N
  = Raise (Exception "enforce_hermitian_symmetry is a list with invalid length").
Proof.
  unfold resolve_hermitian, hermitian_list, wrong_length.
  destruct x; cbn; try discriminate.
  destruct (length xs =? N); cbn; [discriminate | reflexivity].
Qed.

Lemma resolve_config_wrong_length r mN :
  wrong_length (snd mN) (ftmachine r)
  || wrong_length (snd mN) (in_zero_center r)
  || wrong_length (snd mN) (out_zero_center r)
  || wrong_length (snd mN) (enforce_hermitian_symmetry r) = true ->
  exists msg, resolve_config r mN = Raise (Exception msg) /\ In msg length_messages.
Proof.
  intros H. unfold resolve_config, length_messages.
  destruct (resolve_ftmachine_cases (ftmachine r) (snd mN)) as [(d & -> & H1)| ->];
    [|eexists; split; [reflexivity | cbn; tauto]].
  destruct (resolve_shift_cases (in_zero_center r) (snd mN)
              "in_zero_center is a list with invalid length") as [(p & -> & H2)| ->];
    [|eexists; split; [reflexivity | cbn; tauto]].
  destruct (resolve_shift_cases (out_zero_center r) (snd mN)
              "out_zero_center is a list with invalid length") as [(q & -> & H3)| ->];
    [|eexists; split; [reflexivity | cbn; tauto]].
  rewrite H1, H2, H3 in H. cbn in H.
  rewrite (resolve_hermitian_wrong_length _ _ H).
  eexists; split; [reflexivity | cbn; tauto].
Qed.

Lemma resolve_config_fields r mN c :
  resolve_config r mN = OK c ->
  c_N c = snd mN /\ (c_mode c = fst mN \/ c_mode c = MODE_RR).
Proof.
  unfold resolve_config.
  destruct (resolve_ftmachine _ _) as [d|]; [|discriminate].
  destruct (resolve_shift (in_zero_center r) _ _) as [pre|]; [|discriminate].
  destruct (resolve_shift (out_zero_center r) _ _) as [post|]; [|discriminate].
  destruct (resolve_hermitian _ _) as [herm|]; [|discriminate].
  intros [= <-]. cbn. split; [reflexivity|].
  destruct (nothing_requested d); auto.
Qed.

(** C3.  A request that is classified into a gridding mode (IR, RI, II)
    with more than three dimensions fails with the exception for an
    unsupported number of dimensions; the store is as before the call and
    the trace has diagnostic output only, so nothing was transformed or
    gridded.  A request classified as regular to regular passes the
    dimension checks for any number of dimensions from one on. *)
Theorem gridding_needs_at_most_three_dimensions r w m N :
  validate r = OK tt ->
  fst (run (classify r) w) = OK (m, N) ->
  (m <> MODE_RR -> 3 < N ->
     exists w', run (gfft oracle r) w = (Raise (Exception unsupported_dimensions), w')
                /\ heap w' = heap w /\ only_diagnostics w w')
  /\ (m = MODE_RR -> 0 < N -> fst (run (select_mode r) w) = OK (m, N)).
Proof.
  unfold run. intros Hv Hc.
  assert (Hs : fst (select_mode r w) = check_dimensions (m, N)).
  { rewrite select_mode_result, Hc. reflexivity. }
  split.
  - intros Hm HN. exists (snd (setup r w)).
    split; [|split; [apply setup_heap | apply setup_diagnostics]].
    apply gfft_setup_raises. rewrite setup_result, Hv, Hs.
    unfold check_dimensions. cbn [fst snd].
    destruct (Nat.eqb_spec N 0) as [->|_]; [lia|].
    destruct (Nat.ltb_spec 3 N) as [_|]; [|lia].
    destruct m; [congruence | reflexivity ..].
  - intros -> HN. rewrite Hs. unfold check_dimensions. cbn [fst snd].
    destruct (Nat.eqb_spec N 0) as [->|_]; [lia|].
    cbn. rewrite andb_false_r. reflexivity.
Qed.

(** C6.  When one of the per-axis configuration values (ftmachine,
    in_zero_center, out_zero_center, enforce_hermitian_symmetry) is a
    list whose length differs from the resolved number of dimensions, the
    call raises the exception of one of the four length checks; the store
    is as before the call and the trace has diagnostic output only, so no
    array was allocated and no numeric work was done. *)
Theorem wrong_length_fails_before_any_work r w m N :
  validate r = OK tt ->
  fst (run (select_mode r) w) = OK (m, N) ->
  wrong_length N (ftmachine r)
  || wrong_length N (in_zero_center r)
  || wrong_length N (out_zero_center r)
  || wrong_length N (enforce_hermitian_symmetry r) = true ->
  exists msg w',
    run (gfft oracle r) w = (Raise (Exception msg), w')
    /\ In msg length_messages
    /\ heap w' = heap w /\ only_diagnostics w w'.
Proof.
  unfold run. intros Hv Hs Hl.
  destruct (resolve_config_wrong_length r (m, N) Hl) as (msg & Hc & Hin).
  exists msg, (snd (setup r w)).
  split; [|split; [exact Hin | split; [apply setup_heap | apply setup_diagnostics]]].
  apply gfft_setup_raises. rewrite setup_result, Hv, Hs. exact Hc.
Qed.

(** C1, as the code has it.  A request that is resolved to the fully
    irregular mode and carries the paired form (coordinates, grid
    specification) on the input side is rejected: the call raises the
    exception that says that a grid on in_ax is not supported, before
    anything is gridded.  *)
Theorem paired_input_side_is_rejected r w c :
  fst (run (setup r) w) = OK c ->
  c_mode c = MODE_II ->
  is_type (in_ax r) TTuple = true ->
  exists w', run (gfft oracle r) w = (Raise (Exception in_ax_grid_unsupported), w')
             /\ heap w' = heap w /\ only_diagnostics w w'.
Proof.
  unfold run. intros Hs Hm Ht.
  destruct (gfft_setup_ok oracle r w c Hs) as (l & Hl & Hrun).
  exists (snd (setup r w)).
  split; [|split; [apply setup_heap | apply setup_diagnostics]].
  unfold run in Hrun. rewrite Hrun, Hm. unfold mode_ii.
  rewrite Ht. reflexivity.
Qed.

(** C5.  With an empty in_ax the request is classified as regular to
    regular with as many dimensions as the input array has, whatever
    out_ax is; an out_ax that is not empty only adds a warning; and when
    the rest of the configuration is accepted the call runs the regular
    to regular pipeline. *)
Theorem empty_in_ax_is_regular_to_regular r w l a :
  inp r = PArr l ->
  heap w !! l = Some a ->
  len (in_ax r) = 0 ->
  run (classify r) w
  = (OK (MODE_RR, ndim a),
     if len (out_ax r) =? 0 then w else log (EWarn warn_out_ax_ignored) w)
  /\ forall c, fst (run (setup r) w) = OK c ->
       c_mode c = MODE_RR /\ c_N c = ndim a
       /\ run (gfft oracle r) w = run (mode_rr oracle r c l) (snd (run (setup r) w)).
Proof.
  unfold run. intros Hi Hl H0.
  assert (Hc : classify r w
               = (OK (MODE_RR, ndim a),
                  if len (out_ax r) =? 0 then w
                  else log (EWarn warn_out_ax_ignored) w)).
  { unfold classify. rewrite H0, Hi. cbn [Nat.eqb array_ref].
    unfold bind, ret, deref. rewrite Hl.
    destruct (len (out_ax r) =? 0); reflexivity. }
  split; [exact Hc|].
  intros c Hs.
  destruct (gfft_setup_ok oracle r w c Hs) as (l' & Hl' & Hrun).
  rewrite Hi in Hl'. injection Hl' as <-.
  rewrite setup_result in Hs.
  destruct (validate r) as [[]|]; [|discriminate].
  rewrite select_mode_result, Hc in Hs. cbn [fst] in Hs.
  destruct (check_dimensions (MODE_RR, ndim a)) as [mN|] eqn:Hd; [|discriminate].
  assert (mN = (MODE_RR, ndim a)) as ->.
  { unfold check_dimensions in Hd.
    destruct (snd (MODE_RR, ndim a) =? 0); [discriminate|].
    destruct (_ && _); [discriminate|]. congruence. }
  destruct (resolve_config_fields _ _ _ Hs) as [HN Hm].
  assert (Hm' : c_mode c = MODE_RR) by (destruct Hm; assumption).
  split; [exact Hm'|]. split; [exact HN|].
  unfold run in Hrun. rewrite Hrun, Hm'. reflexivity.
Qed.

End Failures.

Lemma gridding_needs_at_most_three_dimensions_witness :
  exists w',
    run (gfft Sample.collaborator Sample.ir_4d) Sample.store
    = (Raise (Exception unsupported_dimensions), w')
    /\ heap w' = heap Sample.store /\ only_diagnostics Sample.store w'.
Proof.
  apply (proj1 (gridding_needs_at_most_three_dimensions
                  Sample.collaborator Sample.ir_4d Sample.store MODE_IR 4
                  eq_refl eq_refl)).
  - discriminate.
  - lia.
Defined.

Lemma wrong_length_fails_before_any_work_witness :
  exists msg w',
    run (gfft Sample.collaborator Sample.ir_1d_two_flags) Sample.store
    = (Raise (Exception msg), w')
    /\ In msg length_messages
    /\ heap w' = heap Sample.store /\ only_diagnostics Sample.store w'.
Proof.
  apply (wrong_length_fails_before_any_work
           Sample.collaborator Sample.ir_1d_two_flags Sample.store MODE_IR 1);
    reflexivity.
Defined.

Lemma paired_input_side_is_rejected_witness :
  exists w',
    run (gfft Sample.collaborator Sample.ii_2d_in) Sample.store
    = (Raise (Exception in_ax_grid_unsupported), w')
    /\ heap w' = heap Sample.store /\ only_diagnostics Sample.store w'.
Proof.
  eapply (paired_input_side_is_rejected Sample.collaborator Sample.ii_2d_in Sample.store).
  - vm_compute. reflexivity.
  - reflexivity.
  - reflexivity.
Defined.

(** C1 as the specification words it does not hold: the request with the
    paired form on the input side and a plain coordinate list on the output
    side returns no array. *)
Lemma paired_input_side_counterexample :
  ~ exists l w',
      run (gfft Sample.collaborator Sample.ii_2d_in) Sample.store = (OK l, w').
Proof. intros (l & w' & H). vm_compute in H. discriminate. Qed.

Lemma empty_in_ax_is_regular_to_regular_witness :
  run (classify Sample.rr_with_out_ax) Sample.store
  = (OK (MODE_RR, 2), log (EWarn warn_out_ax_ignored) Sample.store).
Proof.
  apply (proj1 (empty_in_ax_is_regular_to_regular
                  Sample.collaborator Sample.rr_with_out_ax Sample.store 1
                  Sample.field eq_refl eq_refl eq_refl)).
Defined.

(** ** Requests without a transformation *)

Section NoDirection.

Context {E : Type} (oracle : string -> list (arg E) -> result (ndarray E)).
Implicit Types (w : world E) (r : request) (a : ndarray E).

(** What [setup] resolves when no transformation is requested. *)
Lemma setup_no_direction r w c :
  fst (setup r w) = OK c -> no_direction (ftmachine r) = true ->
  c_mode c = MODE_RR /\ do_fft c = false /\ do_ifft c = false
  /\ 0 < c_N c
  /\ resolve_shift (in_zero_center r) (c_N c)
       "in_zero_center is a list with invalid length"
     = OK (do_preshift c, preshift_axes c)
  /\ resolve_shift (out_zero_center r) (c_N c)
       "out_zero_center is a list with invalid length"
     = OK (do_postshift c, postshift_axes c).
Proof.
  intros Hs Hn.
  destruct (setup_ok_inv r w c Hs) as (mN & _ & HN & Hc).
  destruct (resolve_config_inv _ _ _ Hc)
    as (d & pre & post & Hd & Hpre & Hpost & Hm & HcN & Hf & Hi & P1 & P2 & P3 & P4).
  rewrite (resolve_ftmachine_none _ _ _ Hn Hd) in Hm, Hf, Hi. cbn in Hm, Hf, Hi.
  rewrite HcN, P1, P2, P3, P4, Hpre, Hpost.
  destruct pre, post. repeat split; assumption.
Qed.

Lemma gfft_shift_only r w c l a a1 a2 :
  fst (setup r w) = OK c -> inp r = PArr l -> heap w !! l = Some a ->
  no_direction (ftmachine r) = true ->
  shifted (do_preshift c) (preshift_axes c) a = OK a1 ->
  shifted (do_postshift c) (postshift_axes c) a1 = OK a2 ->
  exists l' w', run (gfft oracle r) w = (OK l', w')
                /\ heap w' !! l' = Some a2 /\ length (heap w) <= l'.
Proof.
  intros Hs Hi Hl Hn H1 H2.
  destruct (setup_no_direction r w c Hs Hn) as (Hm & Hf & Hif & _).
  destruct (gfft_setup_ok oracle r w c Hs) as (l0 & Hl0 & Hrun).
  rewrite Hi in Hl0. injection Hl0 as <-. rewrite Hm in Hrun.
  rewrite <- (setup_heap r w) in Hl.
  destruct (mode_rr_shift_only oracle r c l _ a a1 a2 Hf Hif Hl H1 H2)
    as (l' & w' & R & L & G).
  exists l', w'. rewrite Hrun. unfold run. rewrite R, <- (setup_heap r w).
  auto.
Qed.

(** C4.  When no transformation is requested on any axis, the mode is
    regular to regular whatever the axes say, and the call returns the
    input shifted before and after a copy.  With zero-centring requested
    on exactly one axis [k], on the input side or on the output side, the
    returned array is the input rotated by half its length along axis [k]
    and along no other axis. *)
Theorem no_direction_is_shift_only r w c l a :
  fst (run (setup r) w) = OK c ->
  inp r = PArr l ->
  heap w !! l = Some a ->
  no_direction (ftmachine r) = true ->
  c_mode c = MODE_RR
  /\ (forall a1 a2,
        shifted (do_preshift c) (preshift_axes c) a = OK a1 ->
        shifted (do_postshift c) (postshift_axes c) a1 = OK a2 ->
        exists l' w', run (gfft oracle r) w = (OK l', w')
                      /\ heap w' !! l' = Some a2)
  /\ (forall k,
        k < c_N c -> k < ndim a ->
        (in_zero_center r = one_axis (c_N c) k
         /\ no_axis (c_N c) (out_zero_center r))
        \/ (no_axis (c_N c) (in_zero_center r)
            /\ out_zero_center r = one_axis (c_N c) k) ->
        exists l' w',
          run (gfft oracle r) w = (OK l', w')
          /\ heap w' !! l'
             = Some (mk_ndarray (ndim a) (roll_axis (ndim a) k (body a)))).
Proof.
  unfold run. intros Hs Hi Hl Hn.
  destruct (setup_no_direction r w c Hs Hn) as (Hm & _ & _ & _ & Hpre & Hpost).
  split; [exact Hm|]. split.
  - intros a1 a2 H1 H2.
    destruct (gfft_shift_only r w c l a a1 a2 Hs Hi Hl Hn H1 H2)
      as (l' & w' & R & L & _).
    exists l', w'. auto.
  - intros k HkN Hka Hz.
    assert (Hsh : exists a1,
               shifted (do_preshift c) (preshift_axes c) a = OK a1
               /\ shifted (do_postshift c) (postshift_axes c) a1
                  = OK (mk_ndarray (ndim a) (roll_axis (ndim a) k (body a)))).
    { destruct Hz as [[Hin Hout] | [Hin Hout]].
      - rewrite Hin, resolve_shift_one in Hpre by exact HkN.
        rewrite (resolve_shift_none _ _ _ Hout) in Hpost.
        injection Hpre as <- <-. injection Hpost as <- <-.
        eexists. split; [apply fftshift_one; exact Hka | reflexivity].
      - rewrite (resolve_shift_none _ _ _ Hin) in Hpre.
        rewrite Hout, resolve_shift_one in Hpost by exact HkN.
        injection Hpre as <- <-. injection Hpost as <- <-.
        exists a. split; [reflexivity | apply fftshift_one; exact Hka]. }
    destruct Hsh as (a1 & H1 & H2).
    destruct (gfft_shift_only r w c l a a1 _ Hs Hi Hl Hn H1 H2)
      as (l' & w' & R & L & _).
    exists l', w'. auto.
Qed.

(** C7.  A regular to regular call without a transformation and with
    zero-centring of every axis on the input and on the output returns a
    new array equal to the input, provided every axis of the input has
    even length: the shift before and the shift after are the same
    half-length rotation, which undoes itself. *)
Theorem shift_there_and_back_is_identity r w c l a :
  fst (run (setup r) w) = OK c ->
  inp r = PArr l ->
  heap w !! l = Some a ->
  len (in_ax r) = 0 ->
  no_direction (ftmachine r) = true ->
  every_axis (c_N c) (in_zero_center r) ->
  every_axis (c_N c) (out_zero_center r) ->
  all_even (ndim a) (body a) = true ->
  exists l' w',
    run (gfft oracle r) w = (OK l', w')
    /\ heap w' !! l' = Some a
    /\ length (heap w) <= l'.
Proof.
  unfold run. intros Hs Hi Hl H0 Hn Hin Hout He.
  destruct (setup_no_direction r w c Hs Hn) as (_ & _ & _ & HN & Hpre & Hpost).
  destruct (setup_empty_in_ax r w l a c Hi Hl H0 Hs) as [_ HNa].
  assert (Hsh : exists a1,
             shifted (do_preshift c) (preshift_axes c) a = OK a1
             /\ shifted (do_postshift c) (postshift_axes c) a1 = OK a).
  { destruct (resolve_shift_every _ _ "in_zero_center is a list with invalid length"
                HN Hin) as [R1 | R1];
    destruct (resolve_shift_every _ _ "out_zero_center is a list with invalid length"
                HN Hout) as [R2 | R2];
    rewrite R1 in Hpre; rewrite R2 in Hpost;
    injection Hpre as <- <-; injection Hpost as <- <-; rewrite ?HNa; cbn [shifted].
    - apply fftshift_every_twice; auto.
    - destruct a as [n t]; cbn [ndim body] in *.
      exists (mk_ndarray n (shift_axes n (seq 0 n) t)). unfold fftshift; cbn [ndim body].
      rewrite forallb_seq_lt, shift_axes_twice by exact He. split; reflexivity.
    - destruct a as [n t]; cbn [ndim body] in *.
      exists (mk_ndarray n (shift_axes n (seq 0 n) t)). unfold fftshift; cbn [ndim body].
      rewrite forallb_seq_lt, shift_axes_twice by exact He. split; reflexivity.
    - apply fftshift_every_twice; auto. }
  destruct Hsh as (a1 & H1 & H2).
  apply (gfft_shift_only r w c l a a1 a Hs Hi Hl Hn H1 H2).
Qed.

End NoDirection.

Lemma no_direction_is_shift_only_witness :
  exists l' w',
    run (gfft Sample.collaborator Sample.shift_second_axis) Sample.store = (OK l', w')
    /\ heap w' !! l'
       = Some (mk_ndarray 2 ([[3; 1; 2]; [6; 4; 5]]%Z : tensor Z 2)).
Proof.
  destruct (no_direction_is_shift_only
              Sample.collaborator Sample.shift_second_axis Sample.store _ 2
              Sample.odd_field eq_refl eq_refl eq_refl eq_refl) as (_ & _ & H).
  apply (H 1).
  - cbn. lia.
  - cbn. lia.
  - left. split; [reflexivity | left; reflexivity].
Defined.

Lemma shift_there_and_back_is_identity_witness :
  exists l' w',
    run (gfft Sample.collaborator Sample.shift_there_and_back) Sample.store = (OK l', w')
    /\ heap w' !! l' = Some Sample.field
    /\ length (heap Sample.store) <= l'.
Proof.
  apply (shift_there_and_back_is_identity
           Sample.collaborator Sample.shift_there_and_back Sample.store _ 1
           Sample.field eq_refl eq_refl eq_refl eq_refl eq_refl).
  - left. reflexivity.
  - left. reflexivity.
  - reflexivity.
Defined.

(** ** The store across a call *)

Section Frame.

Context {E : Type} (oracle : string -> list (arg E) -> result (ndarray E)).

(** C8.  Whatever the request and whether the call returns or raises,
    every array that was in the store before the call is in it
    afterwards with the same contents, which covers the input field and
    the coordinate arrays of in_ax and out_ax; an array that the call
    returns is a new one; and the result and the store after the call do
    not depend on what earlier calls have left in the trace.  The
    collaborators are functions of the values of their arguments. *)
Theorem call_leaves_inputs_unchanged (r : request) (w : world E) :
  (forall l, l < length (heap w) ->
     heap (snd (run (gfft oracle r) w)) !! l = heap w !! l)
  /\ length (heap w) <= length (heap (snd (run (gfft oracle r) w)))
  /\ (forall l, fst (run (gfft oracle r) w) = OK l -> length (heap w) <= l)
  /\ (forall w2, heap w2 = heap w ->
        fst (run (gfft oracle r) w2) = fst (run (gfft oracle r) w)
        /\ heap (snd (run (gfft oracle r) w2)) = heap (snd (run (gfft oracle r) w))).
Proof.
  unfold run.
  destruct (gfft_framed oracle (length (heap w)) r w (Nat.le_refl _))
    as [[H1 H2] H3].
  split; [exact H2|]. split; [exact H1|]. split; [exact H3|].
  intros w2 Hw. apply gfft_stateless. exact Hw.
Qed.

End Frame.

(** ** The working grid and the gridding parameters *)

Section WorkingGrid.

Lemma Qtrunc_floor q : (0 <= q)%Q -> Num.Qtrunc q = Qfloor q.
Proof.
  destruct q as [n d]. unfold Num.Qtrunc, Qfloor, Qle. cbn. intros H.
  apply Z.quot_div_nonneg; lia.
Qed.

(** Where the source writes [int(alpha*Nx)] or [int(Nx*alpha)], the
    working grid has [floor(alpha*Nx)] pixels. *)
Lemma working_size_is_floor s a n :
  s = IntAlphaN \/ s = IntNAlpha ->
  (0 <= Num.to_Q a * Num.to_Q n)%Q ->
  working_size s a n = NInt (Qfloor (Num.to_Q a * Num.to_Q n)).
Proof.
  intros Hs H.
  assert (Hc : (Num.to_Q n * Num.to_Q a == Num.to_Q a * Num.to_Q n)%Q) by ring.
  assert (Hint : forall x y : Z, Qfloor (inject_Z x * inject_Z y) = (x * y)%Z).
  { intros x y. rewrite <- inject_Z_mult. apply Qfloor_Z. }
  destruct Hs as [-> | ->]; unfold working_size, Num.mul, Num.int, Num.float;
    destruct a as [x|x], n as [y|y]; cbn [Num.to_Q] in *;
    rewrite ?Hint; try reflexivity; try (f_equal; apply Z.mul_comm);
    f_equal; rewrite Qtrunc_floor by (rewrite Qred_correct, ?Hc; exact H);
    rewrite Qred_correct, ?Hc; reflexivity.
Qed.

(** With two or three axes the fully irregular mode hands [W, alpha] to
    [grid_Nd] where every other call hands [alpha, W]. *)
Lemma ii_grid_parameters_order {E} N a w :
  2 <= N -> @ii_grid_parameters E N a w = [ANum w; ANum a].
Proof.
  intros H. unfold ii_grid_parameters.
  destruct (Nat.eqb_spec N 1); [lia | reflexivity].
Qed.

End WorkingGrid.

(** C2 at the failing request: irregular to irregular on two axes, grid of
    4 by 3 pixels, alpha = 1.5.  The working grid of the second axis is
    handed to [grid_2d] as the float 4.5, not as floor(1.5 * 3) = 4; the
    irregular to regular call with the same grid hands over 4. *)
Theorem ii_working_grid_size_is_not_floored :
  (exists args,
     grid_call 2 (trace (snd (run (gfft Sample.collaborator Sample.ii_2d) Sample.store)))
     = Some args
     /\ args !! 4 = Some (ANum (NInt 6))
     /\ args !! 7 = Some (ANum (NFloat (9 # 2))))
  /\ Qfloor ((3 # 2) * 3) = 4%Z
  /\ (exists args,
        grid_call 2 (trace (snd (run (gfft Sample.collaborator Sample.ir_2d) Sample.store)))
        = Some args
        /\ args !! 7 = Some (ANum (NInt 4))).
Proof.
  split; [|split].
  - eexists. split; [vm_compute; reflexivity|]. split; reflexivity.
  - reflexivity.
  - eexists. split; [vm_compute; reflexivity|]. reflexivity.
Qed.

(** C9 at the failing request: with W = 6 and alpha = 1.5 the irregular to
    regular call hands (alpha, W) to [grid_2d] in the tenth and eleventh
    position, the irregular to irregular call hands (W, alpha). *)
Theorem ii_swaps_the_gridding_parameters :
  (exists args,
     grid_call 2 (trace (snd (run (gfft Sample.collaborator Sample.ir_2d) Sample.store)))
     = Some args
     /\ args !! 9 = Some (ANum (NFloat (3 # 2)))
     /\ args !! 10 = Some (ANum (NInt 6)))
  /\ (exists args,
        grid_call 2 (trace (snd (run (gfft Sample.collaborator Sample.ii_2d) Sample.store)))
        = Some args
        /\ args !! 9 = Some (ANum (NInt 6))
        /\ args !! 10 = Some (ANum (NFloat (3 # 2)))).
Proof.
  split.
  - eexists. split; [vm_compute; reflexivity|]. split; reflexivity.
  - eexists. split; [vm_compute; reflexivity|]. split; reflexivity.
Qed.

(** ** The brute-force transforms *)

Module OracleFacts.

Import Oracle.
#[local] Open Scope R_scope.

Lemma Cconj_involutive x : Cconj (Cconj x) = x.
Proof. destruct x as [a b]. unfold Cconj. cbn. f_equal. apply Ropp_involutive. Qed.

Lemma Cconj_add x y : Cconj (Cadd x y) = Cadd (Cconj x) (Cconj y).
Proof. unfold Cconj, Cadd. cbn. f_equal. ring. Qed.

Lemma Cconj_mul x y : Cconj (Cmul x y) = Cmul (Cconj x) (Cconj y).
Proof. unfold Cconj, Cmul. cbn. f_equal; ring. Qed.

Lemma Cconj_div x n : Cconj (Cdiv_nat x n) = Cdiv_nat (Cconj x) n.
Proof. unfold Cconj, Cdiv_nat. cbn. f_equal. unfold Rdiv. ring. Qed.

Lemma Cconj_0 : Cconj C0 = C0.
Proof. unfold Cconj, C0. cbn. f_equal. apply Ropp_0. Qed.

Lemma nth_conj j (v : list C) : nth j (map Cconj v) C0 = Cconj (nth j v C0).
Proof. rewrite <- Cconj_0 at 1. apply map_nth. Qed.

(** The conjugate of the exponential is the exponential of the opposite
    phase. *)
Lemma Cconj_cis x : Cconj (cos (- x), sin (- x)) = (cos x, sin x).
Proof.
  unfold Cconj. cbn. rewrite cos_neg, sin_neg, Ropp_involutive. reflexivity.
Qed.

Lemma fold_left_pointwise {A B} (f g : A -> B -> A) l : forall i,
  (forall acc x, f acc x = g acc x) -> fold_left f l i = fold_left g l i.
Proof.
  induction l as [|x l IH]; intros i H; [reflexivity|].
  cbn. rewrite H. apply IH. exact H.
Qed.

Lemma check_axes_ok nin nout : forall a b : list (list R),
  forallb (fun x => (length x =? nin)%nat) a = true ->
  forallb (fun y => (length y =? nout)%nat) b = true ->
  check_axes nin nout (combine a b) = OK tt.
Proof.
  induction a as [|x a IH]; intros b Ha Hb; [reflexivity|].
  destruct b as [|y b]; [reflexivity|].
  cbn in Ha, Hb. apply andb_prop in Ha, Hb. destruct Ha as [Hx Ha], Hb as [Hy Hb].
  cbn [combine check_axes]. rewrite Hx, Hy. cbn [negb]. apply IH; assumption.
Qed.

Lemma matching_inv v a b :
  matching v a b = true ->
  (length b =? length a)%nat = true
  /\ (exists out0 rest, b = out0 :: rest)
  /\ check_axes (length v) (length (nth 0 b [])) (combine a b) = OK tt.
Proof.
  unfold matching. intros H.
  apply andb_prop in H. destruct H as [H Hb].
  apply andb_prop in H. destruct H as [H Ha].
  apply andb_prop in H. destruct H as [Hl Hn].
  split; [exact Hl|]. split.
  - destruct b as [|out0 rest]; [|eauto].
    apply Nat.eqb_eq in Hl. cbn in Hl. rewrite <- Hl in Hn. discriminate.
  - apply check_axes_ok; assumption.
Qed.

Lemma dft_direct_sum v a b :
  matching v a b = true -> dft v a b = OK (direct_sum (-1) v a b).
Proof.
  intros H. destruct (matching_inv v a b H) as (Hl & (out0 & rest & ->) & Hc).
  unfold dft, direct_sum. rewrite Hl. cbn [negb nth] in *. rewrite Hc.
  f_equal. rewrite map_map. apply map_ext. intros i. f_equal.
  apply fold_left_pointwise. intros acc j. cbn zeta.
  replace (-2 * PI * psum a (out0 :: rest) i j)
    with (-1 * (2 * PI * psum a (out0 :: rest) i j)) by ring.
  reflexivity.
Qed.

Lemma idft_direct_sum v a b :
  matching v a b = true -> idft v a b = OK (direct_sum 1 v a b).
Proof.
  intros H. destruct (matching_inv v a b H) as (Hl & (out0 & rest & ->) & Hc).
  unfold idft, direct_sum. rewrite Hl. cbn [negb nth] in *. rewrite Hc.
  f_equal. rewrite map_map. apply map_ext. intros i. f_equal.
  apply fold_left_pointwise. intros acc j. cbn zeta.
  rewrite !Rmult_1_l. reflexivity.
Qed.

Lemma conj_sum s (v : list C) (p : nat -> R) l : forall acc,
  Cconj (fold_left
           (fun val j =>
              Cadd val (Cmul (nth j (map Cconj v) C0)
                          (cos (- s * p j), sin (- s * p j))))
           l acc)
  = fold_left
      (fun val j => Cadd val (Cmul (nth j v C0) (cos (s * p j), sin (s * p j))))
      l (Cconj acc).
Proof.
  induction l as [|j l IH]; intros acc; [reflexivity|].
  cbn [fold_left]. rewrite IH. f_equal.
  rewrite Cconj_add, Cconj_mul, nth_conj, Cconj_involutive.
  replace (- s * p j) with (- (s * p j)) by ring.
  rewrite Cconj_cis. reflexivity.
Qed.

Lemma direct_sum_conj s v a b :
  direct_sum s v a b = map Cconj (direct_sum (- s) (map Cconj v) a b).
Proof.
  unfold direct_sum. rewrite map_map, length_map. apply map_ext. intros i.
  rewrite Cconj_div. f_equal. cbn zeta.
  rewrite (conj_sum s v (fun j => 2 * PI * psum a b i j)).
  rewrite Cconj_0. reflexivity.
Qed.

Lemma matching_conj v a b : matching (map Cconj v) a b = matching v a b.
Proof. unfold matching. rewrite length_map. reflexivity. Qed.

(** C10.  For input values with matching axis lists, [dft] and [idft]
    are the same sum with the opposite sign of the phase, both divided by
    the number of input values, and [idft] of the values is the
    conjugate of [dft] of the conjugated values. *)
Theorem idft_is_conjugate_of_dft v a b :
  v <> [] ->
  matching v a b = true ->
  dft v a b = OK (direct_sum (-1) v a b)
  /\ idft v a b = OK (direct_sum 1 v a b)
  /\ idft v a b = result_map (map Cconj) (dft (map Cconj v) a b).
Proof.
  intros _ H. split; [apply dft_direct_sum; exact H|].
  split; [apply idft_direct_sum; exact H|].
  rewrite idft_direct_sum by exact H.
  rewrite dft_direct_sum by (rewrite matching_conj; exact H).
  cbn [result_map]. f_equal.
  rewrite (direct_sum_conj 1). reflexivity.
Qed.

Lemma idft_is_conjugate_of_dft_witness :
  idft [(1, 0); (0, 1)] [[0; 1]] [[0; 1; 2]]
  = result_map (map Cconj) (dft (map Cconj [(1, 0); (0, 1)]) [[0; 1]] [[0; 1; 2]]).
Proof.
  apply (idft_is_conjugate_of_dft [(1, 0); (0, 1)] [[0; 1]] [[0; 1; 2]]).
  - discriminate.
  - reflexivity.
Defined.

End OracleFacts.

(** * Further properties *)

(** ** The resolved axis lists *)

Section AxisLists.

Lemma indices_In p N k : In k (indices p N) <-> k < N /\ p k = true.
Proof.
  unfold indices. rewrite filter_In, in_seq. intuition lia.
Qed.

Lemma filter_seq_sorted p n : forall s,
  StronglySorted lt (List.filter p (seq s n)).
Proof.
  induction n as [|n IH]; intros s; cbn; [constructor|].
  destruct (p s); [|apply IH].
  constructor; [apply IH|].
  apply List.Forall_forall. intros k Hk. apply filter_In in Hk.
  destruct Hk as [Hk _]. apply in_seq in Hk. lia.
Qed.

Lemma indices_sorted p N : StronglySorted lt (indices p N).
Proof. apply filter_seq_sorted. Qed.

Lemma existsb_nth (f : pyobj -> bool) xs :
  existsb f xs = true <-> exists k, k < length xs /\ f (nth k xs PNone) = true.
Proof.
  rewrite existsb_exists. split.
  - intros (x & Hx & Hf). destruct (In_nth xs x PNone Hx) as (k & Hk & <-). eauto.
  - intros (k & Hk & Hf). exists (nth k xs PNone). split; [apply nth_In; exact Hk | exact Hf].
Qed.

Lemma filter_shift (f : nat -> bool) (g : nat -> bool) s n :
  (forall k, S s <= k -> f k = g k) ->
  List.filter f (seq (S s) n) = List.filter g (seq (S s) n).
Proof.
  intros H. apply filter_ext_in. intros k Hk. apply in_seq in Hk. apply H. lia.
Qed.

Lemma shift_fold_indices xs : forall s b l0,
  fold_left shift_step (combine (seq s (length xs)) xs) (b, Some l0)
  = (b || existsb truthy xs,
     Some (l0 ++ List.filter (fun k => flagged xs (k - s)) (seq s (length xs)))).
Proof.
  induction xs as [|x xs IH]; intros s b l0.
  - cbn. rewrite orb_false_r, app_nil_r. reflexivity.
  - cbn [length seq combine fold_left List.filter existsb].
    unfold shift_step at 2. cbn [fst snd]. unfold flagged at 1.
    rewrite Nat.sub_diag. cbn [nth].
    rewrite (filter_shift (fun k => flagged (x :: xs) (k - s))
               (fun k => flagged xs (k - S s))).
    2:{ intros k Hk. unfold flagged.
        replace (k - s) with (S (k - S s)) by lia. reflexivity. }
    destruct (truthy x); cbn [add_axis option_map].
    + rewrite IH. cbn [orb]. rewrite <- app_assoc. cbn [app].
      rewrite orb_true_r. reflexivity.
    + rewrite IH. cbn [orb]. reflexivity.
Qed.

Lemma resolve_shift_list xs N msg flag axes :
  resolve_shift (PList xs) N msg = OK (flag, axes) ->
  length xs = N /\ axes = Some (indices (flagged xs) N) /\ flag = existsb truthy xs.
Proof.
  unfold resolve_shift, enumerate, len. cbn [is_type type_of pytype_eqb items].
  destruct (Nat.eqb_spec (length xs) N) as [HN|]; [|discriminate]. cbn [negb].
  rewrite shift_fold_indices. cbn [orb app]. intros [= <- <-].
  split; [exact HN|]. split; [|reflexivity].
  unfold indices. rewrite <- HN. f_equal. apply filter_ext. intros k.
  rewrite Nat.sub_0_r. reflexivity.
Qed.

(** X5.  The axes that [resolve_shift] lists.  The sentinel [None] is
    given for the scalar [True] only.  For a list of flags the axes are
    those whose flag is set, each once and in increasing order, all below
    [N]; and the flag that says whether to shift at all is set exactly
    when the list of axes is not empty. *)
Theorem shifted_axes_are_the_flagged_ones zc N msg flag axes :
  resolve_shift zc N msg = OK (flag, axes) ->
  (axes = None <-> zc = PBool true)
  /\ (axes = None -> flag = true)
  /\ forall l, axes = Some l ->
       StronglySorted lt l
       /\ (forall k, In k l <->
                     k < N /\ is_type zc TList = true /\ flagged (items zc) k = true)
       /\ (flag = true <-> l <> []).
Proof.
  intros H. destruct zc as [| b | | | | | xs |];
    try (cbn in H; injection H as <- <-;
         split; [split; discriminate|]; split; [discriminate|];
         intros l0 [= <-]; split; [constructor|];
         split; [intros k; cbn; intuition discriminate | intuition discriminate]).
  - destruct b; cbn in H; injection H as <- <-.
    + split; [split; reflexivity|]. split; [reflexivity|]. discriminate.
    + split; [split; discriminate|]. split; [discriminate|].
      intros l [= <-]. split; [constructor|].
      split; [intros k; cbn; intuition discriminate | intuition discriminate].
  - destruct (resolve_shift_list xs N msg flag axes H) as (HN & -> & ->).
    split; [split; discriminate|]. split; [discriminate|].
    intros l [= <-]. split; [apply indices_sorted|]. split.
    + intros k. rewrite indices_In. cbn [items]. intuition.
    + rewrite existsb_nth. split.
      * intros (k & Hk & Hf) He.
        assert (Hin : In k (indices (flagged xs) N))
          by (apply indices_In; split; [lia | exact Hf]).
        rewrite He in Hin. exact Hin.
      * intros Hne. destruct (indices (flagged xs) N) as [|k l'] eqn:He; [congruence|].
        assert (Hin : In k (indices (flagged xs) N)) by (rewrite He; left; reflexivity).
        apply indices_In in Hin. exists k. split; [lia | apply Hin].
Qed.

End AxisLists.

Lemma shifted_axes_are_the_flagged_ones_witness :
  StronglySorted lt [0; 2]
  /\ (forall k, In k [0; 2] <->
        k < 3 /\ is_type (PList [PBool true; PBool false; PBool true]) TList = true
        /\ flagged [PBool true; PBool false; PBool true] k = true)
  /\ (true = true <-> [0; 2] <> []).
Proof.
  apply (proj2 (proj2 (shifted_axes_are_the_flagged_ones
                         (PList [PBool true; PBool false; PBool true]) 3 "" true
                         (Some [0; 2]) eq_refl)) [0; 2] eq_refl).
Defined.

(** ** The resolved directions *)

Section Directions.

Lemma fft_is_not_ifft s : String.eqb s FTM_FFT = true -> String.eqb s FTM_IFFT = false.
Proof. intros H. apply String.eqb_eq in H. subst s. reflexivity. Qed.

Lemma reads_head name x xs s :
  reads name (x :: xs) (s - s) = String.eqb (lower (as_str x)) name.
Proof. unfold reads. rewrite Nat.sub_diag. reflexivity. Qed.

Lemma ftmachine_fold_indices xs : forall s b1 b2 l1 l2,
  fold_left ftmachine_step (combine (seq s (length xs)) xs)
    (mk_directions b1 b2 (Some l1) (Some l2))
  = mk_directions
      (b1 || existsb (fun x => String.eqb (lower (as_str x)) FTM_FFT) xs)
      (b2 || existsb (fun x => String.eqb (lower (as_str x)) FTM_IFFT) xs)
      (Some (l1 ++ List.filter (fun k => reads FTM_FFT xs (k - s)) (seq s (length xs))))
      (Some (l2 ++ List.filter (fun k => reads FTM_IFFT xs (k - s)) (seq s (length xs)))).
Proof.
  induction xs as [|x xs IH]; intros s b1 b2 l1 l2.
  - cbn. rewrite !orb_false_r, !app_nil_r. reflexivity.
  - cbn [length seq combine fold_left List.filter existsb].
    unfold ftmachine_step at 2. cbn [fst snd d_do_fft d_do_ifft d_fftaxes d_ifftaxes].
    rewrite !reads_head.
    rewrite (filter_shift (fun k => reads FTM_FFT (x :: xs) (k - s))
               (fun k => reads FTM_FFT xs (k - S s))).
    2:{ intros k Hk. unfold reads.
        replace (k - s) with (S (k - S s)) by lia. reflexivity. }
    rewrite (filter_shift (fun k => reads FTM_IFFT (x :: xs) (k - s))
               (fun k => reads FTM_IFFT xs (k - S s))).
    2:{ intros k Hk. unfold reads.
        replace (k - s) with (S (k - S s)) by lia. reflexivity. }
    destruct (String.eqb (lower (as_str x)) FTM_FFT) eqn:Hf.
    + rewrite (fft_is_not_ifft _ Hf). cbn [add_axis option_map].
      rewrite IH, <- app_assoc. cbn [app orb]. rewrite orb_true_r. reflexivity.
    + destruct (String.eqb (lower (as_str x)) FTM_IFFT) eqn:Hi.
      * cbn [add_axis option_map].
        rewrite IH, <- app_assoc. cbn [app orb]. rewrite orb_true_r. reflexivity.
      * rewrite IH. cbn [orb]. reflexivity.
Qed.

Lemma resolve_ftmachine_list xs N d :
  resolve_ftmachine (PList xs) N = OK d ->
  length xs = N
  /\ d = mk_directions
           (existsb (fun x => String.eqb (lower (as_str x)) FTM_FFT) xs)
           (existsb (fun x => String.eqb (lower (as_str x)) FTM_IFFT) xs)
           (Some (indices (reads FTM_FFT xs) N))
           (Some (indices (reads FTM_IFFT xs) N)).
Proof.
  unfold resolve_ftmachine, enumerate, len. cbn [is_type type_of pytype_eqb items].
  destruct (Nat.eqb_spec (length xs) N) as [HN|]; [|discriminate]. cbn [negb].
  rewrite ftmachine_fold_indices. cbn [orb app]. intros [= <-].
  split; [exact HN|]. unfold indices. rewrite <- HN.
  f_equal; f_equal; apply filter_ext; intros k; rewrite Nat.sub_0_r; reflexivity.
Qed.

Lemma indices_nil p N : indices p N = [] <-> forall k, k < N -> p k = false.
Proof.
  split.
  - intros He k Hk. destruct (p k) eqn:Hp; [|reflexivity].
    assert (Hin : In k (indices p N)) by (apply indices_In; auto).
    rewrite He in Hin. destruct Hin.
  - intros H. destruct (indices p N) as [|k l] eqn:He; [reflexivity|].
    assert (Hin : In k (indices p N)) by (rewrite He; left; reflexivity).
    apply indices_In in Hin. destruct Hin as [Hk Hp]. rewrite (H k Hk) in Hp.
    discriminate.
Qed.

Lemma existsb_reads name xs :
  existsb (fun x => String.eqb (lower (as_str x)) name) xs = true
  <-> indices (reads name xs) (length xs) <> [].
Proof.
  rewrite existsb_nth. split.
  - intros (k & Hk & Hf) He. rewrite indices_nil in He.
    unfold reads in He. rewrite (He k Hk) in Hf. discriminate.
  - intros Hne. destruct (indices (reads name xs) (length xs)) as [|k l] eqn:He;
      [congruence|].
    assert (Hin : In k (indices (reads name xs) (length xs)))
      by (rewrite He; left; reflexivity).
    apply indices_In in Hin. exists k. exact Hin.
Qed.

Lemma no_direction_list xs :
  no_direction (PList xs)
  = negb (existsb (fun x => String.eqb (lower (as_str x)) FTM_FFT) xs)
    && negb (existsb (fun x => String.eqb (lower (as_str x)) FTM_IFFT) xs).
Proof.
  cbn [no_direction]. induction xs as [|x xs IH]; [reflexivity|].
  cbn [forallb existsb]. rewrite IH. unfold names_transform.
  destruct (String.eqb (lower (as_str x)) FTM_FFT),
    (String.eqb (lower (as_str x)) FTM_IFFT),
    (existsb (fun x => String.eqb (lower (as_str x)) FTM_FFT) xs),
    (existsb (fun x => String.eqb (lower (as_str x)) FTM_IFFT) xs); reflexivity.
Qed.

(** X6.  What [resolve_ftmachine] resolves.  The test of line 293 for
    "nothing requested" holds exactly when no entry reads fft or ifft.  A
    transform is flagged exactly when its axis list is not the empty
    list.  For a list of strings the fft axes and the ifft axes are the
    indices of the entries that read fft and ifft (in any case of
    letters), in increasing order, and no axis is in both. *)
Theorem directions_are_the_named_ones ftm N d :
  resolve_ftmachine ftm N = OK d ->
  nothing_requested d = no_direction ftm
  /\ (d_do_fft d = true <-> d_fftaxes d <> Some [])
  /\ (d_do_ifft d = true <-> d_ifftaxes d <> Some [])
  /\ forall xs, ftm = PList xs ->
       exists lf li,
         d_fftaxes d = Some lf /\ d_ifftaxes d = Some li
         /\ StronglySorted lt lf /\ StronglySorted lt li
         /\ (forall k, In k lf <-> k < N /\ reads FTM_FFT xs k = true)
         /\ (forall k, In k li <-> k < N /\ reads FTM_IFFT xs k = true)
         /\ (forall k, In k lf -> ~ In k li).
Proof.
  intros H. destruct ftm as [| | | | s | | xs |];
    try (cbn in H; injection H as <-; cbn;
         split; [reflexivity|]; split; [intuition congruence|];
         split; [intuition congruence|]; discriminate).
  - unfold resolve_ftmachine in H. cbn [is_type type_of pytype_eqb as_str] in H.
    unfold no_direction, names_transform. cbn [as_str].
    destruct (String.eqb (lower s) FTM_FFT) eqn:Hf.
    + rewrite (fft_is_not_ifft _ Hf). injection H as <-. cbn.
      split; [reflexivity|]. split; [intuition congruence|].
      split; [intuition congruence|]. discriminate.
    + destruct (String.eqb (lower s) FTM_IFFT); injection H as <-; cbn;
        (split; [reflexivity|]); (split; [intuition congruence|]);
        (split; [intuition congruence|]); discriminate.
  - destruct (resolve_ftmachine_list xs N d H) as [HN ->].
    cbn [d_do_fft d_do_ifft d_fftaxes d_ifftaxes].
    split; [|split; [|split]].
    + rewrite no_direction_list. unfold nothing_requested, is_empty_list.
      cbn [d_do_fft d_do_ifft d_fftaxes d_ifftaxes].
      pose proof (existsb_reads FTM_FFT xs) as Ef.
      pose proof (existsb_reads FTM_IFFT xs) as Ei.
      rewrite HN in Ef, Ei.
      destruct (existsb (fun x => String.eqb (lower (as_str x)) FTM_FFT) xs),
        (existsb (fun x => String.eqb (lower (as_str x)) FTM_IFFT) xs);
        destruct (indices (reads FTM_FFT xs) N), (indices (reads FTM_IFFT xs) N);
        cbn; try reflexivity;
        try (exfalso; apply (proj1 Ef); reflexivity);
        try (exfalso; apply (proj1 Ei); reflexivity).
    + rewrite existsb_reads, HN. split; congruence.
    + rewrite existsb_reads, HN. split; congruence.
    + intros xs' [= <-]. eexists _, _. split; [reflexivity|]. split; [reflexivity|].
      split; [apply indices_sorted|]. split; [apply indices_sorted|].
      split; [intros k; apply indices_In|]. split; [intros k; apply indices_In|].
      intros k Hf Hi. apply indices_In in Hf, Hi.
      destruct Hf as [_ Hf], Hi as [_ Hi]. unfold reads in Hf, Hi.
      rewrite (fft_is_not_ifft _ Hf) in Hi. discriminate.
Qed.

Lemma lower_ascii_idempotent c : lower_ascii (lower_ascii c) = lower_ascii c.
Proof.
  destruct c as [[] [] [] [] [] [] [] []]; reflexivity.
Qed.

Lemma lower_idempotent s : lower (lower s) = lower s.
Proof.
  induction s as [|c s IH]; [reflexivity|].
  cbn. rewrite lower_ascii_idempotent, IH. reflexivity.
Qed.

Lemma ftmachine_step_lowercase d i x :
  ftmachine_step d (i, match x with PStr s => PStr (lower s) | _ => x end)
  = ftmachine_step d (i, x).
Proof.
  destruct x; try reflexivity.
  unfold ftmachine_step. cbn [snd fst as_str]. rewrite lower_idempotent. reflexivity.
Qed.

Lemma ftmachine_fold_lowercase xs : forall idx d,
  fold_left ftmachine_step
    (combine idx (map (fun y => match y with PStr s => PStr (lower s) | _ => y end) xs)) d
  = fold_left ftmachine_step (combine idx xs) d.
Proof.
  induction xs as [|x xs IH]; intros idx d.
  - destruct idx; reflexivity.
  - destruct idx as [|i idx]; [reflexivity|].
    cbn [map combine fold_left]. rewrite ftmachine_step_lowercase. apply IH.
Qed.

(** X7.  The direction is read without regard to the case of letters:
    writing every entry of ftmachine in lower case changes nothing in what
    is resolved, so that FFT, Fft and fft ask for the same. *)
Theorem ftmachine_ignores_case ftm N :
  resolve_ftmachine (lowercase ftm) N = resolve_ftmachine ftm N.
Proof.
  destruct ftm as [| | | | s | | xs |]; try reflexivity.
  - unfold resolve_ftmachine. cbn [lowercase is_type type_of pytype_eqb as_str].
    rewrite lower_idempotent. reflexivity.
  - unfold resolve_ftmachine, enumerate, len.
    cbn [lowercase is_type type_of pytype_eqb items].
    rewrite length_map, ftmachine_fold_lowercase. reflexivity.
Qed.

End Directions.

Lemma directions_are_the_named_ones_witness :
  nothing_requested (mk_directions true true (Some [0]) (Some [2])) = false.
Proof.
  apply (proj1 (directions_are_the_named_ones
                  (PList [PStr "FFT"; PStr "none"; PStr "ifft"]) 3
                  (mk_directions true true (Some [0]) (Some [2])) eq_refl)).
Defined.

(** ** The configuration that [setup] hands to the pipelines *)

Section Shapes.

Lemma indices_below p N : Forall (fun k => k < N) (indices p N).
Proof.
  apply List.Forall_forall. intros k Hk. apply indices_In in Hk. apply Hk.
Qed.

Lemma resolve_shift_shape zc N msg p :
  resolve_shift zc N msg = OK p ->
  axes_below N (snd p) /\ (fst p = true <-> snd p <> Some []).
Proof.
  destruct p as [flag axes]. intros H.
  destruct zc as [| b | | | | | xs |];
    try (cbn in H; injection H as <- <-; cbn; split; [constructor | intuition congruence]).
  - destruct b; cbn in H; injection H as <- <-; cbn;
      (split; [try constructor; exact I | intuition congruence]).
  - destruct (resolve_shift_list xs N msg flag axes H) as (HN & -> & ->).
    cbn [fst snd axes_below]. split; [apply indices_below|].
    split.
    + intros He Hs. injection Hs as Hs. rewrite indices_nil in Hs.
      apply existsb_nth in He. destruct He as (k & Hk & Hf).
      unfold flagged in Hs. rewrite Hs in Hf by lia. discriminate.
    + intros Hne. apply existsb_nth.
      destruct (indices (flagged xs) N) as [|k l] eqn:He; [congruence|].
      assert (Hin : In k (indices (flagged xs) N)) by (rewrite He; left; reflexivity).
      apply indices_In in Hin. exists k. split; [lia | apply Hin].
Qed.

Lemma resolve_ftmachine_shape ftm N d :
  resolve_ftmachine ftm N = OK d ->
  axes_below N (d_fftaxes d) /\ axes_below N (d_ifftaxes d)
  /\ (nothing_requested d = false -> d_do_fft d = true \/ d_do_ifft d = true).
Proof.
  intros H. destruct ftm as [| | | | s | | xs |];
    try (cbn in H; injection H as <-; cbn;
         split; [constructor|]; split; [constructor | discriminate]).
  - unfold resolve_ftmachine in H. cbn [is_type type_of pytype_eqb as_str] in H.
    destruct (String.eqb (lower s) FTM_FFT);
      [|destruct (String.eqb (lower s) FTM_IFFT)];
      injection H as <-; cbn;
      (split; [try constructor; exact I|]);
      (split; [try constructor; exact I|]); try discriminate; auto.
  - destruct (resolve_ftmachine_list xs N d H) as [HN ->].
    cbn [d_do_fft d_do_ifft d_fftaxes d_ifftaxes axes_below].
    split; [apply indices_below|]. split; [apply indices_below|].
    unfold nothing_requested. cbn [d_do_fft d_do_ifft].
    destruct (existsb _ xs); [auto|]. destruct (existsb _ xs); [auto|].
    cbn. discriminate.
Qed.

Lemma resolve_config_hermitian (r : request) mN c :
  resolve_config r mN = OK c -> length (hermitianized_axes c) = snd mN.
Proof.
  unfold resolve_config.
  destruct (resolve_ftmachine _ _) as [d|]; [|discriminate].
  destruct (resolve_shift (in_zero_center r) _ _) as [pre|]; [|discriminate].
  destruct (resolve_shift (out_zero_center r) _ _) as [post|]; [|discriminate].
  unfold resolve_hermitian.
  destruct (hermitian_list _ _) as [h|]; [|discriminate].
  destruct (Nat.eqb_spec (length h) (snd mN)) as [Hl|]; [|discriminate].
  cbn [negb]. intros [= <-]. exact Hl.
Qed.

Lemma resolve_config_axes (r : request) mN c d :
  resolve_config r mN = OK c ->
  resolve_ftmachine (ftmachine r) (snd mN) = OK d ->
  fftaxes c = d_fftaxes d /\ ifftaxes c = d_ifftaxes d.
Proof.
  unfold resolve_config. intros H Hd. rewrite Hd in H.
  destruct (resolve_shift (in_zero_center r) _ _) as [pre|]; [|discriminate].
  destruct (resolve_shift (out_zero_center r) _ _) as [post|]; [|discriminate].
  destruct (resolve_hermitian _ _) as [h|]; [|discriminate].
  injection H as <-. split; reflexivity.
Qed.

End Shapes.

Section Configuration.

Context {E : Type} (oracle : string -> list (arg E) -> result (ndarray E)).
Implicit Types (w : world E) (r : request) (a : ndarray E).

Lemma select_mode_bound r w mN :
  fst (select_mode r w) = OK mN ->
  0 < snd mN /\ (fst mN <> MODE_RR -> snd mN <= 3).
Proof.
  rewrite select_mode_result.
  destruct (fst (classify r w)) as [mN'|]; [|discriminate].
  unfold check_dimensions.
  destruct (Nat.eqb_spec (snd mN') 0); [discriminate|].
  destruct (Nat.ltb_spec 3 (snd mN')); cbn [andb].
  - destruct (fst mN') eqn:Hm; cbn; try discriminate.
    intros [= <-]. split; [lia|]. intros Hne. congruence.
  - intros [= <-]. split; lia.
Qed.

(** X8.  What holds of every configuration that [setup] returns: there
    is at least one dimension, and at most three unless the mode is
    regular to regular; there is one hermitian flag per axis; every axis
    listed for a shift or a transform lies below the number of dimensions;
    a shift is flagged exactly when its axis list is not the empty list;
    and a gridding mode is only kept when a transform is requested. *)
Theorem setup_configuration_invariant r w c :
  fst (run (setup r) w) = OK c ->
  1 <= c_N c
  /\ (c_mode c <> MODE_RR -> c_N c <= 3)
  /\ length (hermitianized_axes c) = c_N c
  /\ axes_below (c_N c) (preshift_axes c)
  /\ axes_below (c_N c) (postshift_axes c)
  /\ axes_below (c_N c) (fftaxes c)
  /\ axes_below (c_N c) (ifftaxes c)
  /\ (do_preshift c = true <-> preshift_axes c <> Some [])
  /\ (do_postshift c = true <-> postshift_axes c <> Some [])
  /\ (c_mode c <> MODE_RR -> do_fft c = true \/ do_ifft c = true).
Proof.
  unfold run. intros Hs.
  assert (Hsel : exists mN, fst (select_mode r w) = OK mN /\ resolve_config r mN = OK c).
  { destruct (setup_ok_inv r w c Hs) as (mN & Hm & _ & Hc). eauto. }
  destruct Hsel as (mN & Hm & Hc).
  destruct (select_mode_bound r w mN Hm) as [HN H3].
  pose proof (resolve_config_hermitian r mN c Hc) as Hh.
  destruct (resolve_config_inv _ _ _ Hc)
    as (d & pre & post & Hd & Hpre & Hpost & Hmode & HcN & Hf & Hi & P1 & P2 & P3 & P4).
  destruct (resolve_shift_shape _ _ _ _ Hpre) as [B1 F1].
  destruct (resolve_shift_shape _ _ _ _ Hpost) as [B2 F2].
  destruct (resolve_ftmachine_shape _ _ _ Hd) as (B3 & B4 & F3).
  destruct (resolve_config_axes _ _ _ _ Hc Hd) as [A1 A2].
  rewrite HcN, P1, P2, P3, P4, Hf, Hi, Hh, A1, A2.
  assert (Hm' : c_mode c <> MODE_RR -> nothing_requested d = false /\ fst mN <> MODE_RR).
  { rewrite Hmode. destruct (nothing_requested d); [congruence | auto]. }
  split; [lia|]. split; [intros Hne; apply H3, Hm', Hne|].
  split; [reflexivity|].
  split; [exact B1|]. split; [exact B2|]. split; [exact B3|]. split; [exact B4|].
  split; [exact F1|]. split; [exact F2|].
  intros Hne. apply F3, Hm', Hne.
Qed.

(** *** Shifts that cannot fail *)

Lemma fftshift_ok a axes :
  axes_below (ndim a) axes ->
  exists a', fftshift a axes = OK a' /\ ndim a' = ndim a.
Proof.
  intros H. unfold fftshift. destruct axes as [l|].
  - assert (Hb : forallb (fun k => k <? ndim a) l = true).
    { apply forallb_forall. intros k Hk. apply Nat.ltb_lt.
      cbn in H. rewrite List.Forall_forall in H. apply H. exact Hk. }
    rewrite Hb. eexists. split; reflexivity.
  - eexists. split; reflexivity.
Qed.

Lemma shifted_ok flag a axes :
  axes_below (ndim a) axes ->
  exists a', shifted flag axes a = OK a' /\ ndim a' = ndim a.
Proof.
  intros H. unfold shifted. destruct flag; [apply fftshift_ok; exact H|].
  exists a. split; reflexivity.
Qed.

(** X9.  A regular to regular call without a transformation never fails
    once [setup] has accepted it: every axis it shifts is an axis of the
    input, so the call returns, and it returns a new array of the rank of
    the input. *)
Theorem shift_only_call_returns r w c l a :
  fst (run (setup r) w) = OK c ->
  inp r = PArr l ->
  heap w !! l = Some a ->
  len (in_ax r) = 0 ->
  no_direction (ftmachine r) = true ->
  exists l' w' a',
    run (gfft oracle r) w = (OK l', w')
    /\ heap w' !! l' = Some a'
    /\ ndim a' = ndim a
    /\ length (heap w) <= l'.
Proof.
  unfold run. intros Hs Hi Hl H0 Hn.
  destruct (setup_empty_in_ax r w l a c Hi Hl H0 Hs) as [_ HN].
  destruct (setup_ok_inv r w c Hs) as (mN & Hm & _ & Hc).
  destruct (resolve_config_inv _ _ _ Hc)
    as (d & pre & post & Hd & Hpre & Hpost & Hmode & HcN & Hf & Hif & P1 & P2 & P3 & P4).
  destruct (resolve_shift_shape _ _ _ _ Hpre) as [B1 _].
  destruct (resolve_shift_shape _ _ _ _ Hpost) as [B2 _].
  rewrite <- HcN, HN in B1, B2. rewrite <- P2 in B1. rewrite <- P4 in B2.
  destruct (shifted_ok (do_preshift c) a _ B1) as (a1 & H1 & N1).
  rewrite <- N1 in B2.
  destruct (shifted_ok (do_postshift c) a1 _ B2) as (a2 & H2 & N2).
  destruct (gfft_shift_only oracle r w c l a a1 a2 Hs Hi Hl Hn H1 H2)
    as (l' & w' & R & L & G).
  exists l', w', a2. repeat split; try assumption. congruence.
Qed.

(** *** The sentinel for all axes and the list of all axes *)

Lemma counts_seq N k : k < N -> counts (Some (seq 0 N)) k = true.
Proof.
  intros Hk. unfold counts. apply Nat.ltb_lt.
  apply (proj1 (count_occ_In Nat.eq_dec (seq 0 N) k)). apply in_seq. lia.
Qed.

Lemma on_axis_all_axes N flag k :
  k < N -> on_axis N flag None k = on_axis N flag (Some (seq 0 N)) k.
Proof.
  intros Hk. unfold on_axis. rewrite counts_seq by exact Hk. reflexivity.
Qed.

Lemma mapM_on {A B} (f g : A -> M E B) l w :
  (forall x, In x l -> f x = g x) -> mapM f l w = mapM g l w.
Proof.
  revert w. induction l as [|x l IH]; intros w H; [reflexivity|].
  cbn [mapM]. rewrite (H x) by (left; reflexivity). unfold bind.
  destruct (g x w) as [[b|e] w1]; [|reflexivity].
  rewrite (IH w1) by (intros y Hy; apply H; right; exact Hy). reflexivity.
Qed.

(** X10.  Zero-centring asked for by the scalar [True] is resolved to
    the sentinel for all axes, and asked for by the list of [N] times
    [True] to the list of the axes below [N].  In the gridding modes the
    test that decides whether axis [k] has a centred origin gives the same
    answer under both for every axis below [N], so the axes are planned
    alike: same pixel sizes, pixel counts and origins.  Nothing is said
    of the shift of an array, which under the sentinel covers every axis
    of the array and under the list the axes below [N] only. *)
Theorem sentinel_and_full_list_plan_alike N msg :
  0 < N ->
  resolve_shift (PBool true) N msg = OK (true, None)
  /\ resolve_shift (PList (repeat (PBool true) N)) N msg = OK (true, Some (seq 0 N))
  /\ (forall flag k, k < N ->
        on_axis N flag None k = on_axis N flag (Some (seq 0 N)) k)
  /\ (forall spec (al : num) s fx fu w,
        run (mapM (plan_axis spec al s (on_axis N fx None) (on_axis N fu None))
               (seq 0 N)) w
        = run (mapM (plan_axis spec al s (on_axis N fx (Some (seq 0 N)))
                       (on_axis N fu (Some (seq 0 N))))
                 (seq 0 N)) w).
Proof.
  intros HN. split; [reflexivity|]. split.
  - unfold resolve_shift, enumerate, len. cbn [is_type type_of pytype_eqb items].
    rewrite repeat_length, Nat.eqb_refl. cbn [negb].
    rewrite shift_fold_all. cbn [orb app].
    rewrite (proj2 (Nat.ltb_lt 0 N)) by exact HN. reflexivity.
  - split.
    + intros flag k Hk. apply on_axis_all_axes. exact Hk.
    + intros spec al s fx fu w. unfold run. apply mapM_on.
      intros k Hk. apply in_seq in Hk. unfold plan_axis.
      rewrite !(on_axis_all_axes N _ k) by lia. reflexivity.
Qed.

End Configuration.

Lemma setup_configuration_invariant_witness :
  1 <= 2 /\ (MODE_IR <> MODE_RR -> 2 <= 3).
Proof.
  destruct (setup_configuration_invariant Sample.ir_2d Sample.store
              (mk_config MODE_IR 2 true false None (Some []) true None true None
                 [false; false]) eq_refl) as (H1 & H2 & _).
  split; [exact H1 | exact H2].
Defined.

Lemma shift_only_call_returns_witness :
  exists l' w' a',
    run (gfft Sample.collaborator Sample.shift_second_axis) Sample.store = (OK l', w')
    /\ heap w' !! l' = Some a'
    /\ ndim a' = 2
    /\ 3 <= l'.
Proof.
  apply (shift_only_call_returns Sample.collaborator Sample.shift_second_axis
           Sample.store _ 2 Sample.odd_field eq_refl eq_refl eq_refl eq_refl eq_refl).
Defined.

Lemma sentinel_and_full_list_plan_alike_witness :
  resolve_shift (PList (repeat (PBool true) 3)) 3 "" = OK (true, Some [0; 1; 2]).
Proof.
  apply (proj1 (proj2 (sentinel_and_full_list_plan_alike (E:=Z) 3 ""
                         (Nat.lt_0_succ 2)))).
Defined.

(** ** Validation and classification *)

Section Validation.

Lemma first_failure_ok checks :
  first_failure checks = OK tt <-> Forall (fun p => fst p = false) checks.
Proof.
  induction checks as [|[c e] checks IH]; cbn.
  - split; [constructor | reflexivity].
  - destruct c; split.
    + discriminate.
    + intros H. inversion H. discriminate.
    + intros H. constructor; [reflexivity | apply IH; exact H].
    + intros H. apply IH. inversion H. assumption.
Qed.

Lemma all_of_forallb t xs :
  forallb (fun x => is_type x t) xs = true <-> all_of t xs.
Proof.
  unfold all_of. rewrite forallb_forall, List.Forall_forall. reflexivity.
Qed.

Lemma axes_checks x :
  (negb (is_type x TList) && negb (is_type x TTuple) = false
   /\ is_type x TTuple
      && (negb (validate_iterrable_types x TList) || negb (len x =? 2)) = false
   /\ bad_tuple_part x 0 TNdarray = false
   /\ bad_tuple_part x 1 TTuple = false)
  <-> axes_ok x.
Proof.
  unfold axes_ok, bad_tuple_part, validate_iterrable_types, item, len.
  destruct x as [| | | | | | xs | xs]; cbn;
    try (split; [intros (? & _); discriminate
                | intros [(? & ?) | (? & ? & ? & _)]; discriminate]).
  - split; [eauto | auto].
  - split.
    + intros (_ & H2 & H3 & H4).
      destruct xs as [|c [|g [|? ?]]]; cbn in H2; try discriminate;
        try (rewrite orb_true_r in H2; discriminate).
      destruct c as [| | | | | | cs |], g as [| | | | | | gs |];
        cbn in H2; try discriminate.
      right. exists cs, gs. split; [reflexivity|].
      cbn in H3, H4. apply negb_false_iff in H3, H4.
      split; apply all_of_forallb; assumption.
    + intros [(? & ?) | (cs & gs & [= ->] & Hc & Hg)]; [discriminate|].
      cbn. apply all_of_forallb in Hc, Hg. rewrite Hc, Hg. auto.
Qed.

Lemma scalar_or_list_check t x :
  t <> TList -> (bad_scalar_or_list x t = false <-> scalar_or_list_of t x).
Proof.
  intros Ht. unfold bad_scalar_or_list, scalar_or_list_of, validate_iterrable_types.
  destruct (is_type x t) eqn:H1.
  - assert (H2 : is_type x TList = false).
    { destruct x, t; cbn in *; congruence. }
    rewrite H2. cbn. split; auto.
  - destruct x as [| | | | | | xs |]; cbn;
      try (split; [discriminate | intros [? | (? & ? & _)]; discriminate]).
    split.
    + intros H. apply negb_false_iff in H. right. exists xs.
      split; [reflexivity | apply all_of_forallb; exact H].
    + intros [? | (ys & [= <-] & H)]; [discriminate|].
      apply all_of_forallb in H. rewrite H. reflexivity.
Qed.

(** X2.  [validate] accepts a request exactly when it is well typed: the
    input is an array; each axes argument is a list, or a tuple of exactly
    a list of arrays and a list of tuples; not both are tuples; W is an
    int and alpha a float or an int; ftmachine is a string or a list of
    strings; and the three flags are booleans or lists of booleans. *)
Theorem validate_accepts_the_well_typed r :
  validate r = OK tt <-> well_typed r.
Proof.
  unfold validate. rewrite first_failure_ok. unfold well_typed.
  rewrite <- (axes_checks (in_ax r)), <- (axes_checks (out_ax r)).
  rewrite <- (scalar_or_list_check TStr (ftmachine r)) by discriminate.
  rewrite <- (scalar_or_list_check TBool (in_zero_center r)) by discriminate.
  rewrite <- (scalar_or_list_check TBool (out_zero_center r)) by discriminate.
  rewrite <- (scalar_or_list_check TBool (enforce_hermitian_symmetry r)) by discriminate.
  split.
  - intros H.
    repeat match goal with
           | H : Forall _ (_ :: _) |- _ => inversion_clear H
           end.
    cbn [fst] in *.
    repeat match goal with
           | H : negb _ = false |- _ => apply negb_false_iff in H
           end.
    repeat split; try assumption.
    + intros [Ha Hb]. rewrite Ha, Hb in *. discriminate.
    + destruct (is_type (alpha r) TFloat); [auto|].
      destruct (is_type (alpha r) TInt); [auto | discriminate].
  - intros (H1 & (A1 & A2 & A3 & A4) & (B1 & B2 & B3 & B4) & Hn & HW & Ha
            & Hf & Hi & Ho & Hh).
    repeat constructor; cbn [fst]; try assumption.
    + rewrite H1. reflexivity.
    + destruct (is_type (out_ax r) TTuple); [|reflexivity].
      destruct (is_type (in_ax r) TTuple); [|reflexivity].
      exfalso. apply Hn. auto.
    + rewrite HW. reflexivity.
    + destruct Ha as [-> | ->]; [reflexivity | apply andb_false_r].
Qed.

End Validation.

Section Classification.

Context {E : Type} (oracle : string -> list (arg E) -> result (ndarray E)).
Implicit Types (w : world E) (r : request).

(** X1.  A call in which in_ax and out_ax are both tuples is refused
    with the TypeError that says so, whatever else the request holds, and
    nothing is computed. *)
Theorem both_tuples_are_refused r w :
  is_type (inp r) TNdarray = true ->
  is_type (in_ax r) TTuple = true ->
  is_type (out_ax r) TTuple = true ->
  exists w',
    run (gfft oracle r) w
    = (Raise (TypeError "out_ax and in_ax cannot both be tuples"), w')
    /\ heap w' = heap w /\ only_diagnostics w w'.
Proof.
  unfold run. intros Hi Ha Hb. exists (snd (setup r w)).
  split; [|split; [apply setup_heap | apply setup_diagnostics]].
  apply gfft_setup_raises. rewrite setup_result.
  unfold validate. cbn [first_failure]. rewrite Hi, Ha, Hb. cbn.
  assert (H1 : is_type (in_ax r) TList = false)
    by (destruct (in_ax r); cbn in *; congruence).
  assert (H2 : is_type (out_ax r) TList = false)
    by (destruct (out_ax r); cbn in *; congruence).
  rewrite ?H1, ?H2. reflexivity.
Qed.

Lemma classify_result r w :
  fst (classify r w)
  = if len (in_ax r) =? 0 then
      match inp r with
      | PArr l =>
          match heap w !! l with
          | Some a => OK (MODE_RR, ndim a)
          | None => Raise (OutOfModel "dangling array reference")
          end
      | _ => Raise (OutOfModel "not an array")
      end
    else if is_type (in_ax r) TTuple || is_type (out_ax r) TTuple then
      if is_type (out_ax r) TTuple then
        if negb (len (out_ax r) =? 2)
        then Raise (TypeError "Invalid out_ax for irregular to irregular mode.")
        else OK (MODE_II, len (in_ax r))
      else
        if negb (len (in_ax r) =? 2)
        then Raise (TypeError "Invalid in_ax for irregular to irregular mode.")
        else OK (MODE_II, len (out_ax r))
    else
      match subscript (in_ax r) 0 with
      | Raise e => Raise e
      | OK x0 =>
          if negb (len (out_ax r) =? len (in_ax r))
          then Raise (TypeError
                 "For regular to irregular mode, len(in_ax) must equal len(out_ax).")
          else OK (if is_type x0 TTuple then MODE_RI else MODE_IR, len (in_ax r))
      end.
Proof.
  unfold classify.
  destruct (len (in_ax r) =? 0).
  - rewrite fst_bind. destruct (inp r); try reflexivity.
    cbn [array_ref ret fst snd]. rewrite fst_bind. unfold deref at 1 2.
    destruct (heap w !! l); [|reflexivity]. cbn [fst snd].
    rewrite fst_bind, fst_when. destruct (negb _); reflexivity.
  - destruct (is_type (in_ax r) TTuple || is_type (out_ax r) TTuple).
    + destruct (is_type (out_ax r) TTuple);
        rewrite fst_bind, fst_when; destruct (negb _); reflexivity.
    + rewrite fst_bind. cbn [lift fst snd].
      destruct (subscript (in_ax r) 0); [|reflexivity].
      rewrite fst_bind, fst_when. destruct (negb _); reflexivity.
Qed.

(** X3.  What holds once [select_mode] has returned a mode and a number
    of dimensions [N]: [N] is at least one, and at most three in a
    gridding mode; the mode is regular to regular exactly when in_ax is
    empty, and fully irregular exactly when in_ax is not empty and one of
    the axes arguments is a tuple; in the two mixed modes [N] is the
    length of in_ax and of out_ax, and the first item of in_ax alone
    decides between them; in the fully irregular mode [N] is the length of
    the side that is not the tuple. *)
Theorem select_mode_postcondition r w m N :
  fst (run (select_mode r) w) = OK (m, N) ->
  1 <= N
  /\ (m <> MODE_RR -> N <= 3)
  /\ (m = MODE_RR <-> len (in_ax r) = 0)
  /\ (m = MODE_II <->
      len (in_ax r) <> 0
      /\ (is_type (in_ax r) TTuple = true \/ is_type (out_ax r) TTuple = true))
  /\ (m = MODE_IR \/ m = MODE_RI ->
      N = len (in_ax r) /\ len (out_ax r) = N
      /\ (m = MODE_RI <-> is_type (item (in_ax r) 0) TTuple = true))
  /\ (m = MODE_II ->
      N = if is_type (out_ax r) TTuple then len (in_ax r) else len (out_ax r)).
Proof.
  unfold run. intros H.
  destruct (select_mode_bound r w (m, N) H) as [H1 H3]. cbn [fst snd] in H1, H3.
  split; [lia|]. split; [exact H3|].
  rewrite select_mode_result in H.
  destruct (fst (classify r w)) as [mN|] eqn:Hc; [|discriminate].
  assert (mN = (m, N)) as ->.
  { unfold check_dimensions in H. destruct (snd mN =? 0); [discriminate|].
    destruct (_ && _); [discriminate|]. congruence. }
  clear H. rewrite classify_result in Hc.
  destruct (Nat.eqb_spec (len (in_ax r)) 0) as [H0|H0].
  - assert (m = MODE_RR) as ->.
    { destruct (inp r); try discriminate.
      destruct (heap w !! l); [|discriminate]. congruence. }
    split; [tauto|]. split; [split; [discriminate | tauto]|].
    split; [intros [?|?]; discriminate | discriminate].
  - destruct (is_type (in_ax r) TTuple) eqn:Ti, (is_type (out_ax r) TTuple) eqn:To;
      cbn [orb] in Hc.
    1-3: destruct (negb _); [discriminate|]; injection Hc as <- <-;
      (split; [split; [discriminate | tauto]|]);
      (split; [split; [auto | reflexivity]|]);
      (split; [intros [?|?]; discriminate | reflexivity]).
    unfold subscript in Hc. unfold item.
    destruct (in_ax r) as [| | | | | | xs | xs]; try discriminate.
    destruct xs as [|x0 xs]; [cbn in H0; congruence|]. cbn in Hc.
    destruct (Nat.eqb_spec (len (out_ax r)) (S (length xs))) as [Hl|];
      [|discriminate]. cbn [negb] in Hc. cbn [len items length nth].
    destruct (is_type x0 TTuple); injection Hc as <- <-;
      (split; [split; [discriminate | intros Hx; cbn in Hx; congruence]|]);
      (split; [split; [discriminate | intros [_ [?|?]]; discriminate]|]);
      (split; [intros _; split; [reflexivity|]; split; [exact Hl|];
               split; congruence
              | discriminate]).
Qed.

(** X4.  A request that is classified with no dimension at all is
    refused with the exception that says that something went wrong in
    setting the mode and the dimensionality, and nothing is computed.  An
    array without axes passed with an empty in_ax is such a request. *)
Theorem no_dimension_is_refused r w m :
  validate r = OK tt ->
  fst (run (classify r) w) = OK (m, 0) ->
  exists w',
    run (gfft oracle r) w = (Raise (Exception no_dimensions), w')
    /\ heap w' = heap w /\ only_diagnostics w w'.
Proof.
  unfold run. intros Hv Hc. exists (snd (setup r w)).
  split; [|split; [apply setup_heap | apply setup_diagnostics]].
  apply gfft_setup_raises.
  rewrite setup_result, Hv, select_mode_result, Hc. reflexivity.
Qed.

End Classification.

Lemma validate_accepts_the_well_typed_witness : validate Sample.ii_2d = OK tt.
Proof.
  apply (proj2 (validate_accepts_the_well_typed Sample.ii_2d)).
  unfold well_typed, axes_ok, scalar_or_list_of, all_of. cbn.
  repeat split; try (left; reflexivity); try (right; reflexivity).
  - left. eauto.
  - right. exists Sample.coords2, Sample.grid_4x3.
    split; [reflexivity|]. split; repeat constructor.
  - intros [H _]. discriminate.
Defined.

Lemma both_tuples_are_refused_witness :
  exists w',
    run (gfft Sample.collaborator Corner.both_paired) Corner.store
    = (Raise (TypeError "out_ax and in_ax cannot both be tuples"), w')
    /\ heap w' = heap Corner.store /\ only_diagnostics Corner.store w'.
Proof.
  apply (both_tuples_are_refused Sample.collaborator Corner.both_paired Corner.store);
    reflexivity.
Defined.

Lemma select_mode_postcondition_witness :
  1 <= 1 /\ (MODE_RI <> MODE_RR -> 1 <= 3).
Proof.
  destruct (select_mode_postcondition Corner.ri_1d Corner.store MODE_RI 1 eq_refl)
    as (H1 & H2 & _).
  split; [exact H1 | exact H2].
Defined.

Lemma no_dimension_is_refused_witness :
  exists w',
    run (gfft Sample.collaborator Corner.rr_scalar) Corner.store
    = (Raise (Exception no_dimensions), w')
    /\ heap w' = heap Corner.store /\ only_diagnostics Corner.store w'.
Proof.
  apply (no_dimension_is_refused Sample.collaborator Corner.rr_scalar Corner.store
           MODE_RR eq_refl eq_refl).
Defined.

(** ** The working grid of an axis *)

Section GridPlan.

Lemma is_zero_spec x : Num.is_zero x = true <-> (Num.to_Q x == 0)%Q.
Proof.
  unfold Num.is_zero, Qeq. destruct (Num.to_Q x) as [n d]. cbn.
  rewrite Z.eqb_eq. lia.
Qed.

Lemma is_zero_false x : Num.is_zero x = false -> ~ (Num.to_Q x == 0)%Q.
Proof.
  intros H He. apply is_zero_spec in He. congruence.
Qed.

Lemma div_value x y :
  Num.is_zero y = false ->
  exists q, Num.div x y = OK (NFloat q) /\ (q == Num.to_Q x / Num.to_Q y)%Q.
Proof.
  intros H. unfold Num.div, Num.float. rewrite H.
  eexists. split; [reflexivity | apply Qred_correct].
Qed.

(** A float divided by zero. *)
Lemma div_float_by_zero q y :
  Num.is_zero y = true ->
  Num.div (NFloat q) y = Raise (ZeroDivisionError "float division by zero").
Proof. intros H. unfold Num.div. rewrite H. reflexivity. Qed.

Lemma pixel_size_run {E} d n a (w : world E) :
  (Num.is_zero d || Num.is_zero n || Num.is_zero a = true ->
     run (pixel_size d n a) w
     = (Raise (ZeroDivisionError "float division by zero"), w))
  /\ (Num.is_zero d || Num.is_zero n || Num.is_zero a = false ->
        exists q, run (pixel_size d n a) w = (OK (NFloat q), w)
                  /\ (q == 1 / (Num.to_Q d * Num.to_Q n * Num.to_Q a))%Q).
Proof.
  unfold run, pixel_size, bind, lift.
  destruct (Num.is_zero d) eqn:Hd.
  { split; [|discriminate]. intros _. unfold Num.one_f.
    rewrite (div_float_by_zero _ _ Hd). reflexivity. }
  destruct (div_value Num.one_f d Hd) as (q1 & -> & E1).
  destruct (Num.is_zero n) eqn:Hn.
  { split; [|discriminate]. intros _.
    rewrite (div_float_by_zero _ _ Hn). reflexivity. }
  destruct (div_value (NFloat q1) n Hn) as (q2 & -> & E2).
  destruct (Num.is_zero a) eqn:Ha.
  { split; [|discriminate]. intros _.
    rewrite (div_float_by_zero _ _ Ha). reflexivity. }
  destruct (div_value (NFloat q2) a Ha) as (q3 & -> & E3).
  split; [discriminate|]. intros _. exists q3. split; [reflexivity|].
  cbn [Num.to_Q Num.one_f] in E1, E2, E3. rewrite E3, E2, E1.
  apply is_zero_false in Hd, Hn, Ha. field. auto.
Qed.

Lemma read_spec_run {E} spec k d0 n0 d n (w : world E) :
  subscript spec k = OK (PTuple [d0; n0]) ->
  to_num d0 = OK d -> to_num n0 = OK n ->
  run (read_spec spec k) w = (OK (d, n), w).
Proof.
  intros Hs Hd Hn. unfold run, read_spec, bind, lift. rewrite Hs. cbn.
  rewrite Hd, Hn. reflexivity.
Qed.

(** X12.  Planning an axis whose grid specification is the pair [(dx,
    nx)] of two numbers, each a float or an int that converts to a float,
    with such an alpha: when the pixel size, the pixel count or alpha is
    zero the plan fails with ZeroDivisionError, from the float division
    [1./dx/Nx/alpha], and nothing else is touched; when none is zero and
    [alpha*Nx] is within the range of the floats, the plan is made and
    carries the pixel size and the pixel count as given. *)
Theorem plan_axis_fails_on_zero {E} spec a s x_on u_on k d0 n0 d n (w : world E) :
  subscript spec k = OK (PTuple [d0; n0]) ->
  to_num d0 = OK d ->
  to_num n0 = OK n ->
  finite d -> finite n -> finite a ->
  (Num.is_zero d || Num.is_zero n || Num.is_zero a = true ->
     run (plan_axis spec a s x_on u_on k) w
     = (Raise (ZeroDivisionError "float division by zero"), w))
  /\ (Num.is_zero d || Num.is_zero n || Num.is_zero a = false ->
      (Qabs (Num.to_Q a * Num.to_Q n) <= inject_Z max_float)%Q ->
        exists p, run (plan_axis spec a s x_on u_on k) w = (OK p, w)
                  /\ dx p = d /\ Nx p = n).
Proof.
  intros Hs Hd Hn _ _ _. unfold run, plan_axis.
  pose proof (read_spec_run spec k d0 n0 d n w Hs Hd Hn) as Hr. unfold run in Hr.
  rewrite (bind_run _ _ _ _ _ Hr). cbn [fst snd].
  destruct (pixel_size_run d n a w) as [Hz Hnz]. unfold run in Hz, Hnz. split.
  - intros H. unfold bind. rewrite (Hz H). reflexivity.
  - intros H _. destruct (Hnz H) as (q & Hq & _).
    rewrite (bind_run _ _ _ _ _ Hq). eexists. split; [reflexivity|].
    split; reflexivity.
Qed.

(** X13.  When an axis is planned the way the irregular to regular and
    the regular to irregular mode plan it, for numbers within the range
    of the floats and a product [alpha*Nx] that is computed without
    rounding and is not negative, the working grid has [floor(alpha*Nx)]
    pixels; the plan leaves the store and the trace as they are. *)
Theorem planned_axis_is_floored {E} spec a x_on u_on k p (w w' : world E) :
  run (plan_axis spec a IntAlphaN x_on u_on k) w = (OK p, w') ->
  finite (dx p) -> finite (Nx p) -> finite a ->
  exact_mul a (Nx p) ->
  (0 <= Num.to_Q a * Num.to_Q (Nx p))%Q ->
  w' = w
  /\ Nu p = NInt (Qfloor (Num.to_Q a * Num.to_Q (Nx p))).
Proof.
  unfold run, plan_axis. intros H _ _ _ _ Hpos.
  unfold bind at 1 in H.
  destruct (read_spec spec k w) as [[[d n]|e] w1] eqn:Hr; [|discriminate].
  assert (Hw1 : w1 = w).
  { unfold read_spec, bind, lift in Hr.
    destruct (subscript spec k) as [e|]; [|discriminate]. cbn in Hr.
    destruct (subscript e 0) as [d0|]; [|discriminate]. cbn in Hr.
    destruct (to_num d0); [|discriminate]. cbn in Hr.
    destruct (subscript e 1) as [n0|]; [|discriminate]. cbn in Hr.
    destruct (to_num n0); [|discriminate]. unfold ret in Hr. congruence. }
  subst w1. cbn [fst snd] in H.
  destruct (pixel_size_run d n a w) as [Hz Hnz]. unfold run in Hz, Hnz.
  destruct (Num.is_zero d || Num.is_zero n || Num.is_zero a) eqn:Hzero.
  - unfold bind in H. rewrite (Hz eq_refl) in H. discriminate.
  - destruct (Hnz eq_refl) as (q & Hq & Eq).
    rewrite (bind_run _ _ _ _ _ Hq) in H. cbn in H. injection H as <- <-.
    cbn [Nx Nu du dx] in *. split; [reflexivity|].
    apply (working_size_is_floor IntAlphaN a n); [left; reflexivity | exact Hpos].
Qed.

(** *** The crop and the padding window *)

Lemma sub_one_value a : (Num.to_Q (Num.sub a (NInt 1)) == Num.to_Q a - 1)%Q.
Proof.
  destruct a as [z|q]; cbn.
  - unfold Z.sub. rewrite inject_Z_plus, inject_Z_opp. reflexivity.
  - rewrite Qred_correct. reflexivity.
Qed.

Lemma tndx_value a p n :
  Nx p = NInt n -> (0 <= n)%Z -> (1 <= Num.to_Q a)%Q ->
  exists t u,
    tndx a p = NInt t
    /\ working_size IntAlphaN a (Nx p) = NInt u
    /\ (0 <= t)%Z /\ (t + n <= u)%Z /\ (n <= u)%Z.
Proof.
  intros HN Hn Ha.
  assert (Hq : (inject_Z 0 <= inject_Z n)%Q) by (rewrite <- Zle_Qle; exact Hn).
  change (inject_Z 0) with 0%Q in Hq.
  set (v := ((1 # 2) * inject_Z n * (Num.to_Q a - 1))%Q).
  assert (Hv : (0 <= v)%Q) by (unfold v; nra).
  assert (Hpos : (0 <= Num.to_Q a * Num.to_Q (Nx p))%Q) by (rewrite HN; cbn; nra).
  exists (Qfloor v), (Qfloor (Num.to_Q a * Num.to_Q (Nx p))).
  assert (Ht : tndx a p = NInt (Qfloor v)).
  { unfold tndx, Num.half. rewrite HN.
    cbn [Num.mul Num.float Num.int Num.to_Q]. f_equal.
    assert (Hval : (Qred (Qred ((1 # 2) * inject_Z n) * Num.to_Q (Num.sub a (NInt 1)))
                    == v)%Q).
    { rewrite !Qred_correct, sub_one_value. reflexivity. }
    rewrite Qtrunc_floor by (rewrite Hval; exact Hv).
    apply Qfloor_comp. exact Hval. }
  split; [exact Ht|].
  split; [apply working_size_is_floor; [left; reflexivity | exact Hpos]|].
  rewrite HN. cbn [Num.to_Q].
  split; [|split].
  - rewrite <- (Qfloor_Z 0). apply Qfloor_resp_le. exact Hv.
  - rewrite <- (Qfloor_Z (Qfloor v + n)). apply Qfloor_resp_le.
    rewrite inject_Z_plus. pose proof (Qfloor_le v) as Hle. unfold v in Hle |- *. nra.
  - rewrite <- (Qfloor_Z n) at 1. apply Qfloor_resp_le. nra.
Qed.

(** X11.  For an alpha of at least one and a pixel count that is not
    negative, where the four float operations behind the window
    ([alpha*Nx], [0.5*Nx], [alpha-1], [0.5*Nx*(alpha-1)]) are computed
    without rounding: the slice that the irregular to regular mode crops
    out of the transformed working grid and the slice into which the
    regular to irregular mode writes its input both lie inside the
    working grid of [int(alpha*Nx)] pixels and span [Nx] pixels, on every
    axis and whether the axis is zero-centred or not. *)
Theorem crop_and_pad_fit_the_working_grid (c : config) a k p n :
  Nx p = NInt n ->
  (0 <= n)%Z ->
  (1 <= Num.to_Q a)%Q ->
  exact_axis a n ->
  exists lo hi lo' hi' u,
    crop_slice c a k p = (NInt lo, NInt hi)
    /\ pad_slice c a k p = (NInt lo', NInt hi')
    /\ working_size IntAlphaN a (Nx p) = NInt u
    /\ (0 <= lo /\ hi = lo + n /\ hi <= u)%Z
    /\ (0 <= lo' /\ hi' = lo' + n /\ hi' <= u)%Z.
Proof.
  intros HN Hn Ha _.
  destruct (tndx_value a p n HN Hn Ha) as (t & u & Ht & Hu & H0 & H1 & H2).
  assert (Hpad : exists lo' hi',
             pad_slice c a k p = (NInt lo', NInt hi')
             /\ (0 <= lo' /\ hi' = lo' + n /\ hi' <= u)%Z).
  { unfold pad_slice. rewrite Ht, HN.
    destruct (on_axis (c_N c) (do_preshift c) (preshift_axes c) k); cbn [Num.add];
      eexists _, _; (split; [reflexivity|]); lia. }
  destruct Hpad as (lo' & hi' & Hp & Hb).
  assert (Hcrop : exists lo hi,
             crop_slice c a k p = (NInt lo, NInt hi)
             /\ (0 <= lo /\ hi = lo + n /\ hi <= u)%Z).
  { unfold crop_slice, crop_from. rewrite Ht, HN.
    destruct (on_axis (c_N c) (do_postshift c) (postshift_axes c) k);
      destruct (c_N c) as [|[|[|N]]]; try destruct (do_postshift c);
      cbn [Num.add Num.int];
      eexists _, _; (split; [reflexivity|]); lia. }
  destruct Hcrop as (lo & hi & Hc & Hb').
  exists lo, hi, lo', hi', u. auto.
Qed.

End GridPlan.

(** [m * 2^e] at concrete numbers. *)
Ltac binary64_by m e :=
  exists m, e; split; [reflexivity | split; [lia | vm_compute; reflexivity]].

Lemma plan_axis_fails_on_zero_witness :
  run (plan_axis (PList [PTuple [PFloat 1; PInt 0]]) (NFloat (3 # 2)) IntAlphaN
         (fun _ => true) (fun _ => true) 0) Sample.store
  = (Raise (ZeroDivisionError "float division by zero"), Sample.store).
Proof.
  refine (proj1 (plan_axis_fails_on_zero (PList [PTuple [PFloat 1; PInt 0]])
                   (NFloat (3 # 2)) IntAlphaN (fun _ => true) (fun _ => true) 0
                   (PFloat 1) (PInt 0) (NFloat 1) (NInt 0) Sample.store
                   eq_refl eq_refl eq_refl _ _ _) eq_refl).
  - binary64_by 1%Z 0%Z.
  - cbn. unfold max_float. lia.
  - binary64_by 3%Z (-1)%Z.
Defined.

Lemma planned_axis_is_floored_witness :
  Nu (mk_axis (NFloat 1) (NInt 3) (NFloat (- 3 # 2)) (NFloat (2 # 9)) (NInt 4)
        (NFloat (- 4 # 9)))
  = NInt (Qfloor ((3 # 2) * 3)).
Proof.
  refine (proj2 (planned_axis_is_floored
                   (PList [PTuple [PFloat 1; PInt 3]]) (NFloat (3 # 2))
                   (fun _ => true) (fun _ => true) 0 _
                   Sample.store Sample.store eq_refl _ _ _ _ _)).
  - binary64_by 1%Z 0%Z.
  - cbn. unfold max_float. lia.
  - binary64_by 3%Z (-1)%Z.
  - split; [binary64_by 3%Z (-1)%Z|]. split; [binary64_by 3%Z 0%Z|].
    binary64_by 9%Z (-1)%Z.
  - vm_compute. discriminate.
Defined.

Lemma crop_and_pad_fit_the_working_grid_witness :
  exists lo hi lo' hi' u,
    crop_slice (mk_config MODE_IR 1 true false None (Some []) true None true None [false])
      (NFloat (3 # 2)) 0
      (mk_axis (NFloat 1) (NInt 4) Num.zero_f (NFloat (1 # 6)) (NInt 6) Num.zero_f)
    = (NInt lo, NInt hi)
    /\ pad_slice (mk_config MODE_IR 1 true false None (Some []) true None true None [false])
         (NFloat (3 # 2)) 0
         (mk_axis (NFloat 1) (NInt 4) Num.zero_f (NFloat (1 # 6)) (NInt 6) Num.zero_f)
       = (NInt lo', NInt hi')
    /\ working_size IntAlphaN (NFloat (3 # 2)) (NInt 4) = NInt u
    /\ (0 <= lo /\ hi = lo + 4 /\ hi <= u)%Z
    /\ (0 <= lo' /\ hi' = lo' + 4 /\ hi' <= u)%Z.
Proof.
  apply (crop_and_pad_fit_the_working_grid
           (mk_config MODE_IR 1 true false None (Some []) true None true None [false])
           (NFloat (3 # 2)) 0
           (mk_axis (NFloat 1) (NInt 4) Num.zero_f (NFloat (1 # 6)) (NInt 6) Num.zero_f)
           4 eq_refl).
  - lia.
  - vm_compute. discriminate.
  - split; [|split; [|split]].
    + split; [binary64_by 3%Z (-1)%Z|]. split; [binary64_by 4%Z 0%Z|].
      binary64_by 6%Z 0%Z.
    + split; [binary64_by 1%Z (-1)%Z|]. split; [binary64_by 4%Z 0%Z|].
      binary64_by 2%Z 0%Z.
    + split; [binary64_by 3%Z (-1)%Z|]. split; [binary64_by 1%Z 0%Z|].
      binary64_by 1%Z (-1)%Z.
    + split; [binary64_by 2%Z 0%Z|]. split; [binary64_by 1%Z (-1)%Z|].
      binary64_by 1%Z 0%Z.
Defined.

(** ** The regular to regular pipeline *)

Section RegularPipeline.

Context {E : Type} (oracle : string -> list (arg E) -> result (ndarray E)).
Implicit Types (w : world E) (r : request) (a : ndarray E).

Lemma call_on_array_run fn l post w a a' :
  heap w !! l = Some a -> oracle fn (AArr a :: post) = OK a' ->
  exists w', call oracle fn [PArr l] post w = (OK (length (heap w)), w')
             /\ heap w' = heap w ++ [a'].
Proof.
  intros Hl Ho. unfold call, pass_all, pass, bind, deref, ret, fresh.
  rewrite Hl. cbn. rewrite Ho. cbn. eexists; split; reflexivity.
Qed.

Lemma forward_run c l w a a' :
  heap w !! l = Some a -> forward oracle c a = OK a' ->
  exists w',
    (if do_fft c then np_fftn oracle l (fftaxes c) else np_copy l) w
    = (OK (length (heap w)), w')
    /\ heap w' = heap w ++ [a'].
Proof.
  intros Hl Hf. unfold forward in Hf. destruct (do_fft c).
  - apply (call_on_array_run _ _ _ _ a); assumption.
  - injection Hf as <-. unfold np_copy, bind, deref, fresh. rewrite Hl. cbn.
    eexists; split; reflexivity.
Qed.

Lemma backward_run c l w a a' :
  heap w !! l = Some a -> backward oracle c a = OK a' ->
  exists l' w',
    (if do_ifft c then np_ifftn oracle l (ifftaxes c) else ret l) w = (OK l', w')
    /\ heap w' !! l' = Some a'
    /\ length (heap w) <= length (heap w')
    /\ (l' = l \/ length (heap w) <= l').
Proof.
  intros Hl Hb. unfold backward in Hb. destruct (do_ifft c).
  - destruct (call_on_array_run _ l [AAxes (ifftaxes c)] w a a' Hl Hb) as (w' & R & Hh).
    exists (length (heap w)), w'. split; [exact R|]. rewrite Hh.
    split; [apply list_lookup_middle; reflexivity|].
    rewrite length_app. split; [lia|right; lia].
  - injection Hb as <-. exists l, w. cbn. auto.
Qed.

Lemma postshift_run (flag : bool) axes l w a a' :
  heap w !! l = Some a -> shifted flag axes a = OK a' ->
  exists l' w',
    (if flag then np_fftshift l axes else ret l) w = (OK l', w')
    /\ heap w' !! l' = Some a'
    /\ (l' = l \/ length (heap w) <= l').
Proof.
  intros Hl Hs. unfold shifted in Hs. destruct flag.
  - exists (length (heap w)). unfold np_fftshift, bind, deref, fresh.
    rewrite Hl, Hs. cbn. eexists. split; [reflexivity|]. cbn.
    split; [apply list_lookup_middle; reflexivity|right; lia].
  - injection Hs as <-. exists l, w. cbn. auto.
Qed.

Lemma mode_rr_runs r c l w a a1 a2 a3 a4 :
  heap w !! l = Some a ->
  shifted (do_preshift c) (preshift_axes c) a = OK a1 ->
  forward oracle c a1 = OK a2 ->
  backward oracle c a2 = OK a3 ->
  shifted (do_postshift c) (postshift_axes c) a3 = OK a4 ->
  exists l' w',
    mode_rr oracle r c l w = (OK l', w')
    /\ heap w' !! l' = Some a4
    /\ length (heap w) <= l'.
Proof.
  intros Hl H1 H2 H3 H4. unfold mode_rr.
  destruct (postshift_run _ _ l w a a1 Hl H1) as (l1 & w1 & R1 & L1 & _).
  assert (G1 : length (heap w) <= length (heap w1)).
  { destruct (do_preshift c).
    - unfold np_fftshift, bind, deref, fresh in R1. rewrite Hl in R1.
      destruct (fftshift a (preshift_axes c)); [|discriminate].
      injection R1 as _ <-. cbn. rewrite length_app. lia.
    - injection R1 as _ <-. lia. }
  destruct (forward_run c l1 w1 a1 a2 L1 H2) as (w2 & R2 & Hh2).
  assert (L2 : heap w2 !! length (heap w1) = Some a2).
  { rewrite Hh2. apply list_lookup_middle. reflexivity. }
  destruct (backward_run c _ w2 a2 a3 L2 H3) as (l3 & w3 & R3 & L3 & G3 & F3).
  destruct (postshift_run _ _ l3 w3 a3 a4 L3 H4) as (l4 & w4 & R4 & L4 & F4).
  destruct (done_run r w4) as (w5 & R5 & Hh5).
  exists l4, w5. split.
  - assert (T : transform oracle c l w = (OK l4, w4)).
    { unfold transform.
      rewrite (bind_run _ _ _ _ _ R1), (bind_run _ _ _ _ _ R2),
        (bind_run _ _ _ _ _ R3). exact R4. }
    rewrite (bind_run _ _ _ _ _ T), (bind_run _ _ _ _ _ R5). reflexivity.
  - rewrite Hh5. split; [exact L4|].
    assert (G2 : length (heap w2) = S (length (heap w1))).
    { rewrite Hh2, length_app. cbn. lia. }
    destruct F4 as [-> | F4]; [destruct F3 as [-> | F3]|]; lia.
Qed.

(** X14.  A regular to regular call whose four steps succeed on the
    input array returns a new array that holds the input shifted, then
    transformed forward (or copied when no forward transformation is
    requested), then transformed backward, then shifted again: in that
    order, each step working on the result of the one before. *)
Theorem regular_pipeline_order r w c l a a1 a2 a3 a4 :
  fst (setup r w) = OK c -> c_mode c = MODE_RR ->
  inp r = PArr l -> heap w !! l = Some a ->
  shifted (do_preshift c) (preshift_axes c) a = OK a1 ->
  forward oracle c a1 = OK a2 ->
  backward oracle c a2 = OK a3 ->
  shifted (do_postshift c) (postshift_axes c) a3 = OK a4 ->
  exists l' w',
    run (gfft oracle r) w = (OK l', w')
    /\ heap w' !! l' = Some a4
    /\ length (heap w) <= l'.
Proof.
  intros Hs Hm Hi Hl H1 H2 H3 H4.
  destruct (gfft_setup_ok oracle r w c Hs) as (l0 & Hl0 & Hrun).
  rewrite Hi in Hl0. injection Hl0 as <-. rewrite Hm in Hrun.
  rewrite <- (setup_heap r w) in Hl.
  destruct (mode_rr_runs r c l _ a a1 a2 a3 a4 Hl H1 H2 H3 H4)
    as (l' & w' & R & L & G).
  exists l', w'. rewrite Hrun. unfold run. rewrite R, <- (setup_heap r w).
  auto.
Qed.

End RegularPipeline.

Lemma regular_pipeline_order_witness :
  exists l' w',
    run (gfft Echo.collaborator Echo.rr_line) Sample.store = (OK l', w')
    /\ heap w' !! l' = Some (mk_ndarray 1 ([1; 2; 3; 4]%Z : tensor Z 1))
    /\ length (heap Sample.store) <= l'.
Proof.
  apply (regular_pipeline_order Echo.collaborator Echo.rr_line Sample.store
           (mk_config MODE_RR 1 true false None (Some []) true None true None [false])
           0 Sample.line
           (mk_ndarray 1 ([3; 4; 1; 2]%Z : tensor Z 1))
           (mk_ndarray 1 ([3; 4; 1; 2]%Z : tensor Z 1))
           (mk_ndarray 1 ([3; 4; 1; 2]%Z : tensor Z 1))
           (mk_ndarray 1 ([1; 2; 3; 4]%Z : tensor Z 1))); reflexivity.
Defined.

(** ** Rules for [agree] *)

Section AgreeRules.

Context {E : Type}.
Implicit Types (w : world E).

Lemma alike_refl w : alike w w.
Proof. split; reflexivity. Qed.

Lemma alike_trans w1 w2 w3 : alike w1 w2 -> alike w2 w3 -> alike w1 w3.
Proof. intros [H1 H2] [H3 H4]. split; congruence. Qed.

Lemma alike_sym w1 w2 : alike w1 w2 -> alike w2 w1.
Proof. intros [H1 H2]. split; congruence. Qed.

Lemma calls_log e w :
  calls (log e w) = calls w ++ (if diagnostic e then [] else [e]).
Proof.
  unfold calls, log. cbn [trace]. rewrite List.filter_app. cbn.
  destruct (diagnostic e); reflexivity.
Qed.

Lemma alike_log_diagnostic e w : diagnostic e = true -> alike w (log e w).
Proof.
  intros H. split; [reflexivity|]. rewrite calls_log, H, app_nil_r. reflexivity.
Qed.

Lemma alike_log e w w' : alike w w' -> alike (log e w) (log e w').
Proof. intros [H1 H2]. split; [exact H1|]. rewrite !calls_log, H2. reflexivity. Qed.

Lemma agree_ret {A} (a : A) : agree (E:=E) (ret a) (ret a).
Proof. intros w w' H. split; [reflexivity|exact H]. Qed.

Lemma agree_raise {A} e : agree (E:=E) (A:=A) (raise e) (raise e).
Proof. intros w w' H. split; [reflexivity|exact H]. Qed.

Lemma agree_lift {A} (r : result A) : agree (E:=E) (lift r) (lift r).
Proof. intros w w' H. split; [reflexivity|exact H]. Qed.

Lemma agree_print s : agree (E:=E) (print s) (print s).
Proof. intros w w' H. split; [reflexivity|]. apply alike_log. exact H. Qed.

Lemma agree_warn s : agree (E:=E) (warn s) (warn s).
Proof. intros w w' H. split; [reflexivity|]. apply alike_log. exact H. Qed.

Lemma agree_deref l : agree (E:=E) (deref l) (deref l).
Proof.
  intros w w' H. unfold deref. destruct H as [H1 H2]. rewrite <- H1.
  destruct (heap w !! l); cbn; (split; [reflexivity|]); split; assumption.
Qed.

Lemma agree_fresh fn args r : agree (E:=E) (fresh fn args r) (fresh fn args r).
Proof.
  intros w w' H. unfold fresh.
  destruct (alike_log (ECall fn args) w w' H) as [H1 H2].
  destruct r; cbn [fst snd]; (split; [cbn [heap log] in *; congruence|]).
  - split; [cbn [heap] in *; congruence | exact H2].
  - split; assumption.
Qed.

Lemma agree_overwrite fn args l r :
  agree (E:=E) (overwrite fn args l r) (overwrite fn args l r).
Proof.
  intros w w' H. unfold overwrite.
  destruct (alike_log (ECall fn args) w w' H) as [H1 H2].
  destruct r; cbn [fst snd]; (split; [reflexivity|]).
  - split; [cbn [heap] in *; congruence | exact H2].
  - split; assumption.
Qed.

Lemma agree_bind {A B} (m m' : M E A) (f f' : A -> M E B) :
  agree m m' -> (forall a, agree (f a) (f' a)) -> agree (bind m f) (bind m' f').
Proof.
  intros Hm Hf w w' H. unfold bind.
  destruct (Hm w w' H) as [H1 H2].
  destruct (m w) as [[a|e] w1], (m' w') as [[a'|e'] w1']; cbn in H1, H2;
    try discriminate.
  - injection H1 as <-. apply Hf. exact H2.
  - injection H1 as <-. cbn. split; [reflexivity|exact H2].
Qed.

Lemma agree_mapM {A B} (f f' : A -> M E B) (l : list A) :
  (forall a, agree (f a) (f' a)) -> agree (mapM f l) (mapM f' l).
Proof.
  intros Hf. induction l as [|a l IH]; cbn [mapM].
  - apply agree_ret.
  - apply agree_bind; [apply Hf|]. intros b.
    apply agree_bind; [apply IH|]. intros bs. apply agree_ret.
Qed.

Lemma agree_pass x : agree (E:=E) (pass x) (pass x).
Proof.
  destruct x; cbn; try apply agree_ret.
  apply agree_bind; [apply agree_deref|]. intros; apply agree_ret.
Qed.

Lemma agree_pass_all xs : agree (E:=E) (pass_all xs) (pass_all xs).
Proof.
  induction xs as [|x xs IH]; cbn [pass_all].
  - apply agree_ret.
  - apply agree_bind; [apply agree_pass|]. intros b.
    apply agree_bind; [apply IH|]. intros bs. apply agree_ret.
Qed.

Lemma only_prints_print s : only_prints (E:=E) (print s).
Proof. intros w. split; [reflexivity|]. apply alike_log_diagnostic. reflexivity. Qed.

Lemma only_prints_seq (m m' : M E unit) :
  only_prints m -> only_prints m' -> only_prints (bind m (fun _ => m')).
Proof.
  intros Hm Hm' w. unfold bind. destruct (Hm w) as [H1 H2].
  destruct (m w) as [[[]|e] w1]; cbn in H1, H2; [|discriminate].
  destruct (Hm' w1) as [H3 H4]. split; [exact H3|].
  apply (alike_trans _ w1); assumption.
Qed.

(** Printing under one flag agrees with printing under another. *)
Lemma agree_when_prints (b b' : bool) (m m' : M E unit) :
  only_prints m -> only_prints m' -> agree (when b m) (when b' m').
Proof.
  intros Hm Hm' w w' H. unfold when.
  assert (Hl : forall (c : bool) (n : M E unit) w0, only_prints n ->
             fst ((if c then n else ret tt) w0) = OK tt
             /\ alike w0 (snd ((if c then n else ret tt) w0))).
  { intros c n w0 Hn. destruct c; [apply Hn|]. split; [reflexivity|apply alike_refl]. }
  destruct (Hl b m w Hm) as [H1 H2], (Hl b' m' w' Hm') as [H3 H4].
  split; [congruence|].
  apply (alike_trans _ w); [apply alike_sym; exact H2|].
  apply (alike_trans _ w'); assumption.
Qed.

End AgreeRules.

Ltac prints_go :=
  lazymatch goal with
  | |- only_prints (bind _ _) => apply only_prints_seq; prints_go
  | |- only_prints (print _) => apply only_prints_print
  | |- only_prints ?m => let h := head_of m in progress (unfold h); prints_go
  end.

Ltac agree_go :=
  cbn [inp in_ax out_ax ftmachine in_zero_center out_zero_center
       enforce_hermitian_symmetry W alpha verbose];
  lazymatch goal with
  | |- agree (bind _ _) (bind _ _) =>
      apply agree_bind; [ agree_go | intros; agree_go ]
  | |- agree (when ?c _) (when ?c _) => unfold when; destruct c; agree_go
  | |- agree (when _ _) (when _ _) => apply agree_when_prints; prints_go
  | |- agree (if ?c then _ else _) (if ?c then _ else _) => destruct c; agree_go
  | |- agree (match ?x with _ => _ end) (match ?x with _ => _ end) =>
      destruct x; agree_go
  | |- agree (mapM _ _) (mapM _ _) => apply agree_mapM; intros; agree_go
  | |- agree ?m _ =>
      first
        [ apply agree_ret | apply agree_raise | apply agree_lift
        | apply agree_print | apply agree_warn | apply agree_deref
        | apply agree_fresh | apply agree_overwrite
        | apply agree_pass_all | apply agree_pass
        | let h := head_of m in progress (unfold h); agree_go ]
  end.

(** ** What [verbose] changes *)

Section Verbose.

Context {E : Type} (oracle : string -> list (arg E) -> result (ndarray E)).
Implicit Types (w : world E) (r : request).

Lemma gfft_agrees_across_verbose r b :
  agree (gfft oracle (with_verbose b r)) (gfft oracle r).
Proof. destruct r. unfold with_verbose. agree_go. Qed.

(** X15.  [verbose] changes what is printed and nothing else: with the
    flag set either way a call gives the same result or raises the same
    exception, leaves the same store, and asks the same of the
    collaborators in the same order. *)
Theorem verbose_only_prints r b w :
  fst (run (gfft oracle (with_verbose b r)) w) = fst (run (gfft oracle r) w)
  /\ heap (snd (run (gfft oracle (with_verbose b r)) w))
     = heap (snd (run (gfft oracle r) w))
  /\ calls (snd (run (gfft oracle (with_verbose b r)) w))
     = calls (snd (run (gfft oracle r) w)).
Proof.
  destruct (gfft_agrees_across_verbose r b w w (alike_refl w)) as [H1 [H2 H3]].
  auto.
Qed.

End Verbose.

(** ** The direct transforms: when they return, and what *)

Module DirectFacts.

Import Oracle Direct.
#[local] Open Scope R_scope.

Lemma check_axes_inv nin nout : forall a b : list (list R),
  length a = length b ->
  check_axes nin nout (combine a b) = OK tt ->
  forallb (fun x => (length x =? nin)%nat) a = true
  /\ forallb (fun y => (length y =? nout)%nat) b = true.
Proof.
  induction a as [|x a IH]; intros [|y b] Hl Hc; try discriminate.
  - split; reflexivity.
  - cbn [combine check_axes] in Hc. cbn [forallb].
    destruct (length x =? nin)%nat; [|discriminate].
    destruct (length y =? nout)%nat; [|discriminate].
    cbn [negb] in Hc. injection Hl as Hl.
    destruct (IH b Hl Hc) as [H1 H2]. rewrite H1, H2. split; reflexivity.
Qed.

Lemma dft_ok_matching v a b out : dft v a b = OK out -> matching v a b = true.
Proof.
  unfold dft, matching.
  destruct (Nat.eqb_spec (length b) (length a)) as [Hl|]; [|discriminate].
  cbn [negb]. destruct b as [|out0 rest]; [discriminate|].
  destruct (check_axes _ _ _) as [[]|] eqn:Hc; [|discriminate]. intros _.
  destruct (check_axes_inv _ _ a (out0 :: rest) (eq_sym Hl) Hc) as [H1 H2].
  cbn [nth]. rewrite H1, H2, <- Hl. reflexivity.
Qed.

Lemma direct_sum_length s v a b :
  length (direct_sum s v a b) = length (nth 0 b []).
Proof. unfold direct_sum. rewrite length_map, length_seq. reflexivity. Qed.

(** X16.  [dft] returns exactly when the axis lists match the input
    values: as many output axes as input axes and at least one, every
    input axis as long as the values, every output axis as long as the
    first one; and then it returns one value for every point of the first
    output axis.  In every other case it raises. *)
Theorem dft_returns_iff_axes_match v a b :
  matching v a b = true
  <-> exists out, dft v a b = OK out /\ length out = length (nth 0 b []).
Proof.
  split.
  - intros H. exists (direct_sum (-1) v a b).
    split; [apply OracleFacts.dft_direct_sum; exact H|apply direct_sum_length].
  - intros (out & H & _). apply (dft_ok_matching v a b out H).
Qed.

(** *** The mirrored output axes *)

Lemma at2_mirrored b k i : at2 (mirrored b) k i = - at2 b k i.
Proof.
  unfold at2, mirrored.
  change (@nil R) with (map Ropp []) at 1. rewrite map_nth.
  rewrite <- Ropp_0 at 1. rewrite map_nth. reflexivity.
Qed.

Lemma fold_left_opp (f g : nat -> R) l : forall acc,
  (forall k, g k = - f k) ->
  fold_left (fun p k => p + g k) l (- acc) = - fold_left (fun p k => p + f k) l acc.
Proof.
  induction l as [|k l IH]; intros acc H; [reflexivity|].
  cbn [fold_left]. rewrite <- IH by exact H. f_equal. rewrite H. ring.
Qed.

Lemma psum_mirrored a b i j : psum a (mirrored b) i j = - psum a b i j.
Proof.
  unfold psum. rewrite <- (Ropp_0) at 1.
  apply (fold_left_opp (fun k => at2 a k j * at2 b k i)).
  intros k. rewrite at2_mirrored. ring.
Qed.

Lemma check_axes_mirrored nin nout : forall a b,
  check_axes nin nout (combine a (mirrored b)) = check_axes nin nout (combine a b).
Proof.
  induction a as [|x a IH]; intros [|y b]; try reflexivity.
  cbn [mirrored map combine check_axes]. rewrite length_map.
  destruct (negb _); [reflexivity|]. destruct (negb _); [reflexivity|]. apply IH.
Qed.

(** X17.  [idft] is [dft] on the output axes with every coordinate
    negated: the two functions differ in the sign of the phase and in
    nothing else, the checks and the exceptions included. *)
Theorem idft_is_dft_on_mirrored_axes v a b :
  v <> [] -> idft v a b = dft v a (mirrored b).
Proof.
  intros _. unfold idft, dft.
  replace (length (mirrored b)) with (length b) by (unfold mirrored; rewrite length_map; reflexivity).
  destruct (negb _); [reflexivity|].
  destruct b as [|out0 rest]; [reflexivity|].
  unfold mirrored at 1. cbn [map].
  change (map Ropp out0 :: map (map Ropp) rest) with (mirrored (out0 :: rest)).
  rewrite check_axes_mirrored.
  replace (length (map Ropp out0)) with (length out0) by (rewrite length_map; reflexivity).
  destruct (check_axes _ _ _); [|reflexivity].
  f_equal. f_equal. apply map_ext. intros i.
  apply OracleFacts.fold_left_pointwise. intros acc j. cbn zeta.
  rewrite psum_mirrored.
  replace (-2 * PI * - psum a (out0 :: rest) i j)
    with (2 * PI * psum a (out0 :: rest) i j) by ring.
  reflexivity.
Qed.

(** *** The output at a point whose coordinates are all zero *)

Lemma psum_zero a b i j :
  (forall k, (k < length a)%nat -> at2 b k i = 0) -> psum a b i j = 0.
Proof.
  intros H. unfold psum.
  assert (G : forall l acc, (forall k, In k l -> at2 b k i = 0) ->
            fold_left (fun p k => p + at2 a k j * at2 b k i) l acc = acc).
  { induction l as [|k l IH]; intros acc Hk; [reflexivity|].
    cbn [fold_left]. rewrite IH by (intros k' Hk'; apply Hk; right; exact Hk').
    rewrite (Hk k) by (left; reflexivity). ring. }
  apply G. intros k Hk. apply H. apply in_seq in Hk. lia.
Qed.

Lemma Cmul_one x : Cmul x (1, 0) = x.
Proof. destruct x as [p q]. unfold Cmul. cbn [fst snd]. f_equal; ring. Qed.

Lemma fold_left_on {A B} (f g : A -> B -> A) l : forall acc,
  (forall j val, In j l -> f val j = g val j) -> fold_left f l acc = fold_left g l acc.
Proof.
  induction l as [|x l IH]; intros acc H; [reflexivity|].
  cbn [fold_left]. rewrite (H x) by (left; reflexivity).
  apply IH. intros j val Hj. apply H. right. exact Hj.
Qed.

Lemma fold_seq_nth {A} (g : A -> C -> A) (v : list C) : forall s acc,
  fold_left (fun val j => g val (nth (j - s) v C0)) (seq s (length v)) acc
  = fold_left g v acc.
Proof.
  induction v as [|x v IH]; intros s acc; [reflexivity|].
  cbn [length seq fold_left]. rewrite Nat.sub_diag. cbn [nth].
  rewrite <- (IH (S s)). apply fold_left_on.
  intros j val Hj. apply in_seq in Hj.
  replace (j - s)%nat with (S (j - S s)) by lia. reflexivity.
Qed.

(** X18.  Where every coordinate of an output point is zero the phase
    vanishes, and [dft] gives the sum of the input values divided by
    their number: the forward transform carries the factor 1/n. *)
Theorem dft_at_zero_is_the_mean v a b i :
  v <> [] -> matching v a b = true ->
  (i < length (nth 0 b []))%nat ->
  (forall k, (k < length a)%nat -> at2 b k i = 0) ->
  exists out, dft v a b = OK out
              /\ nth i out C0 = Cdiv_nat (Csum v) (length v).
Proof.
  intros _ Hm Hi Hz. exists (direct_sum (-1) v a b).
  split; [apply OracleFacts.dft_direct_sum; exact Hm|].
  unfold direct_sum.
  set (f := fun i0 : nat => Cdiv_nat _ (length v)).
  rewrite (nth_indep _ C0 (f 0%nat)) by (rewrite length_map, length_seq; exact Hi).
  rewrite map_nth, seq_nth by exact Hi. cbn [Nat.add]. subst f. cbn beta.
  f_equal. unfold Csum. rewrite <- (fold_seq_nth Cadd v 0%nat C0).
  apply OracleFacts.fold_left_pointwise. intros acc j. cbn zeta.
  rewrite (psum_zero a b i j Hz), Nat.sub_0_r.
  replace (-1 * (2 * PI * 0)) with 0 by ring.
  rewrite cos_0, sin_0, Cmul_one. reflexivity.
Qed.

Lemma idft_is_dft_on_mirrored_axes_witness :
  idft [(1, 0); (0, 1)] [[0; 1]] [[0; 1; 2]]
  = dft [(1, 0); (0, 1)] [[0; 1]] (mirrored [[0; 1; 2]]).
Proof.
  apply (idft_is_dft_on_mirrored_axes [(1, 0); (0, 1)] [[0; 1]] [[0; 1; 2]]).
  discriminate.
Defined.

Lemma dft_at_zero_is_the_mean_witness :
  exists out,
    dft [(1, 0); (0, 1)] [[0; 1]] [[0; 1; 2]] = OK out
    /\ nth 0 out C0 = Cdiv_nat (Csum [(1, 0); (0, 1)]) 2.
Proof.
  apply (dft_at_zero_is_the_mean [(1, 0); (0, 1)] [[0; 1]] [[0; 1; 2]] 0%nat).
  - discriminate.
  - reflexivity.
  - cbn. lia.
  - intros [|k] Hk; [reflexivity|]. cbn in Hk. lia.
Defined.

End DirectFacts.
